(** * LabelService of nepal-indirex-backend: a shallow embedding

    The service (src/src/index.ts, class [LabelService]) is a sequence of
    Prisma queries inside [try]/[catch] blocks.  It is embedded here as
    functions in a small state-and-exception monad over an explicit model
    of the database tables; every Prisma call is also recorded in a query
    log, so that "fails before querying" can be stated. *)

From Stdlib Require Import QArith Qround ZArith List String Bool Lia.
From Stdlib Require Import Permutation Sorted Ascii DecimalString.
From Stdlib Require DecimalPos DecimalZ.
Import ListNotations.
Local Open Scope string_scope.
Local Open Scope Z_scope.

(** ** JavaScript values used by the service *)

(** [Number(b)] for a BigInt [b]: the nearest double, ties to even.  Doubles
    carry 53 significant bits; a database BigInt is a 64-bit integer, so
    the conversion never overflows to an infinity.  The result is an
    integer-valued double, kept here as the integer it denotes. *)
Definition Number_of_BigInt (b : Z) : Z :=
  let a := Z.abs b in
  let e := Z.log2 a - 52 in
  if e <=? 0 then b
  else
    let q := Z.shiftr a e in
    let r := Z.land a (Z.ones e) in
    let half := Z.shiftl 1 (e - 1) in
    let q' := if r <? half then q
              else if half <? r then q + 1
              else if Z.even q then q else q + 1 in
    Z.sgn b * Z.shiftl q' e.

(** The largest magnitude below which [Number] is exact
    (Number.MAX_SAFE_INTEGER + 1). *)
Definition two53 : Z := 2 ^ 53.

Definition safe_integer (b : Z) : Prop := Z.abs b < two53.

(** A JS number as far as [Math.min]/[Math.max] over integer-valued doubles
    can produce one. *)
Inductive number :=
| Num (z : Z)
| Infinity
| NegInfinity.

(** [Math.min(...xs)]: [Infinity] for no argument. *)
Fixpoint Math_min (xs : list Z) : number :=
  match xs with
  | [] => Infinity
  | x :: xs' =>
      match Math_min xs' with
      | Num m => Num (Z.min x m)
      | Infinity => Num x
      | NegInfinity => NegInfinity
      end
  end.

(** [Math.max(...xs)]: [-Infinity] for no argument. *)
Fixpoint Math_max (xs : list Z) : number :=
  match xs with
  | [] => NegInfinity
  | x :: xs' =>
      match Math_max xs' with
      | Num m => Num (Z.max x m)
      | NegInfinity => Num x
      | Infinity => Infinity
      end
  end.

(** [b.toString()] for a BigInt: its decimal numeral. *)
Definition BigInt_toString (b : Z) : string :=
  NilZero.string_of_int (Z.to_int b).

(** [Math.ceil(a / b)] for two integer-valued numbers with [b] positive.
    The quotient is taken in the rationals: for counts below 2^53 the
    double quotient of two integers is never rounded across an integer, so
    its ceiling is the ceiling of the exact quotient. *)
Definition Math_ceil_div (a b : Z) : Z :=
  Qceiling (inject_Z a / inject_Z b)%Q.

(** A valid [Date], as its time value in milliseconds since the epoch. *)
Definition Date := Z.

(** [Math.floor(d.getTime() / 1000)] *)
Definition epoch_seconds (d : Date) : Z := d / 1000.

(** The time values of valid Dates reach from [- max_time_value] to
    [max_time_value], 100 000 000 days either side of the epoch. *)
Definition max_time_value : Z := 8640000000000000.

(** The time value of a Date object after a setter has run: [NaN] once the
    Date is invalid. *)
Inductive TimeValue :=
| Time (t : Z)
| NaN.

(** TimeClip: a time beyond the range makes the Date invalid. *)
Definition TimeClip (t : Z) : TimeValue :=
  if Z.abs t <=? max_time_value then Time t else NaN.

(** [d.setUTCHours(0, 0, 0, 0)] on a copy of [d]: the time value left in
    the copy *)
Definition setUTCHours_0_0_0_0 (d : Date) : TimeValue :=
  TimeClip (d - d mod 86400000).

(** [d.setUTCHours(23, 59, 59, 999)] on a copy of [d]: the time value left
    in the copy *)
Definition setUTCHours_23_59_59_999 (d : Date) : TimeValue :=
  TimeClip (d - d mod 86400000 + 86399999).

(** [xs.sort(cmp)]: the sort of Array.prototype.sort is stable, so for a
    consistent comparator its result is the one of any stable sort; an
    insertion sort is used.  [cmp a b <= 0] keeps [a] before [b]. *)
Section Sort.
Context {A : Type} (cmp : A -> A -> Z).

Fixpoint sort_insert (x : A) (l : list A) : list A :=
    match l with
    | [] => [x]
    | y :: l' => if cmp x y <=? 0 then x :: y :: l' else y :: sort_insert x l'
    end.

Fixpoint sort (l : list A) : list A :=
    match l with
    | [] => []
    | x :: l' => sort_insert x (sort l')
    end.
End Sort.

(** ** Exceptions and the monad of the async service methods *)

Inductive Exn :=
| AppError (message : string) (statusCode : Z)
| PrismaClientKnownRequestError (code : string)
| SyntaxError
| RangeError
| OtherError.

Inductive Outcome (A : Type) :=
| Return (a : A)
| Throw (e : Exn).
Arguments Return {A} a.
Arguments Throw {A} e.

(** [BigInt(x)] for a number: a RangeError unless [x] is an integer. *)
Definition BigInt_of_number (x : number) : Outcome Z :=
  match x with
  | Num z => Return z
  | Infinity | NegInfinity => Throw RangeError
  end.

(** [BigInt(Math.floor(d.getTime() / 1000))] for a Date object [d] with the
    time value [t]: of an invalid Date [getTime] is NaN, [Math.floor] keeps
    it and [BigInt] throws a RangeError. *)
Definition BigInt_floor_seconds (t : TimeValue) : Outcome Z :=
  match t with
  | Time ms => Return (ms / 1000)
  | NaN => Throw RangeError
  end.

(** [new Date(x * 1000).toISOString()] for an integer-valued double [x]:
    the product is the double nearest to it (the rounding of
    [Number_of_BigInt]), a product beyond the range of Date makes the Date
    invalid, and on an invalid Date [toISOString] throws a RangeError.
    The text is only handed to the logger and is left out. *)
Definition toISOString_of_seconds (x : Z) : Outcome unit :=
  match TimeClip (Number_of_BigInt (x * 1000)) with
  | Time _ => Return tt
  | NaN => Throw RangeError
  end.

(** ** Data model: the tables behind the Prisma client *)

Inductive LabelType := Song | Ad | Error | Program | Movie | Promo | Sports.

Definition LabelType_eqb (a b : LabelType) : bool :=
  match a, b with
  | Song, Song | Ad, Ad | Error, Error | Program, Program
  | Movie, Movie | Promo, Promo | Sports, Sports => true
  | _, _ => false
  end.

(** The columns of a type-specific sub-record (song, ad, ...), by name. *)
Definition Fields := list (string * string).

(** The seven optional one-to-one sub-records of a label; the same shape
    carries the optional payloads [data.song] ... [data.sports]. *)
Module Subs.
Record t := mk {
  song : option Fields;
  ad : option Fields;
  error : option Fields;
  program : option Fields;
  movie : option Fields;
  promo : option Fields;
  sports : option Fields }.

Definition empty : t := mk None None None None None None None.

Definition get (k : LabelType) (s : t) : option Fields :=
  match k with
  | Song => song s | Ad => ad s | Error => error s | Program => program s
  | Movie => movie s | Promo => promo s | Sports => sports s
  end.

Definition set (k : LabelType) (v : option Fields) (s : t) : t :=
  match k with
  | Song => mk v (ad s) (error s) (program s) (movie s) (promo s) (sports s)
  | Ad => mk (song s) v (error s) (program s) (movie s) (promo s) (sports s)
  | Error => mk (song s) (ad s) v (program s) (movie s) (promo s) (sports s)
  | Program => mk (song s) (ad s) (error s) v (movie s) (promo s) (sports s)
  | Movie => mk (song s) (ad s) (error s) (program s) v (promo s) (sports s)
  | Promo => mk (song s) (ad s) (error s) (program s) (movie s) v (sports s)
  | Sports => mk (song s) (ad s) (error s) (program s) (movie s) (promo s) v
  end.
End Subs.

(** A detected event.  Its type-specific extension rows (ads, channels,
    content), which getUnlabeledEvents hands through untouched, are left
    out. *)
Module Event.
Record t := mk {
  id : Z;
  device_id : string;
  timestamp : Z;
  type : string;
  image_path : option string }.
End Event.

(** A row of the label table together with its one-to-one sub-records. *)
Module LabelRow.
Record t := mk {
  id : Z;
  label_type : LabelType;
  created_by : string;
  created_at : Date;
  start_time : Z;
  end_time : Z;
  notes : option string;
  subs : Subs.t }.
End LabelRow.

(** The join entity between labels and events. *)
Module LabelEvent.
Record t := mk {
  label_id : Z;
  event_id : Z }.
End LabelEvent.

(** The tables, the next value of the label id sequence and the clock
    behind the default of [created_at]. *)
Record Database := mkDatabase {
  devices : list string;
  events : list Event.t;
  labels : list LabelRow.t;
  label_events : list LabelEvent.t;
  next_label_id : Z;
  now : Date }.

(** The tables after an id was drawn from the label id sequence and
    nothing was written. *)
Definition id_drawn (d : Database) : Database :=
  mkDatabase (devices d) (events d) (labels d) (label_events d)
             (next_label_id d + 1) (now d).

(** The Prisma calls the service issues. *)
Inductive Query :=
| EventFindMany | EventCount
| LabelCreate | LabelFindMany | LabelCount
| LabelUpdate | LabelDelete | LabelDeleteMany
| DeviceFindUnique.

(** The tables and the log of the calls issued so far. *)
Record World := mkWorld {
  db : Database;
  queries : list Query }.

Definition Async (A : Type) : Type := World -> Outcome A * World.

Definition ret {A} (a : A) : Async A := fun w => (Return a, w).

Definition throw {A} (e : Exn) : Async A := fun w => (Throw e, w).

Definition bind {A B} (m : Async A) (k : A -> Async B) : Async B :=
  fun w =>
    match m w with
    | (Return a, w') => k a w'
    | (Throw e, w') => (Throw e, w')
    end.

(** [try { body } catch (error) { handler error }] *)
Definition try_catch {A} (body : Async A) (handler : Exn -> Async A) : Async A :=
  fun w =>
    match body w with
    | (Return a, w') => (Return a, w')
    | (Throw e, w') => handler e w'
    end.

(** A synchronous step that may throw. *)
Definition lift {A} (o : Outcome A) : Async A := fun w => (o, w).

(** A Prisma call: logged, then run against the tables. *)
Definition prisma {A} (q : Query) (op : Database -> Outcome A * Database) : Async A :=
  fun w =>
    let (r, d) := op (db w) in
    (r, mkWorld d (queries w ++ [q])).

Notation "x <- m ;; k" := (bind m (fun x => k))
  (at level 61, m at next level, right associativity).

(** [xs.map(f)] where [f] may throw: the first exception escapes. *)
Fixpoint map_throwing {A B} (f : A -> Outcome B) (xs : list A) : Outcome (list B) :=
  match xs with
  | [] => Return []
  | x :: xs' =>
      match f x with
      | Throw e => Throw e
      | Return y =>
          match map_throwing f xs' with
          | Throw e => Throw e
          | Return ys => Return (y :: ys)
          end
      end
  end.

(** ** The Prisma client, as far as the service uses it *)

Definition mem (x : Z) (l : list Z) : bool := existsb (Z.eqb x) l.

Definition truthy {A} (o : option A) : bool :=
  match o with Some _ => true | None => false end.

(** A non-empty string is truthy. *)
Definition truthy_string (s : string) : bool := negb (String.eqb s "").

Definition find_event (d : Database) (i : Z) : option Event.t :=
  find (fun e => Event.id e =? i) (events d).

Definition find_label (d : Database) (i : Z) : option LabelRow.t :=
  find (fun l => LabelRow.id l =? i) (labels d).

(** A label as returned with
    [include: { events: { include: { event: ... } }, song: true, ... }]. *)
Module Included.
Record t := mk {
  row : LabelRow.t;
  events : list (LabelEvent.t * Event.t) }.
End Included.

Definition rows_of_label (d : Database) (lid : Z) : list LabelEvent.t :=
  filter (fun le => LabelEvent.label_id le =? lid) (label_events d).

Definition with_event (d : Database) (le : LabelEvent.t) : list (LabelEvent.t * Event.t) :=
  match find_event d (LabelEvent.event_id le) with
  | Some e => [(le, e)]
  | None => []
  end.

Definition include_events (d : Database) (r : LabelRow.t) : Included.t :=
  Included.mk r (flat_map (with_event d) (rows_of_label d (LabelRow.id r))).

Inductive SortOrder := asc | desc.

Definition order_cmp (o : SortOrder) (a b : Z) : Z :=
  match o with asc => a - b | desc => b - a end.

(** [skip] and [take] of findMany; a negative [skip] is refused by the
    client, a negative [take] counts from the end. *)
Definition page_of {A} (skip take : Z) (l : list A) : Outcome (list A) :=
  if skip <? 0 then Throw OtherError
  else
    let rest := skipn (Z.to_nat skip) l in
    Return (if take <? 0 then rev (firstn (Z.to_nat (- take)) (rev rest))
            else firstn (Z.to_nat take) rest).

(** *** Events *)

Module EventWhere.
Record t := mk {
  labels_none : bool;
  timestamp_gte : option Z;
  timestamp_lte : option Z;
  device_id : option string;
  type_in : option (list string) }.
End EventWhere.

Definition holds {A} (o : option A) (p : A -> bool) : bool :=
  match o with Some a => p a | None => true end.

Definition event_matches (d : Database) (w : EventWhere.t) (e : Event.t) : bool :=
  (if EventWhere.labels_none w
   then negb (existsb (fun le => LabelEvent.event_id le =? Event.id e) (label_events d))
   else true)
  && holds (EventWhere.timestamp_gte w) (fun t => t <=? Event.timestamp e)
  && holds (EventWhere.timestamp_lte w) (fun t => Event.timestamp e <=? t)
  && holds (EventWhere.device_id w) (String.eqb (Event.device_id e))
  && holds (EventWhere.type_in w) (existsb (String.eqb (Event.type e))).

(** [prisma.event.findMany({ where: { id: { in: ids } }, select: ... })] *)
Definition event_findMany_in (ids : list Z) : Async (list Event.t) :=
  prisma EventFindMany (fun d =>
    (Return (filter (fun e => mem (Event.id e) ids) (events d)), d)).

(** [prisma.event.findMany({ where, skip, take, orderBy: { timestamp } })] *)
Definition event_findMany (w : EventWhere.t) (skip take : Z) (o : SortOrder)
  : Async (list Event.t) :=
  prisma EventFindMany (fun d =>
    (page_of skip take
       (sort (fun a b => order_cmp o (Event.timestamp a) (Event.timestamp b))
             (filter (event_matches d w) (events d))), d)).

(** [prisma.event.count({ where })] *)
Definition event_count (w : EventWhere.t) : Async Z :=
  prisma EventCount (fun d =>
    (Return (Z.of_nat (List.length (filter (event_matches d w) (events d)))), d)).

(** [prisma.device.findUnique({ where: { device_id } })] *)
Definition device_findUnique (device_id : string) : Async (option string) :=
  prisma DeviceFindUnique (fun d =>
    (Return (find (String.eqb device_id) (devices d)), d)).

(** *** Labels *)

Inductive TimeAtom :=
| start_time_gte (t : Z)
| start_time_lte (t : Z)
| end_time_gte (t : Z)
| end_time_lte (t : Z).

Definition atom_holds (l : LabelRow.t) (a : TimeAtom) : bool :=
  match a with
  | start_time_gte t => t <=? LabelRow.start_time l
  | start_time_lte t => LabelRow.start_time l <=? t
  | end_time_gte t => t <=? LabelRow.end_time l
  | end_time_lte t => LabelRow.end_time l <=? t
  end.

(** A [Prisma.LabelWhereInput] as the service builds it; [OR] is a list of
    alternatives, each a conjunction of bounds on start_time / end_time. *)
Module LabelWhere.
Record t := mk {
  created_at_gte : option Date;
  created_at_lte : option Date;
  created_by : option string;
  label_type : option LabelType;
  events_some_device_id : option string;
  OR : option (list (list TimeAtom)) }.
End LabelWhere.

(** [events: { some: { event: { device_id } } }] *)
Definition has_event_on (d : Database) (device_id : string) (l : LabelRow.t) : bool :=
  existsb (fun p => String.eqb (Event.device_id (snd p)) device_id)
          (Included.events (include_events d l)).

Definition label_matches (d : Database) (w : LabelWhere.t) (l : LabelRow.t) : bool :=
  holds (LabelWhere.created_at_gte w) (fun t => t <=? LabelRow.created_at l)
  && holds (LabelWhere.created_at_lte w) (fun t => LabelRow.created_at l <=? t)
  && holds (LabelWhere.created_by w) (String.eqb (LabelRow.created_by l))
  && holds (LabelWhere.label_type w) (LabelType_eqb (LabelRow.label_type l))
  && holds (LabelWhere.events_some_device_id w) (fun dev => has_event_on d dev l)
  && holds (LabelWhere.OR w) (existsb (forallb (atom_holds l))).

(** [prisma.label.findMany({ where, skip, take, orderBy, include })];
    [skip]/[take] are optional. *)
Definition label_findMany (w : LabelWhere.t) (paging : option (Z * Z))
    (key : LabelRow.t -> Z) (o : SortOrder) : Async (list Included.t) :=
  prisma LabelFindMany (fun d =>
    let found := sort (fun a b => order_cmp o (key a) (key b))
                      (filter (label_matches d w) (labels d)) in
    match match paging with
          | Some (skip, take) => page_of skip take found
          | None => Return found
          end with
    | Return rows => (Return (map (include_events d) rows), d)
    | Throw e => (Throw e, d)
    end).

(** [prisma.label.count({ where })] *)
Definition label_count (w : LabelWhere.t) : Async Z :=
  prisma LabelCount (fun d =>
    (Return (Z.of_nat (List.length (filter (label_matches d w) (labels d)))), d)).

Module LabelCreateInput.
Record t := mk {
  label_type : LabelType;
  created_by : string;
  start_time : Z;
  end_time : Z;
  notes : option string;
  events_create : list Z;
  subs : Subs.t }.
End LabelCreateInput.

Module LabelUpdateInput.
Record t := mk {
  label_type : option LabelType;
  notes : option (option string);
  events_replace : option (list Z);
  upsert : option (LabelType * (Fields * Fields)) }.
End LabelUpdateInput.

Definition event_exists (d : Database) (i : Z) : bool :=
  existsb (fun e => Event.id e =? i) (events d).

(** [upsert: { create, update }] on a one-to-one sub-record: created when
    absent, otherwise the given columns overwritten. *)
Definition upsert_fields (create update : Fields) (old : option Fields) : Fields :=
  match old with
  | None => create
  | Some o =>
      (update ++ filter (fun kv => negb (existsb (fun kv' => String.eqb (fst kv') (fst kv)) update)) o)%list
  end.

(** The request and response types (types/label.type, inferred from the
    validation schemas). *)
Module CreateLabel.
Record t := mk {
  event_ids : list string;
  label_type : LabelType;
  notes : option string;
  subs : Subs.t;
  created_by : string }.
End CreateLabel.

(** [notes] may be absent, [null] or a string. *)
Module UpdateLabel.
Record t := mk {
  event_ids : option (list string);
  label_type : option LabelType;
  notes : option (option string);
  subs : Subs.t }.
End UpdateLabel.

Module Label.
Record t := mk {
  id : Z;
  event_ids : list string;
  label_type : LabelType;
  created_by : string;
  created_at : Date;
  start_time : string;
  end_time : string;
  notes : option string;
  image_paths : list (option string);
  subs : Subs.t }.
End Label.

Module GetUnlabeledEventsOptions.
Record t := mk {
  page : Z;
  limit : Z;
  startDate : option Date;
  endDate : option Date;
  deviceId : option string;
  types : option (list string);
  sort : option SortOrder }.
End GetUnlabeledEventsOptions.

Module GetLabelsOptions.
Record t := mk {
  page : Z;
  limit : Z;
  startDate : option Date;
  endDate : option Date;
  createdBy : option string;
  labelType : option LabelType;
  deviceId : option string;
  sort : option SortOrder }.
End GetLabelsOptions.

(** An event as returned by getUnlabeledEvents: [id] and [timestamp] as
    strings. *)
Module EventOut.
Record t := mk {
  id : string;
  device_id : string;
  timestamp : string;
  type : string;
  image_path : option string }.
End EventOut.

(** The page of results both listings return. *)
Module Page.
Record t (A : Type) := mk {
  items : list A;
  total : Z;
  totalPages : Z;
  currentPage : Z }.
Arguments mk {A}.
Arguments items {A}.
Arguments total {A}.
Arguments totalPages {A}.
Arguments currentPage {A}.
End Page.

Module ProgramGuideLabel.
Record t := mk {
  id : Z;
  label_type : LabelType;
  created_by : string;
  created_at : Date;
  start_time : string;
  end_time : string;
  notes : option string;
  device_id : option string;
  image_paths : list (option string);
  subs : Subs.t }.
End ProgramGuideLabel.

Section Service.

(** The uniqueness constraints of the Prisma schema on the join table: the
    schema file is not among the sources, so the constraint is a parameter,
    a test on the rows of the table. *)
Variable label_event_unique : list LabelEvent.t -> bool.

(** The rows [events: { create: ids.map(id => ({ event: { connect: { id } } })) }]
    adds for label [lid] to the join table [rows]: P2025 when an event to
    connect is missing, P2002 when the constraint is violated. *)
Definition connect_events (d : Database) (rows : list LabelEvent.t) (lid : Z)
    (ids : list Z) : Outcome (list LabelEvent.t) :=
  if negb (forallb (event_exists d) ids)
  then Throw (PrismaClientKnownRequestError "P2025")
  else
    let rows' := (rows ++ map (LabelEvent.mk lid) ids)%list in
    if label_event_unique rows' then Return rows'
    else Throw (PrismaClientKnownRequestError "P2002").

(** [prisma.label.create({ data, include })]: one transaction.  The label
    row is inserted first and draws its id from the sequence; when a join
    row is refused the transaction is rolled back, which returns no id to
    the sequence. *)
Definition label_create (input : LabelCreateInput.t) : Async Included.t :=
  prisma LabelCreate (fun d =>
    let lid := next_label_id d in
    match connect_events d (label_events d) lid (LabelCreateInput.events_create input) with
    | Throw e => (Throw e, id_drawn d)
    | Return rows' =>
        let row := LabelRow.mk lid
                     (LabelCreateInput.label_type input)
                     (LabelCreateInput.created_by input)
                     (now d)
                     (LabelCreateInput.start_time input)
                     (LabelCreateInput.end_time input)
                     (LabelCreateInput.notes input)
                     (LabelCreateInput.subs input) in
        let d' := mkDatabase (devices d) (events d) (labels d ++ [row]) rows'
                             (lid + 1) (now d) in
        (Return (include_events d' row), d')
    end).

Definition update_row (u : LabelUpdateInput.t) (r : LabelRow.t) : LabelRow.t :=
  LabelRow.mk (LabelRow.id r)
    (match LabelUpdateInput.label_type u with Some t => t | None => LabelRow.label_type r end)
    (LabelRow.created_by r)
    (LabelRow.created_at r)
    (LabelRow.start_time r)
    (LabelRow.end_time r)
    (match LabelUpdateInput.notes u with Some n => n | None => LabelRow.notes r end)
    (match LabelUpdateInput.upsert u with
     | Some (k, (create, update)) =>
         Subs.set k (Some (upsert_fields create update (Subs.get k (LabelRow.subs r))))
                  (LabelRow.subs r)
     | None => LabelRow.subs r
     end).

(** [prisma.label.update({ where: { id }, data, include })]: P2025 when the
    label is missing; [events: { deleteMany: {}, create }] first removes
    every join row of the label, then adds the new ones. *)
Definition label_update (id : Z) (u : LabelUpdateInput.t) : Async Included.t :=
  prisma LabelUpdate (fun d =>
    match find_label d id with
    | None => (Throw (PrismaClientKnownRequestError "P2025"), d)
    | Some r =>
        match match LabelUpdateInput.events_replace u with
              | Some ids =>
                  connect_events d
                    (filter (fun le => negb (LabelEvent.label_id le =? id)) (label_events d))
                    id ids
              | None => Return (label_events d)
              end with
        | Throw e => (Throw e, d)
        | Return rows' =>
            let d' := mkDatabase (devices d) (events d)
                        (map (fun l => if LabelRow.id l =? id then update_row u l else l)
                             (labels d))
                        rows' (next_label_id d) (now d) in
            (Return (include_events d' (update_row u r)), d')
        end
    end).

(** Modelled from the spec: the referential action of the schema on the
    join table is missing from the sources; a label is "deleted
    individually or in bulk by id list", so the join rows of a deleted
    label are removed with it (its sub-records are part of its row).
    [prisma.label.delete({ where: { id } })]: P2025 when the label is
    missing. *)
Definition label_delete (id : Z) : Async unit :=
  prisma LabelDelete (fun d =>
    match find_label d id with
    | None => (Throw (PrismaClientKnownRequestError "P2025"), d)
    | Some _ =>
        (Return tt,
         mkDatabase (devices d) (events d)
           (filter (fun l => negb (LabelRow.id l =? id)) (labels d))
           (filter (fun le => negb (LabelEvent.label_id le =? id)) (label_events d))
           (next_label_id d) (now d))
    end).

(** Modelled from the spec: as for [label_delete], the join rows go with
    their labels.  [prisma.label.deleteMany({ where: { id: { in: ids } } })]
    removes the labels that match and returns their number. *)
Definition label_deleteMany (ids : list Z) : Async Z :=
  prisma LabelDeleteMany (fun d =>
    (Return (Z.of_nat (List.length (filter (fun l => mem (LabelRow.id l) ids) (labels d)))),
     mkDatabase (devices d) (events d)
       (filter (fun l => negb (mem (LabelRow.id l) ids)) (labels d))
       (filter (fun le => negb (mem (LabelEvent.label_id le) ids)) (label_events d))
       (next_label_id d) (now d))).

(** [Promise.all([a, b])]: both calls are issued; the first rejection wins. *)
Definition Promise_all2 {A B} (a : Async A) (b : Async B) : Async (A * B) :=
  fun w =>
    let (ra, wa) := a w in
    let (rb, wb) := b wa in
    match ra, rb with
    | Return x, Return y => (Return (x, y), wb)
    | Throw e, _ => (Throw e, wb)
    | Return _, Throw e => (Throw e, wb)
    end.

(** ** LabelService *)

(** [BigInt(s)] for a string, [None] when it throws a SyntaxError: the
    StringToBigInt grammar of the language, a parameter of the service. *)
Variable BigInt_of_string : string -> option Z.

(** An integer-valued double is not NaN. *)
Definition isNaN (x : Z) : bool := false.

(** The callback of [data.event_ids.map(...)]. *)
Definition parse_event_id (id : string) : Outcome Z :=
  match BigInt_of_string id with
  | None => Throw SyntaxError
  | Some parsed =>
      if isNaN (Number_of_BigInt parsed)
      then Throw (AppError ("Invalid event ID: " ++ id) 400)
      else Return parsed
  end.

(** [(a, b) => Number(a.timestamp) - Number(b.timestamp)] *)
Definition by_timestamp (a b : Event.t) : Z :=
  Number_of_BigInt (Event.timestamp a) - Number_of_BigInt (Event.timestamp b).

(** [(a, b) => Number(a.event.timestamp) - Number(b.event.timestamp)] *)
Definition by_event_timestamp (a b : LabelEvent.t * Event.t) : Z :=
  by_timestamp (snd a) (snd b).

(** The chain [if (data.label_type === 'song' && data.song) ... else if ...]
    of createLabel. *)
Definition create_subs (t : LabelType) (p : Subs.t) : Subs.t :=
  if LabelType_eqb t Song && truthy (Subs.song p)
  then Subs.set Song (Subs.song p) Subs.empty
  else if LabelType_eqb t Ad && truthy (Subs.ad p)
  then Subs.set Ad (Subs.ad p) Subs.empty
  else if LabelType_eqb t Error && truthy (Subs.error p)
  then Subs.set Error (Subs.error p) Subs.empty
  else if LabelType_eqb t Program && truthy (Subs.program p)
  then Subs.set Program (Subs.program p) Subs.empty
  else if LabelType_eqb t Movie && truthy (Subs.movie p)
  then Subs.set Movie (Subs.movie p) Subs.empty
  else if LabelType_eqb t Promo && truthy (Subs.promo p)
  then Subs.set Promo (Subs.promo p) Subs.empty
  else if LabelType_eqb t Sports && truthy (Subs.sports p)
  then Subs.set Sports (Subs.sports p) Subs.empty
  else Subs.empty.

(** The object a label is returned as; [events] is [label.events] in the
    order it has when [event_ids] is read. *)
Definition to_Label (label : Included.t) (events : list (LabelEvent.t * Event.t))
    (image_paths : list (option string)) : Label.t :=
  let r := Included.row label in
  Label.mk (LabelRow.id r)
    (map (fun e => BigInt_toString (LabelEvent.event_id (fst e))) events)
    (LabelRow.label_type r)
    (LabelRow.created_by r)
    (LabelRow.created_at r)
    (BigInt_toString (LabelRow.start_time r))
    (BigInt_toString (LabelRow.end_time r))
    (LabelRow.notes r)
    image_paths
    (LabelRow.subs r).

(** The body of the [try] block of createLabel.  [label.events.sort(...)]
    sorts in place, so [event_ids] is read from the sorted array. *)
Definition createLabel_try (data : CreateLabel.t) : Async Label.t :=
  eventIds <- lift (map_throwing parse_event_id (CreateLabel.event_ids data)) ;;
  events <- event_findMany_in eventIds ;;
  if negb (Nat.eqb (List.length events) (List.length eventIds))
  then throw (AppError "One or more events not found" 404)
  else
    let timestamps := map (fun e => Number_of_BigInt (Event.timestamp e)) events in
    start_time <- lift (BigInt_of_number (Math_min timestamps)) ;;
    end_time <- lift (BigInt_of_number (Math_max timestamps)) ;;
    let sortedEvents := sort by_timestamp events in
    let image_paths := map Event.image_path sortedEvents in
    let labelData :=
      LabelCreateInput.mk (CreateLabel.label_type data) (CreateLabel.created_by data)
        start_time end_time (CreateLabel.notes data) eventIds
        (create_subs (CreateLabel.label_type data) (CreateLabel.subs data)) in
    label <- label_create labelData ;;
    let sorted := sort by_event_timestamp (Included.events label) in
    let sortedImagePaths := map (fun e => Event.image_path (snd e)) sorted in
    ret (to_Label label sorted sortedImagePaths).

(** The [catch] block of createLabel. *)
Definition createLabel_catch {A} (error : Exn) : Async A :=
  match error with
  | PrismaClientKnownRequestError code =>
      if String.eqb code "P2002"
      then throw (AppError "Label already exists for one or more events" 400)
      else throw (AppError "Failed to create label" 500)
  | _ => throw (AppError "Failed to create label" 500)
  end.

Definition createLabel (data : CreateLabel.t) : Async Label.t :=
  try_catch (createLabel_try data) createLabel_catch.

(** [x ? f(x) : absent] for a possibly absent, possibly empty string. *)
Definition if_truthy_string (o : option string) : option string :=
  match o with
  | Some s => if truthy_string s then Some s else None
  | None => None
  end.

Definition getUnlabeledEvents_where (options : GetUnlabeledEventsOptions.t) : EventWhere.t :=
  EventWhere.mk true
    (option_map epoch_seconds (GetUnlabeledEventsOptions.startDate options))
    (option_map epoch_seconds (GetUnlabeledEventsOptions.endDate options))
    (if_truthy_string (GetUnlabeledEventsOptions.deviceId options))
    (match GetUnlabeledEventsOptions.types options with
     | Some ts => if (0 <? Z.of_nat (List.length ts)) then Some ts else None
     | None => None
     end).

Definition sort_or_desc (o : option SortOrder) : SortOrder :=
  match o with Some s => s | None => desc end.

(** The argument of [logger.info('Sample event timestamps:', ...)]:
    [events.slice(0, 3).map(e => ({ ..., timestampAsDate: ... }))], which
    throws when one of the three timestamps is no date. *)
Definition sample_event_timestamps (events : list Event.t) : Outcome (list unit) :=
  map_throwing (fun e => toISOString_of_seconds (Number_of_BigInt (Event.timestamp e)))
               (firstn 3 events).

(** The log entry 'Query timestamps' reads the two valid Dates of the
    request and cannot throw; the entry 'Sample event timestamps' is made
    inside the [try] block, when the page is not empty. *)
Definition getUnlabeledEvents (options : GetUnlabeledEventsOptions.t)
  : Async (Page.t EventOut.t) :=
  let page := GetUnlabeledEventsOptions.page options in
  let limit := GetUnlabeledEventsOptions.limit options in
  let skip := (page - 1) * limit in
  try_catch
    (let whereClause := getUnlabeledEvents_where options in
     r <- Promise_all2
            (event_findMany whereClause skip limit
               (sort_or_desc (GetUnlabeledEventsOptions.sort options)))
            (event_count whereClause) ;;
     let (events, total) := r in
     _ <- lift (if 0 <? Z.of_nat (List.length events)
                then sample_event_timestamps events
                else Return []) ;;
     ret (Page.mk
            (map (fun event =>
                    EventOut.mk (BigInt_toString (Event.id event))
                      (Event.device_id event)
                      (BigInt_toString (Event.timestamp event))
                      (Event.type event) (Event.image_path event)) events)
            total
            (Math_ceil_div total limit)
            page))
    (fun error => throw (AppError "Failed to fetch unlabeled events" 500)).

Definition getLabels_where (options : GetLabelsOptions.t) : LabelWhere.t :=
  LabelWhere.mk
    (GetLabelsOptions.startDate options)
    (GetLabelsOptions.endDate options)
    (if_truthy_string (GetLabelsOptions.createdBy options))
    (GetLabelsOptions.labelType options)
    (if_truthy_string (GetLabelsOptions.deviceId options))
    None.

(** In the object literal of getLabels [event_ids] is read before
    [label.events.sort(...)] runs, so it keeps the order of the query. *)
Definition getLabels (options : GetLabelsOptions.t) : Async (Page.t Label.t) :=
  let page := GetLabelsOptions.page options in
  let limit := GetLabelsOptions.limit options in
  let skip := (page - 1) * limit in
  try_catch
    (let whereClause := getLabels_where options in
     r <- Promise_all2
            (label_findMany whereClause (Some (skip, limit)) LabelRow.created_at
               (sort_or_desc (GetLabelsOptions.sort options)))
            (label_count whereClause) ;;
     let (labels, total) := r in
     ret (Page.mk
            (map (fun label =>
                    to_Label label (Included.events label)
                      (map (fun e => Event.image_path (snd e))
                           (sort by_event_timestamp (Included.events label))))
                 labels)
            total
            (Math_ceil_div total limit)
            page))
    (fun error => throw (AppError "Failed to fetch labels" 500)).

(** [{ program_title: data.sports.program_title, ... }]: the four columns
    the sports upsert copies; an absent one stays unset. *)
Definition sports_columns : list string :=
  ["program_title"; "sport_type"; "program_category"; "language"].

Definition pick (keys : list string) (f : Fields) : Fields :=
  flat_map (fun k =>
              match find (fun kv => String.eqb (fst kv) k) f with
              | Some kv => [(k, snd kv)]
              | None => []
              end) keys.

(** [data.label_type === t] for a possibly absent [label_type]. *)
Definition is_type (o : option LabelType) (t : LabelType) : bool :=
  match o with Some t' => LabelType_eqb t' t | None => false end.

Definition upsert_same (k : LabelType) (v : option Fields)
  : option (LabelType * (Fields * Fields)) :=
  option_map (fun f => (k, (f, f))) v.

(** The chain [if (data.label_type === 'song' && data.song) ... else if ...]
    of updateLabel. *)
Definition update_upsert (t : option LabelType) (p : Subs.t)
  : option (LabelType * (Fields * Fields)) :=
  if is_type t Song && truthy (Subs.song p) then upsert_same Song (Subs.song p)
  else if is_type t Ad && truthy (Subs.ad p) then upsert_same Ad (Subs.ad p)
  else if is_type t Error && truthy (Subs.error p) then upsert_same Error (Subs.error p)
  else if is_type t Program && truthy (Subs.program p) then upsert_same Program (Subs.program p)
  else if is_type t Movie && truthy (Subs.movie p) then upsert_same Movie (Subs.movie p)
  else if is_type t Promo && truthy (Subs.promo p) then upsert_same Promo (Subs.promo p)
  else if is_type t Sports && truthy (Subs.sports p)
  then upsert_same Sports (option_map (pick sports_columns) (Subs.sports p))
  else None.

(** The block [if (data.event_ids !== undefined) { ... }] of updateLabel:
    the image paths of the new events and the ids to connect. *)
Definition updateLabel_events (event_ids : option (list string))
  : Async (list (option string) * option (list Z)) :=
  match event_ids with
  | None => ret ([], None)
  | Some ids =>
      eventIds <- lift (map_throwing parse_event_id ids) ;;
      events <- event_findMany_in eventIds ;;
      if negb (Nat.eqb (List.length events) (List.length eventIds))
      then throw (AppError "One or more events not found" 404)
      else
        let sortedEvents := sort by_timestamp events in
        ret (map Event.image_path sortedEvents, Some eventIds)
  end.

(** The body of the [try] block of updateLabel.  Without [event_ids] the
    returned [label.events] is sorted in place before [event_ids] is read;
    with it the array keeps the order of the query. *)
Definition updateLabel_try (id : Z) (data : UpdateLabel.t) : Async Label.t :=
  r <- updateLabel_events (UpdateLabel.event_ids data) ;;
  let (image_paths, events_replace) := r in
  let updateData :=
    LabelUpdateInput.mk (UpdateLabel.label_type data) (UpdateLabel.notes data)
      events_replace
      (update_upsert (UpdateLabel.label_type data) (UpdateLabel.subs data)) in
  label <- label_update id updateData ;;
  match UpdateLabel.event_ids data with
  | Some _ => ret (to_Label label (Included.events label) image_paths)
  | None =>
      let sorted := sort by_event_timestamp (Included.events label) in
      ret (to_Label label sorted (map (fun e => Event.image_path (snd e)) sorted))
  end.

(** The [catch] block shared by updateLabel and deleteLabel, up to the
    message of the generic failure. *)
Definition not_found_or {A} (generic : string) (error : Exn) : Async A :=
  match error with
  | PrismaClientKnownRequestError code =>
      if String.eqb code "P2025"
      then throw (AppError "Label not found" 404)
      else throw (AppError generic 500)
  | _ => throw (AppError generic 500)
  end.

Definition updateLabel (id : Z) (data : UpdateLabel.t) : Async Label.t :=
  try_catch (updateLabel_try id data) (not_found_or "Failed to update label").

Definition deleteLabel (id : Z) : Async unit :=
  try_catch (label_delete id) (not_found_or "Failed to delete label").

Definition deleteLabelsBulk (labelIds : list Z) : Async unit :=
  try_catch (_ <- label_deleteMany labelIds ;; ret tt)
    (fun error => throw (AppError "Failed to delete labels" 500)).

(** The [where] object of getProgramGuideByDate. *)
Definition programGuide_where (startTimestamp endTimestamp : Z) (deviceId : string)
  : LabelWhere.t :=
  LabelWhere.mk None None None None (Some deviceId)
    (Some [ [start_time_gte startTimestamp; start_time_lte endTimestamp];
            [end_time_gte startTimestamp; end_time_lte endTimestamp];
            [start_time_lte startTimestamp; end_time_gte endTimestamp] ]).

(** [device_id: label.events[0]?.event.device_id || null] is read before
    the events are sorted. *)
Definition to_ProgramGuideLabel (label : Included.t) : ProgramGuideLabel.t :=
  let r := Included.row label in
  ProgramGuideLabel.mk (LabelRow.id r) (LabelRow.label_type r)
    (LabelRow.created_by r) (LabelRow.created_at r)
    (BigInt_toString (LabelRow.start_time r))
    (BigInt_toString (LabelRow.end_time r))
    (LabelRow.notes r)
    (match Included.events label with
     | [] => None
     | e :: _ => if_truthy_string (Some (Event.device_id (snd e)))
     end)
    (map (fun e => Event.image_path (snd e))
         (sort by_event_timestamp (Included.events label)))
    (LabelRow.subs r).

Definition getProgramGuideByDate (date : Date) (deviceId : string) (sort : SortOrder)
  : Async (list ProgramGuideLabel.t) :=
  try_catch
    (device <- device_findUnique deviceId ;;
     if negb (truthy device)
     then throw (AppError "Invalid device ID" 404)
     else
       let startOfDay := setUTCHours_0_0_0_0 date in
       let endOfDay := setUTCHours_23_59_59_999 date in
       startTimestamp <- lift (BigInt_floor_seconds startOfDay) ;;
       endTimestamp <- lift (BigInt_floor_seconds endOfDay) ;;
       labels <- label_findMany (programGuide_where startTimestamp endTimestamp deviceId)
                   None LabelRow.start_time sort ;;
       ret (map to_ProgramGuideLabel labels))
    (fun error =>
       match error with
       | AppError message statusCode => throw (AppError message statusCode)
       | _ => throw (AppError "Failed to fetch program guide" 500)
       end).

End Service.

(** ** The validation middleware (middleware/validate) *)

(** What the [catch] of the middleware tells apart: a [ZodError], with
    the messages of its issues, and any other value, with its [message]
    if it has one. *)
Inductive Caught :=
| ZodError (issues : list string)
| OtherValue (message : option string).

(** [m || 'Validation failed'] *)
Definition or_validation_failed (m : option string) : string :=
  match if_truthy_string m with
  | Some s => s
  | None => "Validation failed"
  end.

Section Validate.

Variables Body Req : Type.

(** [schema.parse], [None] when the body is accepted, and the rest of the
    chain, [next], which acts on the state of the request and may throw. *)
Variable schema_parse : Body -> option Caught.
Variable next : Req -> option Caught * Req.

Definition validate (body : Body) (s : Req) : Outcome unit * Req :=
  match match schema_parse body with
        | Some error => (Some error, s)
        | None => next s
        end with
  | (None, s') => (Return tt, s')
  | (Some error, s') =>
      match error with
      | ZodError issues =>
          let firstIssue := nth_error issues 0 in
          let message := or_validation_failed firstIssue in
          (Throw (AppError message 400), s')
      | OtherValue m =>
          let message := or_validation_failed m in
          (Throw (AppError message 400), s')
      end
  end.

End Validate.

Arguments validate {Body Req} schema_parse next body s.

(** ** Instances of the parameters and sample data *)

(** An instance of [BigInt(s)] for the sample data.  It reads what BigInt
    reads of the decimal numerals: digits with an optional sign, and the
    empty string, which denotes zero.  The other forms of the grammar
    (white space around the numeral, the prefixes 0x, 0o and 0b) it
    refuses; the properties are proved for every instance. *)
Definition BigInt_decimal (s : string) : option Z :=
  match s with
  | EmptyString => Some 0
  | String "-"%char t =>
      if String.eqb t "" then None
      else option_map (fun u => - Z.of_uint u) (NilEmpty.uint_of_string t)
  | String "+"%char t =>
      if String.eqb t "" then None
      else option_map Z.of_uint (NilEmpty.uint_of_string t)
  | _ => option_map Z.of_uint (NilEmpty.uint_of_string s)
  end.

Definition LabelEvent_eqb (a b : LabelEvent.t) : bool :=
  (LabelEvent.label_id a =? LabelEvent.label_id b)
  && (LabelEvent.event_id a =? LabelEvent.event_id b).

(** A join table keyed by (label_id, event_id). *)
Fixpoint composite_key_unique (rows : list LabelEvent.t) : bool :=
  match rows with
  | [] => true
  | r :: rows' => negb (existsb (LabelEvent_eqb r) rows') && composite_key_unique rows'
  end.

(** A join table in which an event carries at most one label. *)
Fixpoint one_label_per_event (rows : list LabelEvent.t) : bool :=
  match rows with
  | [] => true
  | r :: rows' =>
      negb (existsb (fun r' => LabelEvent.event_id r =? LabelEvent.event_id r') rows')
      && one_label_per_event rows'
  end.

Definition sample_events : list Event.t :=
  [ Event.mk 1 "dev-1" 300 "ad" (Some "c.jpg");
    Event.mk 2 "dev-1" 100 "ad" (Some "a.jpg");
    Event.mk 3 "dev-2" 200 "content" None ].

(** Three events, no label yet. *)
Definition sample_db : Database :=
  mkDatabase ["dev-1"; "dev-2"] sample_events [] [] 1 1700000000000.

Definition sample_world : World := mkWorld sample_db [].

Definition sample_create (ids : list string) : CreateLabel.t :=
  CreateLabel.mk ids Song (Some "note") (Subs.set Song (Some [("title", "t")]) Subs.empty) "ann".

(** The sample database after label 1 was put on event 2. *)
Definition labelled_db : Database :=
  mkDatabase ["dev-1"; "dev-2"] sample_events
    [LabelRow.mk 1 Song "ann" 1700000000000 100 100 (Some "note")
       (Subs.set Song (Some [("title", "t")]) Subs.empty)]
    [LabelEvent.mk 1 2] 2 1700000000000.

Definition labelled_world : World := mkWorld labelled_db [].

(** A request to put the label on the events [ids] instead. *)
Definition sample_replace (ids : list string) : UpdateLabel.t :=
  UpdateLabel.mk (Some ids) None None Subs.empty.

(** A request that carries a song sub-record but no label_type. *)
Definition sample_song_only : UpdateLabel.t :=
  UpdateLabel.mk None None None (Subs.set Song (Some [("title", "u")]) Subs.empty).

Definition sample_unlabeled_options : GetUnlabeledEventsOptions.t :=
  GetUnlabeledEventsOptions.mk 1 2 (Some 0) None (Some "dev-1") None (Some asc).

Definition sample_labels_options : GetLabelsOptions.t :=
  GetLabelsOptions.mk 2 1 None None (Some "ann") (Some Song) None None.

(** ** Vocabulary of the properties *)

Fixpoint distinct (l : list Z) : bool :=
  match l with
  | [] => true
  | x :: l' => negb (mem x l') && distinct l'
  end.

(** The integrity the database engine maintains: event ids are a primary
    key, the ids in use precede the next label id; and the timestamps,
    seconds since the epoch, are in the range where [Number] is exact. *)
Definition well_formed (d : Database) : bool :=
  distinct (map Event.id (events d))
  && forallb (fun l => LabelRow.id l <? next_label_id d) (labels d)
  && forallb (fun le => LabelEvent.label_id le <? next_label_id d) (label_events d)
  && forallb (fun e => Z.abs (Event.timestamp e) <? two53) (events d).

(** The events [prisma.event.findMany({ where: { id: { in: ids } } })]
    returns. *)
Definition found (d : Database) (ids : list Z) : list Event.t :=
  filter (fun e => mem (Event.id e) ids) (events d).

(** [e] is one of the events the ids [ids] refer to. *)
Definition refers_to (d : Database) (ids : list Z) (e : Event.t) : Prop :=
  In e (events d) /\ In (Event.id e) ids.

(** [t] is the minimum of the timestamps of the events [ids] refer to. *)
Definition min_timestamp (d : Database) (ids : list Z) (t : Z) : Prop :=
  (exists e, refers_to d ids e /\ Event.timestamp e = t)
  /\ forall e, refers_to d ids e -> t <= Event.timestamp e.

(** [t] is the maximum of the timestamps of the events [ids] refer to. *)
Definition max_timestamp (d : Database) (ids : list Z) (t : Z) : Prop :=
  (exists e, refers_to d ids e /\ Event.timestamp e = t)
  /\ forall e, refers_to d ids e -> Event.timestamp e <= t.

(** Ascending order of timestamps. *)
Definition ascending (es : list Event.t) : Prop :=
  StronglySorted (fun a b => Event.timestamp a <= Event.timestamp b) es.

(** The event ids label [lid] is associated with, in table order. *)
Definition associations (d : Database) (lid : Z) : list Z :=
  map LabelEvent.event_id (rows_of_label d lid).

(** The invariant of the data model on a label: start_time and end_time
    are the minimum and the maximum of the timestamps of its events, and
    start_time <= end_time. *)
Definition bounds_derived (d : Database) (l : LabelRow.t) : Prop :=
  min_timestamp d (associations d (LabelRow.id l)) (LabelRow.start_time l)
  /\ max_timestamp d (associations d (LabelRow.id l)) (LabelRow.end_time l)
  /\ LabelRow.start_time l <= LabelRow.end_time l.

(** What a label returned by createLabel is like: it is associated with
    exactly the ids given, its bounds are the minimum and the maximum of
    the timestamps of their events, its image_paths follow the ascending
    order of these timestamps. *)
Definition created_as_specified (d : Database) (ids : list Z) (r : Label.t)
    (d' : Database) : Prop :=
  Permutation (associations d' (Label.id r)) ids
  /\ (exists lo hi,
         Label.start_time r = BigInt_toString lo
         /\ Label.end_time r = BigInt_toString hi
         /\ min_timestamp d ids lo
         /\ max_timestamp d ids hi)
  /\ (exists es,
         Permutation (map Event.id es) ids
         /\ Forall (fun e => In e (events d)) es
         /\ ascending es
         /\ Label.image_paths r = map Event.image_path es).

(** What a replacement of the events of label [id] by [ids] leaves: the
    label is associated with exactly [ids], no former association with an
    event outside [ids] remains, and the returned event_ids are [ids]. *)
Definition replaced_as_specified (d : Database) (id : Z) (ids : list Z)
    (r : Label.t) (d' : Database) : Prop :=
  Permutation (associations d' id) ids
  /\ (forall le, In le (label_events d) ->
                 LabelEvent.label_id le = id ->
                 ~ In (LabelEvent.event_id le) ids ->
                 ~ In le (label_events d'))
  /\ Permutation (Label.event_ids r) (map BigInt_toString ids).

(** The filters of a getUnlabeledEvents request that are active, applied
    to an event: it carries no label, lies in the date range given, is of
    the device given (a non-empty id) and of one of the types given (a
    non-empty list). *)
Definition unlabeled_selected (d : Database) (o : GetUnlabeledEventsOptions.t)
    (e : Event.t) : bool :=
  forallb (fun le => negb (LabelEvent.event_id le =? Event.id e)) (label_events d)
  && match GetUnlabeledEventsOptions.startDate o with
     | Some s => s / 1000 <=? Event.timestamp e
     | None => true
     end
  && match GetUnlabeledEventsOptions.endDate o with
     | Some s => Event.timestamp e <=? s / 1000
     | None => true
     end
  && match GetUnlabeledEventsOptions.deviceId o with
     | Some dev => String.eqb dev "" || String.eqb dev (Event.device_id e)
     | None => true
     end
  && match GetUnlabeledEventsOptions.types o with
     | Some (t :: ts) => existsb (String.eqb (Event.type e)) (t :: ts)
     | _ => true
     end.

(** Some event of label [l] is on device [dev]. *)
Definition on_device (d : Database) (dev : string) (l : LabelRow.t) : bool :=
  existsb (fun le =>
             (LabelEvent.label_id le =? LabelRow.id l)
             && match find_event d (LabelEvent.event_id le) with
                | Some e => String.eqb (Event.device_id e) dev
                | None => false
                end)
          (label_events d).

(** The filters of a getLabels request that are active, applied to a
    label. *)
Definition label_selected (d : Database) (o : GetLabelsOptions.t)
    (l : LabelRow.t) : bool :=
  match GetLabelsOptions.startDate o with
  | Some s => s <=? LabelRow.created_at l
  | None => true
  end
  && match GetLabelsOptions.endDate o with
     | Some s => LabelRow.created_at l <=? s
     | None => true
     end
  && match GetLabelsOptions.createdBy o with
     | Some u => String.eqb u "" || String.eqb u (LabelRow.created_by l)
     | None => true
     end
  && match GetLabelsOptions.labelType o with
     | Some t => LabelType_eqb t (LabelRow.label_type l)
     | None => true
     end
  && match GetLabelsOptions.deviceId o with
     | Some dev => String.eqb dev "" || on_device d dev l
     | None => true
     end.

(** The interval [start_time, end_time] of a label, in seconds, meets the
    UTC day of [date], from 00:00:00.000 to 23:59:59.999 (in
    milliseconds). *)
Definition overlaps_UTC_day (date : Date) (l : LabelRow.t) : bool :=
  let day := date / 86400000 in
  (LabelRow.start_time l * 1000 <=? day * 86400000 + 86399999)
  && (day * 86400000 <=? LabelRow.end_time l * 1000).

(** The value of the column [name] of a sub-record, if it has one. *)
Definition field (name : string) (f : Fields) : option string :=
  option_map snd (find (fun kv => String.eqb (fst kv) name) f).

(** The columns of the sub-record of type [k] that updateLabel hands to
    the upsert: the payload as a whole for six types, four named columns
    of it for sports. *)
Definition handed_on (k : LabelType) (name : string) : bool :=
  match k with
  | Sports => String.eqb name "program_title" || String.eqb name "sport_type"
              || String.eqb name "program_category" || String.eqb name "language"
  | _ => true
  end.

(** The four tables of [d'] are those of [d]. *)
Definition same_tables (d d' : Database) : Prop :=
  devices d' = devices d
  /\ events d' = events d
  /\ labels d' = labels d
  /\ label_events d' = label_events d.

(** Every timestamp of the events table, in seconds since the epoch, is
    the time of a valid Date: at most 8 640 000 000 000 in magnitude. *)
Definition timestamps_are_dates (d : Database) : bool :=
  forallb (fun e => Z.abs (Event.timestamp e) * 1000 <=? max_time_value) (events d).

(** The dates whose UTC day, up to 23:59:59.999, lies within the range of
    Date: the valid Dates but the last instant of the range, which opens a
    day of its own. *)
Definition day_in_range (date : Date) : Prop :=
  - max_time_value <= date < max_time_value.

(** The events of label [l], in the order of its rows in the join
    table. *)
Definition events_of (d : Database) (l : LabelRow.t) : list Event.t :=
  flat_map (fun i => match find_event d i with
                     | Some e => [e]
                     | None => []
                     end)
           (associations d (LabelRow.id l)).

(** Ascending in [Number(timestamp)], the key the service sorts by. *)
Definition ascending_as_numbers (es : list Event.t) : Prop :=
  StronglySorted (fun a b => Number_of_BigInt (Event.timestamp a)
                             <= Number_of_BigInt (Event.timestamp b)) es.

(** What the program guide shows of the label [l] of the tables [d]: the
    columns of its row, the bounds as decimal numerals, its sub-records,
    the device of its first event (none for a label without events or an
    empty device id) and the image paths of its events, sorted. *)
Definition guide_entry (d : Database) (l : LabelRow.t) (g : ProgramGuideLabel.t) : Prop :=
  ProgramGuideLabel.id g = LabelRow.id l
  /\ ProgramGuideLabel.label_type g = LabelRow.label_type l
  /\ ProgramGuideLabel.created_by g = LabelRow.created_by l
  /\ ProgramGuideLabel.created_at g = LabelRow.created_at l
  /\ ProgramGuideLabel.start_time g = BigInt_toString (LabelRow.start_time l)
  /\ ProgramGuideLabel.end_time g = BigInt_toString (LabelRow.end_time l)
  /\ ProgramGuideLabel.notes g = LabelRow.notes l
  /\ ProgramGuideLabel.subs g = LabelRow.subs l
  /\ ProgramGuideLabel.device_id g
     = match events_of d l with
       | e :: _ => if String.eqb (Event.device_id e) "" then None
                   else Some (Event.device_id e)
       | [] => None
       end
  /\ exists es,
       Permutation es (events_of d l)
       /\ ascending_as_numbers es
       /\ ProgramGuideLabel.image_paths g = map Event.image_path es.

(** [start_time <= end_time] on every label of the table. *)
Definition intervals_ordered (d : Database) : bool :=
  forallb (fun l => LabelRow.start_time l <=? LabelRow.end_time l) (labels d).

(** The world after the calls [qs] were logged, the tables being [d]. *)
Definition logged (w : World) (d : Database) (qs : list Query) : World :=
  mkWorld d (queries w ++ qs).

(** The row createLabel inserts, given the bounds it computed. *)
Definition created_row (data : CreateLabel.t) (d : Database) (lo hi : Z) : LabelRow.t :=
  LabelRow.mk (next_label_id d) (CreateLabel.label_type data)
    (CreateLabel.created_by data) (now d) lo hi (CreateLabel.notes data)
    (create_subs (CreateLabel.label_type data) (CreateLabel.subs data)).

(** The tables after a label was inserted with the join rows [rows']. *)
Definition created_db (d : Database) (row : LabelRow.t) (rows' : list LabelEvent.t)
  : Database :=
  mkDatabase (devices d) (events d) (labels d ++ [row]) rows'
    (next_label_id d + 1) (now d).

(** The object createLabel returns for the label the client handed back. *)
Definition created_label (label : Included.t) : Label.t :=
  let sorted := sort by_event_timestamp (Included.events label) in
  to_Label label sorted (map (fun e => Event.image_path (snd e)) sorted).

(** The join rows of the other labels. *)
Definition rows_of_others (d : Database) (lid : Z) : list LabelEvent.t :=
  filter (fun le => negb (LabelEvent.label_id le =? lid)) (label_events d).

(** The tables after label [id] was updated by [u], the join table
    becoming [rows']. *)
Definition updated_db (d : Database) (id : Z) (u : LabelUpdateInput.t)
    (rows' : list LabelEvent.t) : Database :=
  mkDatabase (devices d) (events d)
    (map (fun l => if LabelRow.id l =? id then update_row u l else l) (labels d))
    rows' (next_label_id d) (now d).

(** The update updateLabel asks for when it replaces the events by [ids]. *)
Definition replacing (data : UpdateLabel.t) (ids : list Z) : LabelUpdateInput.t :=
  LabelUpdateInput.mk (UpdateLabel.label_type data) (UpdateLabel.notes data)
    (Some ids)
    (update_upsert (UpdateLabel.label_type data) (UpdateLabel.subs data)).

(** An event as getUnlabeledEvents returns it. *)
Definition to_EventOut (event : Event.t) : EventOut.t :=
  EventOut.mk (BigInt_toString (Event.id event)) (Event.device_id event)
    (BigInt_toString (Event.timestamp event)) (Event.type event)
    (Event.image_path event).

(** The order [orderBy: { key: o }] asks for. *)
Definition in_order {A} (o : SortOrder) (key : A -> Z) (a b : A) : Prop :=
  match o with
  | asc => key a <= key b
  | desc => key b <= key a
  end.

(** A getLabels request without filter: the first [limit] labels. *)
Definition unfiltered (limit : Z) : GetLabelsOptions.t :=
  GetLabelsOptions.mk 1 limit None None None None None None.

(** A label as getLabels returns it: [event_ids] in the order of the join
    table, [image_paths] sorted. *)
Definition listed (d : Database) (l : LabelRow.t) : Label.t :=
  let label := include_events d l in
  to_Label label (Included.events label)
    (map (fun e => Event.image_path (snd e))
         (sort by_event_timestamp (Included.events label))).

(** The update updateLabel asks for when the request has no event_ids. *)
Definition keeping (data : UpdateLabel.t) : LabelUpdateInput.t :=
  LabelUpdateInput.mk (UpdateLabel.label_type data) (UpdateLabel.notes data)
    None
    (update_upsert (UpdateLabel.label_type data) (UpdateLabel.subs data)).

(** The columns updateLabel sends for a sub-record of type [k]: the
    payload as it is, for sports the four columns it copies. *)
Definition upsert_payload (k : LabelType) (f : Fields) : Fields :=
  match k with
  | Sports => pick sports_columns f
  | _ => f
  end.

(** A schema that wants a non-empty body, and a chain that counts its
    runs. *)
Definition sample_schema (body : string) : option Caught :=
  if truthy_string body then None else Some (ZodError ["Required"; "Too short"]).

Definition sample_next (runs : nat) : option Caught * nat := (None, S runs).

(** A table with one event whose timestamp, in seconds, is one second
    beyond the last Date. *)
Definition beyond_dates_world : World :=
  mkWorld
    (mkDatabase ["dev-1"] [Event.mk 1 "dev-1" 8640000000001 "ad" None] [] [] 1
                1700000000000)
    [].

(** The row of label 1 in [labelled_db]. *)
Definition sample_label_row : LabelRow.t :=
  LabelRow.mk 1 Song "ann" 1700000000000 100 100 (Some "note")
    (Subs.set Song (Some [("title", "t")]) Subs.empty).

(** The sample database with label 1 on event 2 and label 2 on the events
    1 and 3. *)
Definition two_labels_world : World :=
  mkWorld
    (mkDatabase ["dev-1"; "dev-2"] sample_events
       [sample_label_row;
        LabelRow.mk 2 Song "ann" 1700000000000 200 300 (Some "note")
          (Subs.set Song (Some [("title", "t")]) Subs.empty)]
       [LabelEvent.mk 1 2; LabelEvent.mk 2 1; LabelEvent.mk 2 3] 3 1700000000000)
    [].

(** A request that makes the label an ad, clears the notes and carries
    the ad sub-record. *)
Definition sample_retype : UpdateLabel.t :=
  UpdateLabel.mk None (Some Ad) (Some None) (Subs.set Ad (Some [("brand", "b")]) Subs.empty).

(** A request that names the type the label has and a field of its
    sub-record. *)
Definition sample_song_upsert : UpdateLabel.t :=
  UpdateLabel.mk None (Some Song) None (Subs.set Song (Some [("artist", "a")]) Subs.empty).

(** * Properties *)

(** ** Numbers *)

Lemma Number_of_BigInt_safe (b : Z) :
  safe_integer b -> Number_of_BigInt b = b.
Proof.
  unfold safe_integer. intros Hb. unfold Number_of_BigInt.
  assert (He : Z.log2 (Z.abs b) - 52 <= 0).
  { destruct (Z.eq_dec (Z.abs b) 0) as [E|E].
    - rewrite E. simpl. lia.
    - assert (Z.log2 (Z.abs b) < 53); [|lia].
      apply Z.log2_lt_pow2; [lia|exact Hb]. }
  apply Z.leb_le in He. now rewrite He.
Qed.

Lemma Math_min_spec (xs : list Z) :
  xs <> [] ->
  exists m, Math_min xs = Num m /\ In m xs /\ forall x, In x xs -> m <= x.
Proof.
  induction xs as [|x xs IH]; [congruence|]. intros _.
  destruct xs as [|y ys].
  - exists x. simpl. repeat split; auto. intros z [<-|[]]. lia.
  - destruct IH as (m & Hm & Hin & Hle); [congruence|].
    exists (Z.min x m). split; [|split].
    + change (Math_min (x :: y :: ys))
        with (match Math_min (y :: ys) with
              | Num m => Num (Z.min x m)
              | Infinity => Num x
              | NegInfinity => NegInfinity
              end).
      now rewrite Hm.
    + destruct (Z.min_spec x m) as [[_ ->]|[_ ->]]; [now left|now right].
    + intros z [<-|Hz]; [lia|]. specialize (Hle z Hz). lia.
Qed.

Lemma Math_max_spec (xs : list Z) :
  xs <> [] ->
  exists m, Math_max xs = Num m /\ In m xs /\ forall x, In x xs -> x <= m.
Proof.
  induction xs as [|x xs IH]; [congruence|]. intros _.
  destruct xs as [|y ys].
  - exists x. simpl. repeat split; auto. intros z [<-|[]]. lia.
  - destruct IH as (m & Hm & Hin & Hle); [congruence|].
    exists (Z.max x m). split; [|split].
    + change (Math_max (x :: y :: ys))
        with (match Math_max (y :: ys) with
              | Num m => Num (Z.max x m)
              | NegInfinity => Num x
              | Infinity => Infinity
              end).
      now rewrite Hm.
    + destruct (Z.max_spec x m) as [[_ ->]|[_ ->]]; [now right|now left].
    + intros z [<-|Hz]; [lia|]. specialize (Hle z Hz). lia.
Qed.

Lemma Math_ceil_div_spec (a b : Z) :
  0 < b ->
  (Math_ceil_div a b - 1) * b < a <= Math_ceil_div a b * b.
Proof.
  intros Hb. unfold Math_ceil_div.
  set (q := (inject_Z a / inject_Z b)%Q).
  assert (Hb' : (inject_Z 0 < inject_Z b)%Q) by (rewrite <- Zlt_Qlt; exact Hb).
  assert (Hq : (q * inject_Z b == inject_Z a)%Q).
  { unfold q. rewrite Qmult_comm. apply Qmult_div_r. intros E. rewrite E in Hb'. now apply Qlt_irrefl in Hb'. }
  pose proof (Qle_ceiling q) as Hup.
  pose proof (Qceiling_lt q) as Hlo.
  split.
  - rewrite Zlt_Qlt, inject_Z_mult, <- Hq.
    apply Qmult_lt_compat_r; assumption.
  - rewrite Zle_Qle, inject_Z_mult, <- Hq.
    apply Qmult_le_compat_r; [assumption|]. now apply Qlt_le_weak.
Qed.

(** ** Sorting *)

Section SortPerm.
Context {A : Type} (cmp : A -> A -> Z).

Lemma sort_insert_perm (x : A) (l : list A) :
  Permutation (sort_insert cmp x l) (x :: l).
Proof.
  induction l as [|y l IH]; simpl; [reflexivity|].
  destruct (cmp x y <=? 0); [reflexivity|].
  rewrite IH. apply perm_swap.
Qed.

Lemma sort_perm (l : list A) : Permutation (sort cmp l) l.
Proof.
  induction l as [|x l IH]; simpl; [reflexivity|].
  rewrite sort_insert_perm. now constructor.
Qed.
End SortPerm.

Section SortSorted.
Context {A : Type} (key : A -> Z).

Local Abbreviation cmp := (fun a b : A => key a - key b).
Local Abbreviation le := (fun a b : A => key a <= key b).

Lemma sort_insert_sorted (x : A) (l : list A) :
  StronglySorted le l -> StronglySorted le (sort_insert cmp x l).
Proof.
  induction 1 as [|y l Hs IH Hy]; simpl.
  - constructor; constructor.
  - destruct (key x - key y <=? 0) eqn:E.
    + apply Z.leb_le in E.
      constructor; [constructor; assumption|].
      constructor; [lia|].
      eapply Forall_impl; [|exact Hy]. simpl. intros; lia.
    + apply Z.leb_gt in E.
      constructor; [assumption|].
      eapply Permutation_Forall; [symmetry; apply sort_insert_perm|].
      constructor; [lia|assumption].
Qed.

Lemma sort_sorted (l : list A) : StronglySorted le (sort cmp l).
Proof.
  induction l as [|x l IH]; simpl; [constructor|].
  now apply sort_insert_sorted.
Qed.
End SortSorted.

(** ** The tables *)

Lemma mem_In (x : Z) (l : list Z) : mem x l = true <-> In x l.
Proof.
  unfold mem. rewrite existsb_exists. split.
  - intros (y & Hy & E). apply Z.eqb_eq in E. now subst.
  - intros H. exists x. split; [assumption|apply Z.eqb_refl].
Qed.

Lemma distinct_NoDup (l : list Z) : distinct l = true -> NoDup l.
Proof.
  induction l as [|x l IH]; simpl; [constructor|].
  intros H. apply andb_prop in H as [Hx Hl].
  constructor; [|now apply IH].
  intros Hin. apply mem_In in Hin. now rewrite Hin in Hx.
Qed.

Lemma well_formed_elim (d : Database) :
  well_formed d = true ->
  NoDup (map Event.id (events d))
  /\ (forall le, In le (label_events d) -> LabelEvent.label_id le < next_label_id d)
  /\ (forall e, In e (events d) -> Z.abs (Event.timestamp e) < two53).
Proof.
  unfold well_formed. intros H.
  apply andb_prop in H as [H Hsafe]. apply andb_prop in H as [H Hrows].
  apply andb_prop in H as [Hids _].
  split; [now apply distinct_NoDup|]. split.
  - intros le Hle. rewrite forallb_forall in Hrows. now apply Z.ltb_lt, Hrows.
  - intros e He. rewrite forallb_forall in Hsafe. now apply Z.ltb_lt, Hsafe.
Qed.

Lemma find_event_Some (d : Database) (i : Z) (e : Event.t) :
  find_event d i = Some e -> In e (events d) /\ Event.id e = i.
Proof.
  unfold find_event. intros H. apply find_some in H as [Hin E].
  apply Z.eqb_eq in E. now split.
Qed.

Lemma event_exists_iff (d : Database) (i : Z) :
  event_exists d i = true <-> In i (map Event.id (events d)).
Proof.
  unfold event_exists. rewrite existsb_exists, in_map_iff. split.
  - intros (e & He & E). apply Z.eqb_eq in E. now exists e.
  - intros (e & E & He). exists e. split; [assumption|now apply Z.eqb_eq].
Qed.

Lemma event_exists_find (d : Database) (i : Z) :
  event_exists d i = true -> exists e, find_event d i = Some e.
Proof.
  intros H. apply event_exists_iff, in_map_iff in H as (e & E & He).
  unfold find_event.
  destruct (find (fun e0 => Event.id e0 =? i) (events d)) as [e'|] eqn:F.
  - now exists e'.
  - exfalso. apply (find_none _ _ F) in He. rewrite E, Z.eqb_refl in He. discriminate.
Qed.

Lemma found_refers_to (d : Database) (ids : list Z) (e : Event.t) :
  In e (found d ids) <-> refers_to d ids e.
Proof.
  unfold found, refers_to. rewrite filter_In, mem_In. tauto.
Qed.

(** Rows with distinct keys keep distinct keys when some are filtered out. *)
Lemma filtered_keys_NoDup {K V : Type} (key : V -> K) (keep : V -> bool) :
  forall rows, NoDup (map key rows) -> NoDup (map key (filter keep rows)).
Proof.
  intros rows. induction rows as [|x rows IH]; simpl; [trivial|].
  intros H. inversion H as [|? ? Hx Hrows]; subst.
  destruct (keep x); simpl; [|now apply IH].
  constructor; [|now apply IH].
  intros Hin. apply Hx. apply in_map_iff in Hin as (y & E & Hy).
  apply filter_In in Hy as [Hy _]. apply in_map_iff. now exists y.
Qed.

Lemma remove_length_lt (i : Z) (ids : list Z) :
  In i ids ->
  (List.length (filter (fun j => negb (j =? i)%Z) ids) < List.length ids)%nat.
Proof.
  induction ids as [|j ids IH]; simpl; [tauto|].
  intros [->|Hin].
  - rewrite Z.eqb_refl. simpl.
    pose proof (filter_length_le (fun j => negb (j =? i)) ids). lia.
  - specialize (IH Hin). destruct (negb (j =? i)); simpl; lia.
Qed.

(** One id without an event: fewer events are found than ids were given. *)
Lemma found_length_missing (d : Database) (ids : list Z) (i : Z) :
  NoDup (map Event.id (events d)) ->
  In i ids -> event_exists d i = false ->
  (List.length (found d ids) < List.length ids)%nat.
Proof.
  intros Hpk Hin Hmiss.
  apply Nat.le_lt_trans with (List.length (filter (fun j => negb (j =? i)) ids));
    [|now apply remove_length_lt].
  rewrite <- (length_map Event.id). apply NoDup_incl_length.
  - now apply filtered_keys_NoDup.
  - intros j Hj. apply in_map_iff in Hj as (e & <- & He).
    apply found_refers_to in He as [He Hid].
    apply filter_In. split; [assumption|].
    apply negb_true_iff, Z.eqb_neq. intros E.
    assert (event_exists d i = true); [|congruence].
    apply event_exists_iff, in_map_iff. now exists e.
Qed.

(** Distinct ids, each with its event: as many events are found. *)
Lemma found_ids_perm (d : Database) (ids : list Z) :
  NoDup (map Event.id (events d)) -> NoDup ids ->
  (forall i, In i ids -> event_exists d i = true) ->
  Permutation (map Event.id (found d ids)) ids.
Proof.
  intros Hpk Hids Hall. apply NoDup_Permutation.
  - now apply filtered_keys_NoDup.
  - assumption.
  - intros i. rewrite in_map_iff. split.
    + intros (e & <- & He). now apply found_refers_to in He as [_ He].
    + intros Hi. specialize (Hall i Hi).
      apply event_exists_iff, in_map_iff in Hall as (e & E & He).
      exists e. split; [assumption|]. apply found_refers_to. split; [assumption|].
      now rewrite E.
Qed.

(** As many events found as ids given: the ids are distinct. *)
Lemma found_length_distinct (d : Database) (ids : list Z) :
  NoDup (map Event.id (events d)) ->
  List.length (found d ids) = List.length ids ->
  NoDup ids.
Proof.
  intros Hpk Hlen.
  apply NoDup_incl_NoDup with (l := map Event.id (found d ids)).
  - now apply filtered_keys_NoDup.
  - rewrite length_map. lia.
  - intros i Hi. apply in_map_iff in Hi as (e & <- & He).
    now apply found_refers_to in He as [_ He].
Qed.

(** ** createLabel *)

Section CreateLabelFacts.
Variable unique : list LabelEvent.t -> bool.
Variable BigInt : string -> option Z.

(** The [try] block of createLabel, run on ids that parse. *)
Lemma createLabel_try_parsed (data : CreateLabel.t) (w : World) (ids : list Z) :
  map_throwing (parse_event_id BigInt) (CreateLabel.event_ids data) = Return ids ->
  createLabel_try unique BigInt data w =
  let d := db w in
  let ts := map (fun e => Number_of_BigInt (Event.timestamp e)) (found d ids) in
  if negb (Nat.eqb (List.length (found d ids)) (List.length ids))
  then (Throw (AppError "One or more events not found" 404), logged w d [EventFindMany])
  else
    match BigInt_of_number (Math_min ts) with
    | Throw e => (Throw e, logged w d [EventFindMany])
    | Return lo =>
        match BigInt_of_number (Math_max ts) with
        | Throw e => (Throw e, logged w d [EventFindMany])
        | Return hi =>
            match connect_events unique d (label_events d) (next_label_id d) ids with
            | Throw e => (Throw e, logged w (id_drawn d) [EventFindMany; LabelCreate])
            | Return rows' =>
                let row := created_row data d lo hi in
                let d' := created_db d row rows' in
                (Return (created_label (include_events d' row)),
                 logged w d' [EventFindMany; LabelCreate])
            end
        end
    end.
Proof.
  intros Hparse.
  unfold createLabel_try, bind, lift, event_findMany_in, prisma. rewrite Hparse.
  cbv zeta. fold (found (db w) ids).
  destruct (negb (Nat.eqb (List.length (found (db w) ids)) (List.length ids))); [reflexivity|].
  destruct (BigInt_of_number (Math_min _)) as [lo|e]; [|reflexivity].
  destruct (BigInt_of_number (Math_max _)) as [hi|e]; [|reflexivity].
  unfold label_create, prisma, ret, logged. simpl.
  destruct (connect_events unique (db w) (label_events (db w)) (next_label_id (db w)) ids)
    as [rows'|e]; simpl; rewrite <- app_assoc; reflexivity.
Qed.

(** The [catch] block of createLabel always rethrows an application error:
    a conflict for P2002, the generic failure otherwise. *)
Lemma createLabel_catch_throws {A} (e : Exn) (w : World) :
  @createLabel_catch A e w =
  (Throw (if match e with
             | PrismaClientKnownRequestError code => String.eqb code "P2002"
             | _ => false
             end
          then AppError "Label already exists for one or more events" 400
          else AppError "Failed to create label" 500), w).
Proof.
  destruct e as [m c|code| | |]; try reflexivity.
  unfold createLabel_catch. now destruct (String.eqb code "P2002").
Qed.

Lemma createLabel_Return (data : CreateLabel.t) (w w' : World) (r : Label.t) :
  createLabel unique BigInt data w = (Return r, w') ->
  createLabel_try unique BigInt data w = (Return r, w').
Proof.
  unfold createLabel, try_catch.
  destruct (createLabel_try unique BigInt data w) as [[a|e] w1]; [trivial|].
  rewrite createLabel_catch_throws. discriminate.
Qed.

Lemma found_length_eq (d : Database) (ids : list Z) :
  well_formed d = true -> distinct ids = true ->
  forallb (event_exists d) ids = true ->
  List.length (found d ids) = List.length ids.
Proof.
  intros Hwf Hids Hall. apply well_formed_elim in Hwf as (Hpk & _ & _).
  rewrite <- (length_map Event.id). apply Permutation_length, found_ids_perm.
  - assumption.
  - now apply distinct_NoDup.
  - intros i Hi. rewrite forallb_forall in Hall. now apply Hall.
Qed.

(** On a non-empty list of events found, both bounds are integers. *)
Lemma bounds_exist (d : Database) (ids : list Z) :
  List.length (found d ids) = List.length ids -> ids <> [] ->
  let ts := map (fun e => Number_of_BigInt (Event.timestamp e)) (found d ids) in
  exists lo hi,
    Math_min ts = Num lo /\ Math_max ts = Num hi
    /\ In lo ts /\ In hi ts
    /\ (forall x, In x ts -> lo <= x) /\ (forall x, In x ts -> x <= hi).
Proof.
  intros Hlen Hne ts.
  assert (Hts : ts <> []).
  { unfold ts. destruct (found d ids); [|discriminate].
    destruct ids; [congruence|discriminate]. }
  destruct (Math_min_spec ts Hts) as (lo & Hlo & Hinlo & Hminlo).
  destruct (Math_max_spec ts Hts) as (hi & Hhi & Hinhi & Hmaxhi).
  exists lo, hi. repeat split; assumption.
Qed.

(** C1: createLabel, given an event_ids list with an id that has no event,
    fails and creates no label: the tables are as before and only the
    lookup of the events was issued.  The error that reaches the caller is
    the generic failure (500, 'Failed to create label'): the not-found
    error (404, 'One or more events not found') is thrown inside the try
    block, and the catch block replaces every error but P2002. *)
Theorem createLabel_missing_event
    (data : CreateLabel.t) (w : World) (ids : list Z) (i : Z) :
  well_formed (db w) = true ->
  map_throwing (parse_event_id BigInt) (CreateLabel.event_ids data) = Return ids ->
  In i ids -> event_exists (db w) i = false ->
  createLabel unique BigInt data w =
  (Throw (AppError "Failed to create label" 500), logged w (db w) [EventFindMany]).
Proof.
  intros Hwf Hparse Hin Hmiss.
  apply well_formed_elim in Hwf as (Hpk & _ & _).
  pose proof (found_length_missing (db w) ids i Hpk Hin Hmiss) as Hlt.
  unfold createLabel, try_catch.
  rewrite (createLabel_try_parsed data w ids Hparse). cbv zeta.
  replace (Nat.eqb (List.length (found (db w) ids)) (List.length ids)) with false
    by (symmetry; apply Nat.eqb_neq; lia).
  reflexivity.
Qed.

(** C10: createLabel with an empty event_ids list fails with the generic
    failure (500): the lookup finds no event for no id, the length check
    passes, Math.min of no argument is Infinity and its conversion to a
    BigInt throws; the tables are as before, so no label without events is
    created. *)
Theorem createLabel_empty_event_ids (data : CreateLabel.t) (w : World) :
  CreateLabel.event_ids data = [] ->
  createLabel unique BigInt data w =
  (Throw (AppError "Failed to create label" 500), logged w (db w) [EventFindMany]).
Proof.
  intros Hnil.
  assert (Hparse : map_throwing (parse_event_id BigInt) (CreateLabel.event_ids data)
                   = Return []) by (rewrite Hnil; reflexivity).
  unfold createLabel, try_catch.
  rewrite (createLabel_try_parsed data w [] Hparse). cbv zeta.
  assert (Hfound : found (db w) [] = []).
  { unfold found. induction (events (db w)) as [|e es IH]; [reflexivity|exact IH]. }
  rewrite Hfound. reflexivity.
Qed.

(** C8: when the insertion of the join rows violates the uniqueness
    constraint of the join table, the client reports P2002 to the try
    block, and createLabel fails with the conflict error (400, 'Label
    already exists for one or more events'), not with the generic failure;
    the tables are as before, and the id the refused label had drawn from
    the sequence is spent. *)
Theorem createLabel_conflict (data : CreateLabel.t) (w : World) (ids : list Z) :
  well_formed (db w) = true ->
  map_throwing (parse_event_id BigInt) (CreateLabel.event_ids data) = Return ids ->
  ids <> [] -> distinct ids = true ->
  forallb (event_exists (db w)) ids = true ->
  unique (label_events (db w) ++ map (LabelEvent.mk (next_label_id (db w))) ids) = false ->
  createLabel_try unique BigInt data w =
  (Throw (PrismaClientKnownRequestError "P2002"),
   logged w (id_drawn (db w)) [EventFindMany; LabelCreate])
  /\ createLabel unique BigInt data w =
     (Throw (AppError "Label already exists for one or more events" 400),
      logged w (id_drawn (db w)) [EventFindMany; LabelCreate]).
Proof.
  intros Hwf Hparse Hne Hids Hall Hconflict.
  pose proof (found_length_eq (db w) ids Hwf Hids Hall) as Hlen.
  destruct (bounds_exist (db w) ids Hlen Hne) as (lo & hi & Hlo & Hhi & _).
  assert (Htry : createLabel_try unique BigInt data w =
                 (Throw (PrismaClientKnownRequestError "P2002"),
                  logged w (id_drawn (db w)) [EventFindMany; LabelCreate])).
  { rewrite (createLabel_try_parsed data w ids Hparse). cbv zeta.
    rewrite Hlen, Nat.eqb_refl, Hlo, Hhi. simpl.
    unfold connect_events. now rewrite Hall, Hconflict. }
  split; [exact Htry|].
  unfold createLabel, try_catch. now rewrite Htry.
Qed.

(** The join rows of a new label are the ones just added. *)
Lemma rows_of_label_created (d : Database) (row : LabelRow.t) (ids : list Z) :
  (forall le, In le (label_events d) -> LabelEvent.label_id le < next_label_id d) ->
  rows_of_label
    (created_db d row (label_events d ++ map (LabelEvent.mk (next_label_id d)) ids))
    (next_label_id d)
  = map (LabelEvent.mk (next_label_id d)) ids.
Proof.
  intros Hfresh. unfold rows_of_label, created_db. simpl.
  rewrite filter_app.
  replace (filter _ (label_events d)) with (@nil LabelEvent.t).
  - simpl. induction ids as [|i ids IH]; simpl; [reflexivity|].
    rewrite Z.eqb_refl. now f_equal.
  - symmetry. induction (label_events d) as [|le rows IH]; simpl; [reflexivity|].
    assert (LabelEvent.label_id le < next_label_id d) as Hlt by (apply Hfresh; now left).
    replace (LabelEvent.label_id le =? next_label_id d) with false
      by (symmetry; apply Z.eqb_neq; lia).
    apply IH. intros le' Hle'. apply Hfresh. now right.
Qed.

(** Join rows whose events exist come back each with its event. *)
Lemma with_event_all (d : Database) (rows : list LabelEvent.t) :
  (forall le, In le rows -> event_exists d (LabelEvent.event_id le) = true) ->
  map fst (flat_map (with_event d) rows) = rows
  /\ Forall (fun p => In (snd p) (events d)
                      /\ Event.id (snd p) = LabelEvent.event_id (fst p))
            (flat_map (with_event d) rows).
Proof.
  induction rows as [|le rows IH]; intros Hall; simpl; [split; [reflexivity|constructor]|].
  destruct IH as [IH1 IH2]; [intros le' Hle'; apply Hall; now right|].
  destruct (event_exists_find d (LabelEvent.event_id le)) as [e He];
    [apply Hall; now left|].
  unfold with_event at 1 3. rewrite He. simpl. split; [now f_equal|].
  constructor; [|assumption]. simpl. now apply find_event_Some.
Qed.

Lemma StronglySorted_map_In {A B} (f : A -> B) (R : A -> A -> Prop)
    (R' : B -> B -> Prop) (l : list A) :
  (forall a b, In a l -> In b l -> R a b -> R' (f a) (f b)) ->
  StronglySorted R l -> StronglySorted R' (map f l).
Proof.
  intros Himpl Hs. induction Hs as [|a l Hs IH Ha]; simpl; constructor.
  - apply IH. intros x y Hx Hy. apply Himpl; now right.
  - rewrite Forall_forall in *. intros y Hy.
    apply in_map_iff in Hy as (x & <- & Hx).
    apply Himpl; [now left|now right|now apply Ha].
Qed.

(** The events of a label, sorted as the service sorts them: a permutation
    of the events of the label, in ascending order of their timestamps. *)
Lemma sorted_events_spec (d : Database) (inc : list (LabelEvent.t * Event.t))
    (ids : list Z) :
  (forall e, In e (events d) -> Z.abs (Event.timestamp e) < two53) ->
  map (fun p => LabelEvent.event_id (fst p)) inc = ids ->
  Forall (fun p => In (snd p) (events d)
                   /\ Event.id (snd p) = LabelEvent.event_id (fst p)) inc ->
  let sorted := sort by_event_timestamp inc in
  map (fun p => LabelEvent.event_id (fst p)) sorted = map Event.id (map snd sorted)
  /\ Permutation (map Event.id (map snd sorted)) ids
  /\ Forall (fun e => In e (events d)) (map snd sorted)
  /\ ascending (map snd sorted).
Proof.
  intros Hsafe Hids Hinc sorted.
  pose (key := fun p : LabelEvent.t * Event.t => Number_of_BigInt (Event.timestamp (snd p))).
  assert (Hperm : Permutation sorted inc) by apply sort_perm.
  assert (Hall : Forall (fun p => In (snd p) (events d)
                                  /\ Event.id (snd p) = LabelEvent.event_id (fst p)) sorted)
    by (eapply Permutation_Forall; [symmetry; exact Hperm|exact Hinc]).
  assert (Heq : map (fun p => LabelEvent.event_id (fst p)) sorted
                = map Event.id (map snd sorted)).
  { rewrite map_map. apply map_ext_in. intros p Hp.
    rewrite Forall_forall in Hall. symmetry. now apply Hall. }
  split; [exact Heq|]. split; [|split].
  - rewrite <- Heq, <- Hids. now apply Permutation_map.
  - rewrite Forall_forall in *. intros e He.
    apply in_map_iff in He as (p & <- & Hp). now apply Hall.
  - unfold ascending.
    apply StronglySorted_map_In with (R := fun a b => key a <= key b);
      [|apply (sort_sorted key)].
    intros a b Ha Hb. unfold key.
    rewrite Forall_forall in Hall.
    rewrite !Number_of_BigInt_safe; [trivial| |]; apply Hsafe; now apply Hall.
Qed.

(** The bounds createLabel computes from the events found: the minimum and
    the maximum of their timestamps, when these are in the exact range. *)
Lemma bounds_are_min_max (d : Database) (ids : list Z) (lo hi : Z) :
  (forall e, In e (events d) -> Z.abs (Event.timestamp e) < two53) ->
  let ts := map (fun e => Number_of_BigInt (Event.timestamp e)) (found d ids) in
  Math_min ts = Num lo -> Math_max ts = Num hi ->
  min_timestamp d ids lo /\ max_timestamp d ids hi /\ lo <= hi.
Proof.
  intros Hsafe ts Hlo Hhi.
  assert (Hts : ts <> []) by (intros E; rewrite E in Hlo; discriminate).
  destruct (Math_min_spec ts Hts) as (lo' & Hlo' & Hinlo & Hmin).
  destruct (Math_max_spec ts Hts) as (hi' & Hhi' & Hinhi & Hmax).
  assert (lo' = lo) by congruence. assert (hi' = hi) by congruence. subst lo' hi'.
  assert (Hexact : forall e, In e (found d ids) ->
                             Number_of_BigInt (Event.timestamp e) = Event.timestamp e).
  { intros e He. apply Number_of_BigInt_safe, Hsafe. now apply found_refers_to in He as [He _]. }
  split; [|split].
  - split.
    + apply in_map_iff in Hinlo as (e & E & He). exists e.
      split; [now apply found_refers_to|]. now rewrite <- (Hexact e He).
    + intros e He. apply found_refers_to in He. rewrite <- (Hexact e He).
      apply Hmin, in_map_iff. now exists e.
  - split.
    + apply in_map_iff in Hinhi as (e & E & He). exists e.
      split; [now apply found_refers_to|]. now rewrite <- (Hexact e He).
    + intros e He. apply found_refers_to in He. rewrite <- (Hexact e He).
      apply Hmax, in_map_iff. now exists e.
  - specialize (Hmin lo Hinlo). specialize (Hmax lo Hinlo). lia.
Qed.

(** What a createLabel call that returns has done: the events were all
    found, the bounds were computed from them, the label and its join rows
    were inserted. *)
Lemma createLabel_returned (data : CreateLabel.t) (w w' : World) (ids : list Z)
    (r : Label.t) :
  map_throwing (parse_event_id BigInt) (CreateLabel.event_ids data) = Return ids ->
  createLabel unique BigInt data w = (Return r, w') ->
  let d := db w in
  let ts := map (fun e => Number_of_BigInt (Event.timestamp e)) (found d ids) in
  let rows' := (label_events d ++ map (LabelEvent.mk (next_label_id d)) ids)%list in
  exists lo hi,
    List.length (found d ids) = List.length ids
    /\ Math_min ts = Num lo /\ Math_max ts = Num hi
    /\ forallb (event_exists d) ids = true
    /\ unique rows' = true
    /\ r = created_label (include_events (created_db d (created_row data d lo hi) rows')
                                         (created_row data d lo hi))
    /\ w' = logged w (created_db d (created_row data d lo hi) rows')
                   [EventFindMany; LabelCreate].
Proof.
  intros Hparse H. apply createLabel_Return in H.
  rewrite (createLabel_try_parsed data w ids Hparse) in H. cbv zeta in H.
  destruct (Nat.eqb (List.length (found (db w) ids)) (List.length ids)) eqn:Hlen;
    simpl in H; [|discriminate].
  apply Nat.eqb_eq in Hlen.
  destruct (Math_min _) as [lo| |] eqn:Hlo; simpl in H; try discriminate.
  destruct (Math_max _) as [hi| |] eqn:Hhi; simpl in H; try discriminate.
  unfold connect_events in H.
  destruct (forallb (event_exists (db w)) ids) eqn:Hall; simpl in H; [|discriminate].
  destruct (unique _) eqn:Hu; [|discriminate].
  injection H as <- <-. exists lo, hi. repeat split; assumption.
Qed.

(** The events the client hands back with a label just created on [ids]. *)
Lemma included_created (d : Database) (row : LabelRow.t) (ids : list Z) :
  well_formed d = true ->
  forallb (event_exists d) ids = true ->
  LabelRow.id row = next_label_id d ->
  let d' := created_db d row
              (label_events d ++ map (LabelEvent.mk (next_label_id d)) ids) in
  let inc := Included.events (include_events d' row) in
  map (fun p => LabelEvent.event_id (fst p)) inc = ids
  /\ Forall (fun p => In (snd p) (events d)
                      /\ Event.id (snd p) = LabelEvent.event_id (fst p)) inc.
Proof.
  intros Hwf Hall Hid d' inc.
  apply well_formed_elim in Hwf as (_ & Hfresh & _).
  unfold inc, include_events. simpl Included.events. rewrite Hid.
  unfold d'. rewrite rows_of_label_created by assumption.
  change (with_event (created_db d row
            (label_events d ++ map (LabelEvent.mk (next_label_id d)) ids)))
    with (with_event d).
  destruct (with_event_all d (map (LabelEvent.mk (next_label_id d)) ids))
    as [Hfst Hinc].
  { intros le Hle. apply in_map_iff in Hle as (i & <- & Hi). simpl.
    rewrite forallb_forall in Hall. now apply Hall. }
  split; [|exact Hinc].
  rewrite <- (map_map fst LabelEvent.event_id), Hfst, map_map. simpl. apply map_id.
Qed.

Lemma associations_created (d : Database) (row : LabelRow.t) (ids : list Z) :
  well_formed d = true ->
  associations
    (created_db d row (label_events d ++ map (LabelEvent.mk (next_label_id d)) ids))
    (next_label_id d) = ids.
Proof.
  intros Hwf. apply well_formed_elim in Hwf as (_ & Hfresh & _).
  unfold associations. rewrite (rows_of_label_created d row ids Hfresh), map_map.
  simpl. apply map_id.
Qed.

Lemma createLabel_returned_spec
    (data : CreateLabel.t) (w w' : World) (ids : list Z) (r : Label.t) :
  well_formed (db w) = true ->
  map_throwing (parse_event_id BigInt) (CreateLabel.event_ids data) = Return ids ->
  createLabel unique BigInt data w = (Return r, w') ->
  created_as_specified (db w) ids r (db w').
Proof.
  intros Hwf Hparse H.
  destruct (createLabel_returned data w w' ids r Hparse H)
    as (lo & hi & Hlen & Hlo & Hhi & Hall & Hu & -> & ->).
  pose proof (well_formed_elim (db w) Hwf) as (_ & _ & Hsafe).
  destruct (bounds_are_min_max (db w) ids lo hi Hsafe Hlo Hhi) as (Hmin & Hmax & _).
  destruct (included_created (db w) (created_row data (db w) lo hi) ids Hwf Hall eq_refl)
    as [Hids Hinc].
  split; [|split].
  - simpl. now rewrite associations_created.
  - exists lo, hi. repeat split; solve [reflexivity | apply Hmin | apply Hmax].
  - destruct (sorted_events_spec (db w) _ ids Hsafe Hids Hinc) as (_ & Hperm & Hin & Hasc).
    eexists. split; [exact Hperm|]. split; [exact Hin|]. split; [exact Hasc|].
    simpl. now rewrite map_map.
Qed.

(** C3, amended: createLabel on a non-empty event_ids list of distinct ids
    that all have their event, when the join table accepts the new rows,
    returns a label that is associated with exactly these ids, whose
    start_time and end_time are the minimum and the maximum of the
    timestamps of these events, and whose image_paths are those of the
    events in ascending order of timestamp. *)
Theorem createLabel_bounds_and_order
    (data : CreateLabel.t) (w : World) (ids : list Z) :
  well_formed (db w) = true ->
  map_throwing (parse_event_id BigInt) (CreateLabel.event_ids data) = Return ids ->
  ids <> [] ->
  distinct ids = true ->
  forallb (event_exists (db w)) ids = true ->
  unique (label_events (db w) ++ map (LabelEvent.mk (next_label_id (db w))) ids) = true ->
  exists r w',
    createLabel unique BigInt data w = (Return r, w')
    /\ created_as_specified (db w) ids r (db w').
Proof.
  intros Hwf Hparse Hne Hids Hall Hu.
  pose proof (found_length_eq (db w) ids Hwf Hids Hall) as Hlen.
  destruct (bounds_exist (db w) ids Hlen Hne) as (lo & hi & Hlo & Hhi & _).
  assert (Hret : exists r w', createLabel unique BigInt data w = (Return r, w')).
  { unfold createLabel, try_catch.
    rewrite (createLabel_try_parsed data w ids Hparse). cbv zeta.
    rewrite Hlen, Nat.eqb_refl, Hlo, Hhi. simpl.
    unfold connect_events. rewrite Hall, Hu. simpl. eexists. eexists. reflexivity. }
  destruct Hret as (r & w' & E). exists r, w'. split; [exact E|].
  exact (createLabel_returned_spec data w w' ids r Hwf Hparse E).
Qed.

(** A label createLabel returns is in the table with the invariant of the
    data model: its bounds are derived from its events. *)
Lemma createLabel_bounds_derived
    (data : CreateLabel.t) (w w' : World) (ids : list Z) (r : Label.t) :
  well_formed (db w) = true ->
  map_throwing (parse_event_id BigInt) (CreateLabel.event_ids data) = Return ids ->
  createLabel unique BigInt data w = (Return r, w') ->
  exists l, In l (labels (db w'))
            /\ LabelRow.id l = Label.id r
            /\ bounds_derived (db w') l.
Proof.
  intros Hwf Hparse H.
  destruct (createLabel_returned data w w' ids r Hparse H)
    as (lo & hi & Hlen & Hlo & Hhi & Hall & Hu & -> & ->).
  pose proof (well_formed_elim (db w) Hwf) as (_ & _ & Hsafe).
  destruct (bounds_are_min_max (db w) ids lo hi Hsafe Hlo Hhi) as (Hmin & Hmax & Hle).
  exists (created_row data (db w) lo hi). split; [|split; [reflexivity|]].
  - simpl. apply in_or_app. right. now left.
  - unfold bounds_derived. simpl db. simpl LabelRow.id.
    rewrite associations_created by assumption.
    split; [exact Hmin|]. split; [exact Hmax|exact Hle].
Qed.
End CreateLabelFacts.

(** ** updateLabel *)

Section UpdateLabelFacts.
Variable unique : list LabelEvent.t -> bool.
Variable BigInt : string -> option Z.

(** The [try] block of updateLabel, replacing the events by ids that
    parse. *)
Lemma updateLabel_try_replacing
    (id : Z) (data : UpdateLabel.t) (w : World) (strs : list string) (ids : list Z) :
  UpdateLabel.event_ids data = Some strs ->
  map_throwing (parse_event_id BigInt) strs = Return ids ->
  updateLabel_try unique BigInt id data w =
  let d := db w in
  if negb (Nat.eqb (List.length (found d ids)) (List.length ids))
  then (Throw (AppError "One or more events not found" 404), logged w d [EventFindMany])
  else
    match find_label d id with
    | None => (Throw (PrismaClientKnownRequestError "P2025"),
               logged w d [EventFindMany; LabelUpdate])
    | Some r =>
        match connect_events unique d (rows_of_others d id) id ids with
        | Throw e => (Throw e, logged w d [EventFindMany; LabelUpdate])
        | Return rows' =>
            let u := replacing data ids in
            let d' := updated_db d id u rows' in
            let label := include_events d' (update_row u r) in
            (Return (to_Label label (Included.events label)
                       (map Event.image_path (sort by_timestamp (found d ids)))),
             logged w d' [EventFindMany; LabelUpdate])
        end
    end.
Proof.
  intros Hids Hparse.
  unfold updateLabel_try, updateLabel_events, bind, lift, event_findMany_in, prisma.
  rewrite Hids, Hparse. cbv zeta. fold (found (db w) ids).
  destruct (negb (Nat.eqb (List.length (found (db w) ids)) (List.length ids)));
    [reflexivity|].
  unfold ret, label_update, prisma, logged. simpl.
  destruct (find_label (db w) id) as [r|]; simpl; [|now rewrite <- app_assoc].
  fold (rows_of_others (db w) id).
  destruct (connect_events unique (db w) (rows_of_others (db w) id) id ids)
    as [rows'|e]; simpl; rewrite <- app_assoc; reflexivity.
Qed.

(** The [catch] block of updateLabel and deleteLabel always rethrows, and
    leaves the world as it is. *)
Lemma not_found_or_throws {A} (generic : string) (e : Exn) (w : World) :
  exists e', @not_found_or A generic e w = (Throw e', w).
Proof.
  destruct e as [m c|code| | |]; try (eexists; reflexivity).
  unfold not_found_or. destruct (String.eqb code "P2025"); eexists; reflexivity.
Qed.

Lemma updateLabel_Return (id : Z) (data : UpdateLabel.t) (w w' : World) (r : Label.t) :
  updateLabel unique BigInt id data w = (Return r, w') ->
  updateLabel_try unique BigInt id data w = (Return r, w').
Proof.
  unfold updateLabel, try_catch.
  destruct (updateLabel_try unique BigInt id data w) as [[a|e] w1]; [trivial|].
  destruct (@not_found_or_throws Label.t "Failed to update label" e w1) as [e' ->].
  discriminate.
Qed.

(** After the replacement the join rows of the label are the new ones. *)
Lemma rows_of_label_replaced (d : Database) (id : Z) (u : LabelUpdateInput.t)
    (ids : list Z) :
  rows_of_label (updated_db d id u (rows_of_others d id ++ map (LabelEvent.mk id) ids)) id
  = map (LabelEvent.mk id) ids.
Proof.
  unfold rows_of_label, updated_db, rows_of_others. simpl. rewrite filter_app.
  replace (filter _ (filter _ (label_events d))) with (@nil LabelEvent.t).
  - simpl. induction ids as [|i ids IH]; simpl; [reflexivity|].
    rewrite Z.eqb_refl. now f_equal.
  - symmetry. induction (label_events d) as [|le rows IH]; simpl; [reflexivity|].
    destruct (LabelEvent.label_id le =? id) eqn:E; simpl; [exact IH|].
    now rewrite E.
Qed.

Lemma find_label_id (d : Database) (id : Z) (l : LabelRow.t) :
  find_label d id = Some l -> LabelRow.id l = id.
Proof.
  unfold find_label. intros H. apply find_some in H as [_ E]. now apply Z.eqb_eq.
Qed.

Lemma updateLabel_returned_spec
    (id : Z) (data : UpdateLabel.t) (w w' : World) (l : LabelRow.t)
    (strs : list string) (ids : list Z) (r : Label.t) :
  find_label (db w) id = Some l ->
  UpdateLabel.event_ids data = Some strs ->
  map_throwing (parse_event_id BigInt) strs = Return ids ->
  updateLabel unique BigInt id data w = (Return r, w') ->
  replaced_as_specified (db w) id ids r (db w').
Proof.
  intros Hl Hids Hparse H. apply updateLabel_Return in H.
  rewrite (updateLabel_try_replacing id data w strs ids Hids Hparse) in H.
  cbv zeta in H.
  destruct (negb (Nat.eqb (List.length (found (db w) ids)) (List.length ids)));
    [discriminate|].
  rewrite Hl in H. unfold connect_events in H.
  destruct (forallb (event_exists (db w)) ids) eqn:Hall; simpl in H; [|discriminate].
  destruct (unique _) eqn:Hu; [|discriminate].
  injection H as <- <-.
  assert (Hrows : rows_of_label
                    (updated_db (db w) id (replacing data ids)
                       (rows_of_others (db w) id ++ map (LabelEvent.mk id) ids)) id
                  = map (LabelEvent.mk id) ids) by apply rows_of_label_replaced.
  split; [|split].
  - unfold associations. simpl db. rewrite Hrows, map_map. simpl.
    now rewrite map_id.
  - intros le Hle Hid Hnot Hin. simpl in Hin.
    apply in_app_or in Hin as [Hin|Hin].
    + apply filter_In in Hin as [_ Hin]. apply negb_true_iff, Z.eqb_neq in Hin.
      contradiction.
    + apply in_map_iff in Hin as (i & <- & Hi). simpl in Hnot. contradiction.
  - unfold to_Label, include_events. simpl Label.event_ids.
    rewrite (find_label_id (db w) id l Hl), Hrows.
    change (with_event (updated_db (db w) id (replacing data ids)
              (rows_of_others (db w) id ++ map (LabelEvent.mk id) ids)))
      with (with_event (db w)).
    destruct (with_event_all (db w) (map (LabelEvent.mk id) ids)) as [Hfst _].
    { intros le Hle. apply in_map_iff in Hle as (i & <- & Hi). simpl.
      rewrite forallb_forall in Hall. now apply Hall. }
    rewrite <- (map_map fst (fun le => BigInt_toString (LabelEvent.event_id le))).
    now rewrite Hfst, map_map.
Qed.

(** C4, amended: updateLabel on an existing label, with event_ids that are
    distinct and all have their event, when the join table accepts the new
    rows, returns and leaves the label associated with exactly the ids
    given: every former association with an event not among them is gone,
    and the event_ids of the returned object are the ids given. *)
Theorem updateLabel_replaces_events
    (id : Z) (data : UpdateLabel.t) (w : World) (l : LabelRow.t)
    (strs : list string) (ids : list Z) :
  well_formed (db w) = true ->
  find_label (db w) id = Some l ->
  UpdateLabel.event_ids data = Some strs ->
  map_throwing (parse_event_id BigInt) strs = Return ids ->
  distinct ids = true ->
  forallb (event_exists (db w)) ids = true ->
  unique (rows_of_others (db w) id ++ map (LabelEvent.mk id) ids) = true ->
  exists r w',
    updateLabel unique BigInt id data w = (Return r, w')
    /\ replaced_as_specified (db w) id ids r (db w').
Proof.
  intros Hwf Hl Hids Hparse Hdist Hall Hu.
  pose proof (found_length_eq (db w) ids Hwf Hdist Hall) as Hlen.
  assert (Hret : exists r w', updateLabel unique BigInt id data w = (Return r, w')).
  { unfold updateLabel, try_catch.
    rewrite (updateLabel_try_replacing id data w strs ids Hids Hparse). cbv zeta.
    rewrite Hlen, Nat.eqb_refl. simpl. rewrite Hl.
    unfold connect_events. rewrite Hall, Hu. simpl. eexists. eexists. reflexivity. }
  destruct Hret as (r & w' & E). exists r, w'. split; [exact E|].
  exact (updateLabel_returned_spec id data w w' l strs ids r Hl Hids Hparse E).
Qed.

Lemma update_upsert_absent (p : Subs.t) : update_upsert None p = None.
Proof. reflexivity. Qed.

(** The upsert is chosen by [label_type]: it is on the sub-record of that
    type, and the payload of that type is present. *)
Lemma update_upsert_matches (t : option LabelType) (p : Subs.t)
    (k : LabelType) (c u : Fields) :
  update_upsert t p = Some (k, (c, u)) ->
  t = Some k /\ truthy (Subs.get k p) = true.
Proof.
  destruct t as [t|]; [|discriminate].
  unfold update_upsert, upsert_same.
  destruct p as [so a e pr mo pm sp].
  destruct t; simpl;
    [destruct so|destruct a|destruct e|destruct pr|destruct mo|destruct pm|destruct sp];
    simpl; intros H; inversion H; subst; split; reflexivity.
Qed.

Lemma updateLabel_events_db (o : option (list string)) (w : World) :
  db (snd (updateLabel_events BigInt o w)) = db w.
Proof.
  destruct o as [strs|]; [|reflexivity].
  unfold updateLabel_events, bind, lift, event_findMany_in, prisma.
  destruct (map_throwing (parse_event_id BigInt) strs) as [ids|e]; [|reflexivity].
  cbv zeta. destruct (negb _); reflexivity.
Qed.

(** An update without upsert leaves the sub-records of every label. *)
Lemma label_update_subs (id : Z) (u : LabelUpdateInput.t) (w : World) :
  LabelUpdateInput.upsert u = None ->
  map LabelRow.subs (labels (db (snd (label_update unique id u w))))
  = map LabelRow.subs (labels (db w)).
Proof.
  intros Hu. unfold label_update, prisma.
  destruct (find_label (db w) id) as [r|]; [|reflexivity].
  destruct (match LabelUpdateInput.events_replace u with
            | Some ids => _
            | None => _
            end) as [rows'|e]; [|reflexivity].
  simpl. rewrite map_map. apply map_ext. intros l'.
  destruct (LabelRow.id l' =? id); [|reflexivity].
  unfold update_row. simpl. now rewrite Hu.
Qed.

(** C9: an updateLabel call whose payload has no label_type leaves the
    sub-records of every label as they are, whatever sub-record the payload
    carries: no upsert is asked for.  An upsert is asked for only on the
    sub-record of the label_type of the payload, and only when the payload
    carries the sub-record of that type. *)
Theorem updateLabel_without_label_type
    (id : Z) (data : UpdateLabel.t) (w : World) :
  UpdateLabel.label_type data = None ->
  update_upsert (UpdateLabel.label_type data) (UpdateLabel.subs data) = None
  /\ map LabelRow.subs (labels (db (snd (updateLabel unique BigInt id data w))))
     = map LabelRow.subs (labels (db w))
  /\ (forall (data' : UpdateLabel.t) (k : LabelType) (c u : Fields),
        update_upsert (UpdateLabel.label_type data') (UpdateLabel.subs data')
        = Some (k, (c, u)) ->
        UpdateLabel.label_type data' = Some k
        /\ truthy (Subs.get k (UpdateLabel.subs data')) = true).
Proof.
  intros Ht. rewrite Ht. split; [reflexivity|]. split.
  - unfold updateLabel, try_catch, updateLabel_try, bind.
    pose proof (updateLabel_events_db (UpdateLabel.event_ids data) w) as Hdb.
    destruct (updateLabel_events BigInt (UpdateLabel.event_ids data) w)
      as [[[paths repl]|e] w1]; simpl in Hdb.
    + rewrite Ht.
      pose proof (label_update_subs id
                    (LabelUpdateInput.mk None (UpdateLabel.notes data) repl
                       (update_upsert None (UpdateLabel.subs data))) w1 eq_refl) as Hsub.
      destruct (label_update unique id _ w1) as [[label|e] w2]; simpl in Hsub.
      * rewrite <- Hdb, <- Hsub. now destruct (UpdateLabel.event_ids data).
      * destruct (@not_found_or_throws Label.t "Failed to update label" e w2) as [e' ->].
        simpl. now rewrite <- Hdb, <- Hsub.
    + destruct (@not_found_or_throws Label.t "Failed to update label" e w1) as [e' ->].
      simpl. now rewrite Hdb.
  - intros data' k c u. apply update_upsert_matches.
Qed.
End UpdateLabelFacts.

(** ** Listings *)

Lemma event_matches_selected (d : Database) (o : GetUnlabeledEventsOptions.t)
    (e : Event.t) :
  event_matches d (getUnlabeledEvents_where o) e = unlabeled_selected d o e.
Proof.
  unfold event_matches, unlabeled_selected, getUnlabeledEvents_where. simpl.
  assert (Hnone : negb (existsb (fun le => LabelEvent.event_id le =? Event.id e)
                                (label_events d))
                  = forallb (fun le => negb (LabelEvent.event_id le =? Event.id e))
                            (label_events d)).
  { induction (label_events d) as [|le rows IH]; simpl; [reflexivity|].
    rewrite negb_orb. now f_equal. }
  assert (Hdev : holds (if_truthy_string (GetUnlabeledEventsOptions.deviceId o))
                       (String.eqb (Event.device_id e))
                 = match GetUnlabeledEventsOptions.deviceId o with
                   | Some dev => String.eqb dev "" || String.eqb dev (Event.device_id e)
                   | None => true
                   end).
  { destruct (GetUnlabeledEventsOptions.deviceId o) as [dev|]; simpl; [|reflexivity].
    unfold truthy_string.
    destruct (String.eqb dev ""); simpl; [reflexivity|apply String.eqb_sym]. }
  rewrite Hnone, Hdev.
  destruct (GetUnlabeledEventsOptions.startDate o),
    (GetUnlabeledEventsOptions.endDate o),
    (GetUnlabeledEventsOptions.types o) as [[|t ts]|]; reflexivity.
Qed.

Lemma has_event_on_rows (d : Database) (dev : string) (lid : Z)
    (rows : list LabelEvent.t) :
  existsb (fun p => String.eqb (Event.device_id (snd p)) dev)
          (flat_map (with_event d)
                    (filter (fun le => LabelEvent.label_id le =? lid) rows))
  = existsb (fun le =>
               (LabelEvent.label_id le =? lid)
               && match find_event d (LabelEvent.event_id le) with
                  | Some e => String.eqb (Event.device_id e) dev
                  | None => false
                  end) rows.
Proof.
  induction rows as [|le rows IH]; simpl; [reflexivity|].
  destruct (LabelEvent.label_id le =? lid); simpl; [|exact IH].
  rewrite existsb_app, IH. f_equal.
  unfold with_event. destruct (find_event d (LabelEvent.event_id le)); simpl;
    [apply orb_false_r|reflexivity].
Qed.

Lemma has_event_on_device (d : Database) (dev : string) (l : LabelRow.t) :
  has_event_on d dev l = on_device d dev l.
Proof. apply has_event_on_rows. Qed.

Lemma label_matches_selected (d : Database) (o : GetLabelsOptions.t)
    (l : LabelRow.t) :
  label_matches d (getLabels_where o) l = label_selected d o l.
Proof.
  unfold label_matches, label_selected, getLabels_where. simpl.
  rewrite andb_true_r.
  assert (Hby : holds (if_truthy_string (GetLabelsOptions.createdBy o))
                      (String.eqb (LabelRow.created_by l))
                = match GetLabelsOptions.createdBy o with
                  | Some u => String.eqb u "" || String.eqb u (LabelRow.created_by l)
                  | None => true
                  end).
  { destruct (GetLabelsOptions.createdBy o) as [u|]; simpl; [|reflexivity].
    unfold truthy_string.
    destruct (String.eqb u ""); simpl; [reflexivity|apply String.eqb_sym]. }
  assert (Hty : holds (GetLabelsOptions.labelType o)
                      (LabelType_eqb (LabelRow.label_type l))
                = match GetLabelsOptions.labelType o with
                  | Some t => LabelType_eqb t (LabelRow.label_type l)
                  | None => true
                  end).
  { destruct (GetLabelsOptions.labelType o) as [t|]; simpl; [|reflexivity].
    now destruct t, (LabelRow.label_type l). }
  assert (Hdev : holds (if_truthy_string (GetLabelsOptions.deviceId o))
                       (fun dev => has_event_on d dev l)
                 = match GetLabelsOptions.deviceId o with
                   | Some dev => String.eqb dev "" || on_device d dev l
                   | None => true
                   end).
  { destruct (GetLabelsOptions.deviceId o) as [dev|]; simpl; [|reflexivity].
    unfold truthy_string.
    destruct (String.eqb dev ""); simpl; [reflexivity|apply has_event_on_device]. }
  rewrite Hby, Hty, Hdev. reflexivity.
Qed.

Lemma page_of_returns {A} (page limit : Z) (l : list A) :
  1 <= page -> 1 <= limit ->
  exists l', page_of ((page - 1) * limit) limit l = Return l'.
Proof.
  intros Hp Hl. unfold page_of.
  replace ((page - 1) * limit <? 0) with false by (symmetry; apply Z.ltb_ge; nia).
  eexists. reflexivity.
Qed.

Lemma incl_firstn_skipn {A} (n m : nat) (l : list A) :
  incl (firstn n (skipn m l)) l.
Proof.
  intros x Hx.
  rewrite <- (firstn_skipn m l). apply in_or_app. right.
  rewrite <- (firstn_skipn n (skipn m l)). apply in_or_app. now left.
Qed.

(** Whatever [skip] and [take] are, a page holds rows of the list. *)
Lemma page_of_incl {A} (skip take : Z) (l l' : list A) :
  page_of skip take l = Return l' -> incl l' l.
Proof.
  unfold page_of. destruct (skip <? 0); [discriminate|].
  intros [= <-]. destruct (take <? 0).
  - intros x Hx. apply in_rev in Hx.
    assert (In x (rev (skipn (Z.to_nat skip) l))) as Hx'.
    { rewrite <- (firstn_skipn (Z.to_nat (- take)) (rev _)).
      apply in_or_app. now left. }
    apply in_rev in Hx'.
    rewrite <- (firstn_skipn (Z.to_nat skip) l). apply in_or_app. now right.
  - apply incl_firstn_skipn.
Qed.

(** The page [page] of [limit] rows, for [page] and [limit] from 1 on. *)
Lemma page_of_slice {A} (page limit : Z) (l : list A) :
  1 <= page -> 1 <= limit ->
  page_of ((page - 1) * limit) limit l
  = Return (firstn (Z.to_nat limit) (skipn (Z.to_nat ((page - 1) * limit)) l)).
Proof.
  intros Hp Hl. unfold page_of.
  replace ((page - 1) * limit <? 0) with false by (symmetry; apply Z.ltb_ge; nia).
  replace (limit <? 0) with false by (symmetry; apply Z.ltb_ge; lia).
  reflexivity.
Qed.


(** The sample of timestamps that getUnlabeledEvents logs is made
    without an exception when the timestamps of the table are dates. *)
Lemma toISOString_of_date (ts : Z) :
  Z.abs ts * 1000 <= max_time_value ->
  toISOString_of_seconds (Number_of_BigInt ts) = Return tt.
Proof.
  intros H. unfold max_time_value in H.
  assert (H53 : two53 = 9007199254740992) by reflexivity.
  rewrite (Number_of_BigInt_safe ts) by (unfold safe_integer; lia).
  unfold toISOString_of_seconds.
  rewrite (Number_of_BigInt_safe (ts * 1000)) by (unfold safe_integer; lia).
  unfold TimeClip.
  replace (Z.abs (ts * 1000) <=? max_time_value) with true; [reflexivity|].
  symmetry. apply Z.leb_le. unfold max_time_value. lia.
Qed.

Lemma map_throwing_returns {A} (f : A -> Outcome unit) (xs : list A) :
  (forall x, In x xs -> f x = Return tt) ->
  exists us, map_throwing f xs = Return us.
Proof.
  induction xs as [|x xs IH]; intros H; simpl; [now eexists|].
  rewrite (H x) by now left.
  destruct IH as [us ->]; [intros y Hy; apply H; now right|]. now eexists.
Qed.

Lemma sample_event_timestamps_returns (d : Database) (es : list Event.t) :
  timestamps_are_dates d = true -> incl es (events d) ->
  exists us, sample_event_timestamps es = Return us.
Proof.
  intros Hd Hes. unfold timestamps_are_dates in Hd. rewrite forallb_forall in Hd.
  apply map_throwing_returns. intros e He.
  apply toISOString_of_date, Z.leb_le, Hd, Hes.
  rewrite <- (firstn_skipn 3 es). apply in_or_app. now left.
Qed.

(** What a call of getUnlabeledEvents that returns has done: two reads,
    and a page cut from the selection, sorted. *)
Lemma getUnlabeledEvents_returned (o : GetUnlabeledEventsOptions.t) (w w' : World)
    (p : Page.t EventOut.t) :
  getUnlabeledEvents o w = (Return p, w') ->
  let page := GetUnlabeledEventsOptions.page o in
  let limit := GetUnlabeledEventsOptions.limit o in
  let selected := filter (unlabeled_selected (db w) o) (events (db w)) in
  exists es,
    page_of ((page - 1) * limit) limit
      (sort (fun a b => order_cmp (sort_or_desc (GetUnlabeledEventsOptions.sort o))
                          (Event.timestamp a) (Event.timestamp b)) selected)
    = Return es
    /\ p = Page.mk (map to_EventOut es) (Z.of_nat (List.length selected))
                   (Math_ceil_div (Z.of_nat (List.length selected)) limit) page
    /\ w' = logged w (db w) [EventFindMany; EventCount].
Proof.
  cbv zeta.
  unfold getUnlabeledEvents, try_catch, bind, Promise_all2, event_findMany,
    event_count, prisma, ret, lift, logged.
  cbn [db queries].
  rewrite !(filter_ext _ _ (event_matches_selected (db w) o)).
  destruct (page_of _ _ _) as [es|e]; cbn [db queries]; [|discriminate].
  destruct (if 0 <? Z.of_nat (List.length es)
            then sample_event_timestamps es else Return []); [|discriminate].
  intros [= <- <-]. exists es. rewrite <- app_assoc. repeat split.
Qed.

(** getUnlabeledEvents, run on a table whose timestamps are dates: the
    selection, sorted, cut to the page. *)
Lemma getUnlabeledEvents_run (o : GetUnlabeledEventsOptions.t) (w : World) :
  1 <= GetUnlabeledEventsOptions.page o ->
  1 <= GetUnlabeledEventsOptions.limit o ->
  timestamps_are_dates (db w) = true ->
  let page := GetUnlabeledEventsOptions.page o in
  let limit := GetUnlabeledEventsOptions.limit o in
  let selected := filter (unlabeled_selected (db w) o) (events (db w)) in
  let sorted :=
    sort (fun a b => order_cmp (sort_or_desc (GetUnlabeledEventsOptions.sort o))
                       (Event.timestamp a) (Event.timestamp b)) selected in
  getUnlabeledEvents o w
  = (Return (Page.mk
               (map to_EventOut
                    (firstn (Z.to_nat limit) (skipn (Z.to_nat ((page - 1) * limit)) sorted)))
               (Z.of_nat (List.length selected))
               (Math_ceil_div (Z.of_nat (List.length selected)) limit)
               page),
     logged w (db w) [EventFindMany; EventCount]).
Proof.
  intros Hp Hl Hd. cbv zeta.
  unfold getUnlabeledEvents, try_catch, bind, Promise_all2, event_findMany,
    event_count, prisma, ret, lift, logged.
  cbn [db queries].
  rewrite !(filter_ext _ _ (event_matches_selected (db w) o)).
  rewrite (page_of_slice _ _ _ Hp Hl). cbn [db queries].
  set (es := firstn _ (skipn _ _)).
  destruct (sample_event_timestamps_returns (db w) es Hd) as [us Hus].
  { intros e He. apply incl_firstn_skipn in He.
    eapply Permutation_in in He; [|apply sort_perm]. now apply filter_In in He. }
  rewrite Hus. destruct (0 <? Z.of_nat (List.length es)); now rewrite <- app_assoc.
Qed.

(** What getUnlabeledEvents returns are unlabeled events that pass the
    filters, whatever the page asked for. *)
Lemma getUnlabeledEvents_items (o : GetUnlabeledEventsOptions.t) (w w' : World)
    (p : Page.t EventOut.t) (item : EventOut.t) :
  getUnlabeledEvents o w = (Return p, w') -> In item (Page.items p) ->
  exists e, In e (events (db w))
            /\ unlabeled_selected (db w) o e = true
            /\ item = to_EventOut e.
Proof.
  intros Hget Hin.
  destruct (getUnlabeledEvents_returned o w w' p Hget) as (es & Hpage & -> & _).
  simpl in Hin. apply in_map_iff in Hin as (e & <- & He).
  apply (page_of_incl _ _ _ _ Hpage) in He.
  eapply Permutation_in in He; [|apply sort_perm].
  apply filter_In in He as [He Hsel].
  exists e. now repeat split.
Qed.

(** C5: the page getUnlabeledEvents and getLabels return when called with
    page >= 1 and limit >= 1 has as total the number of records that pass
    the active filters, as totalPages the ceiling of total / limit, that
    is the integer with
    (totalPages - 1) * limit < total <= totalPages * limit, and as
    currentPage the page asked for; whatever the filters are.  getLabels
    returns such a page on every call; getUnlabeledEvents, which logs the
    dates of up to three events of the page, on every call to tables
    whose event timestamps are dates, and whenever it returns the page is
    such a page. *)
Theorem pagination_metadata
    (w : World) (o : GetUnlabeledEventsOptions.t) (o' : GetLabelsOptions.t) :
  1 <= GetUnlabeledEventsOptions.page o ->
  1 <= GetUnlabeledEventsOptions.limit o ->
  1 <= GetLabelsOptions.page o' ->
  1 <= GetLabelsOptions.limit o' ->
  (timestamps_are_dates (db w) = true ->
   exists p w', getUnlabeledEvents o w = (Return p, w'))
  /\ (forall p w',
        getUnlabeledEvents o w = (Return p, w') ->
        Page.total p
        = Z.of_nat (List.length (filter (unlabeled_selected (db w) o) (events (db w))))
        /\ (Page.totalPages p - 1) * GetUnlabeledEventsOptions.limit o < Page.total p
           <= Page.totalPages p * GetUnlabeledEventsOptions.limit o
        /\ Page.currentPage p = GetUnlabeledEventsOptions.page o)
  /\ (exists p w',
      getLabels o' w = (Return p, w')
      /\ Page.total p
         = Z.of_nat (List.length (filter (label_selected (db w) o') (labels (db w))))
      /\ (Page.totalPages p - 1) * GetLabelsOptions.limit o' < Page.total p
         <= Page.totalPages p * GetLabelsOptions.limit o'
      /\ Page.currentPage p = GetLabelsOptions.page o').
Proof.
  intros Hp Hl Hp' Hl'. split; [|split].
  - intros Hd. eexists. eexists. exact (getUnlabeledEvents_run o w Hp Hl Hd).
  - intros p w' Hget.
    destruct (getUnlabeledEvents_returned o w w' p Hget) as (es & _ & -> & _).
    cbn [Page.total Page.totalPages Page.currentPage].
    split; [reflexivity|]. split; [|reflexivity].
    apply Math_ceil_div_spec. lia.
  - unfold getLabels, try_catch, bind, Promise_all2, label_findMany,
      label_count, prisma, ret.
    destruct (page_of_returns (GetLabelsOptions.page o') (GetLabelsOptions.limit o')
                (sort (fun a b => order_cmp (sort_or_desc (GetLabelsOptions.sort o'))
                                    (LabelRow.created_at a) (LabelRow.created_at b))
                      (filter (label_matches (db w) (getLabels_where o'))
                              (labels (db w)))) Hp' Hl') as [ls ->].
    simpl. eexists. eexists. split; [reflexivity|]. simpl. split; [|split].
    + f_equal. f_equal. apply filter_ext. intros l. apply label_matches_selected.
    + apply Math_ceil_div_spec. lia.
    + reflexivity.
Qed.

(** ** The program guide *)

Lemma start_of_day (date : Date) :
  date - date mod 86400000 = 86400000 * (date / 86400000).
Proof. pose proof (Z.div_mod date 86400000 ltac:(lia)). lia. Qed.

Lemma day_in_range_bounds (date : Date) :
  day_in_range date -> - 100000000 <= date / 86400000 < 100000000.
Proof.
  unfold day_in_range, max_time_value. intros [Hlo Hhi]. split.
  - apply Z.div_le_lower_bound; lia.
  - apply Z.div_lt_upper_bound; lia.
Qed.

Lemma start_of_day_seconds (date : Date) :
  day_in_range date ->
  BigInt_floor_seconds (setUTCHours_0_0_0_0 date) = Return (86400 * (date / 86400000)).
Proof.
  intros Hr. apply day_in_range_bounds in Hr.
  unfold setUTCHours_0_0_0_0, TimeClip. rewrite start_of_day.
  destruct (Z.abs (86400000 * (date / 86400000)) <=? max_time_value) eqn:E.
  - cbn [BigInt_floor_seconds]. f_equal.
    replace (86400000 * (date / 86400000)) with (86400 * (date / 86400000) * 1000) by lia.
    apply Z.div_mul. lia.
  - apply Z.leb_gt in E. unfold max_time_value in E. lia.
Qed.

Lemma end_of_day_seconds (date : Date) :
  day_in_range date ->
  BigInt_floor_seconds (setUTCHours_23_59_59_999 date)
  = Return (86400 * (date / 86400000) + 86399).
Proof.
  intros Hr. apply day_in_range_bounds in Hr.
  unfold setUTCHours_23_59_59_999, TimeClip. rewrite start_of_day.
  destruct (Z.abs (86400000 * (date / 86400000) + 86399999) <=? max_time_value) eqn:E.
  - cbn [BigInt_floor_seconds]. f_equal.
    replace (86400000 * (date / 86400000) + 86399999)
      with ((86400 * (date / 86400000) + 86399) * 1000 + 999) by lia.
    rewrite Z.div_add_l by lia. change (999 / 1000) with 0. lia.
  - apply Z.leb_gt in E. unfold max_time_value in E. lia.
Qed.

(** On a label whose interval is ordered, the three alternatives of the
    [where] object say that the interval meets the day. *)
Lemma programGuide_where_overlaps (d : Database) (date : Date) (deviceId : string)
    (l : LabelRow.t) :
  LabelRow.start_time l <= LabelRow.end_time l ->
  label_matches d (programGuide_where (86400 * (date / 86400000))
                     (86400 * (date / 86400000) + 86399) deviceId) l
  = on_device d deviceId l && overlaps_UTC_day date l.
Proof.
  intros Hord.
  remember (86400 * (date / 86400000)) as lo eqn:Elo.
  remember (lo + 86399) as hi eqn:Ehi.
  unfold label_matches, programGuide_where. simpl.
  rewrite has_event_on_device.
  f_equal. unfold overlaps_UTC_day. cbv zeta. subst hi lo.
  set (day := date / 86400000).
  set (s := LabelRow.start_time l) in *. set (e := LabelRow.end_time l) in *.
  rewrite !andb_true_r, orb_false_r.
  destruct (86400 * day <=? s) eqn:E1, (s <=? 86400 * day + 86399) eqn:E2,
    (86400 * day <=? e) eqn:E3, (e <=? 86400 * day + 86399) eqn:E4,
    (s <=? 86400 * day) eqn:E5, (86400 * day + 86399 <=? e) eqn:E6,
    (s * 1000 <=? day * 86400000 + 86399999) eqn:E7,
    (day * 86400000 <=? e * 1000) eqn:E8; simpl; try reflexivity; exfalso;
    repeat match goal with
           | H : (_ <=? _) = true |- _ => apply Z.leb_le in H
           | H : (_ <=? _) = false |- _ => apply Z.leb_gt in H
           end; lia.
Qed.

Lemma included_events_of (d : Database) (l : LabelRow.t) :
  map snd (Included.events (include_events d l)) = events_of d l.
Proof.
  unfold include_events, events_of, associations. simpl.
  induction (rows_of_label d (LabelRow.id l)) as [|le rows IH]; simpl; [reflexivity|].
  rewrite map_app, IH. f_equal.
  unfold with_event. now destruct (find_event d (LabelEvent.event_id le)).
Qed.

(** The entry of the answer made from a label is the guide entry of that
    label. *)
Lemma to_ProgramGuideLabel_entry (d : Database) (l : LabelRow.t) :
  guide_entry d l (to_ProgramGuideLabel (include_events d l)).
Proof.
  unfold guide_entry, to_ProgramGuideLabel.
  cbn [ProgramGuideLabel.id ProgramGuideLabel.label_type ProgramGuideLabel.created_by
       ProgramGuideLabel.created_at ProgramGuideLabel.start_time
       ProgramGuideLabel.end_time ProgramGuideLabel.notes ProgramGuideLabel.subs
       ProgramGuideLabel.device_id ProgramGuideLabel.image_paths].
  change (Included.row (include_events d l)) with l.
  repeat (split; [reflexivity|]).
  rewrite <- (included_events_of d l).
  set (inc := Included.events (include_events d l)).
  split.
  - destruct inc as [|p inc']; simpl; [reflexivity|].
    unfold truthy_string. now destruct (String.eqb (Event.device_id (snd p)) "").
  - exists (map snd (sort by_event_timestamp inc)). split; [|split].
    + apply Permutation_map, sort_perm.
    + unfold ascending_as_numbers.
      apply StronglySorted_map_In
        with (R := fun a b : LabelEvent.t * Event.t =>
                     Number_of_BigInt (Event.timestamp (snd a))
                     <= Number_of_BigInt (Event.timestamp (snd b)));
        [intros a b _ _ H; exact H|].
      exact (sort_sorted (fun p : LabelEvent.t * Event.t =>
                            Number_of_BigInt (Event.timestamp (snd p))) inc).
    + now rewrite map_map.
Qed.

Lemma Forall2_map_r {A B} (R : A -> B -> Prop) (f : A -> B) (l : list A) :
  (forall a, R a (f a)) -> Forall2 R l (map f l).
Proof. intros H. induction l; simpl; constructor; auto. Qed.

(** getProgramGuideByDate on a device that exists, for a date whose day is
    in the range. *)
Lemma getProgramGuideByDate_run
    (date : Date) (deviceId : string) (order : SortOrder) (w : World) :
  In deviceId (devices (db w)) ->
  day_in_range date ->
  getProgramGuideByDate date deviceId order w
  = (Return (map (fun l => to_ProgramGuideLabel (include_events (db w) l))
                 (sort (fun a b => order_cmp order (LabelRow.start_time a)
                                     (LabelRow.start_time b))
                       (filter (label_matches (db w)
                                  (programGuide_where (86400 * (date / 86400000))
                                     (86400 * (date / 86400000) + 86399) deviceId))
                               (labels (db w))))),
     logged w (db w) [DeviceFindUnique; LabelFindMany]).
Proof.
  intros Hin Hr.
  unfold getProgramGuideByDate, try_catch, bind, device_findUnique, prisma.
  destruct (find (String.eqb deviceId) (devices (db w))) as [dev|] eqn:F.
  - cbn [truthy negb]. cbv zeta. unfold lift.
    rewrite (start_of_day_seconds date Hr), (end_of_day_seconds date Hr).
    unfold label_findMany, prisma, ret, logged. simpl.
    rewrite <- app_assoc, map_map. reflexivity.
  - exfalso. apply (find_none _ _ F) in Hin. now rewrite String.eqb_refl in Hin.
Qed.

(** C6: getProgramGuideByDate.  For a device id that does not exist it
    fails with the not-found error (404, 'Invalid device ID') after the
    lookup of the device alone, no label being queried.  For a device that
    exists and a date whose UTC day lies within the range of Date it
    returns, one guide entry each and no other, exactly the labels that
    have an event on the device and whose interval [start_time, end_time]
    meets the UTC day of the date, from 00:00:00 to 23:59:59.999. *)
Theorem getProgramGuideByDate_overlap
    (date : Date) (deviceId : string) (order : SortOrder) (w : World) :
  intervals_ordered (db w) = true ->
  (~ In deviceId (devices (db w)) ->
   getProgramGuideByDate date deviceId order w
   = (Throw (AppError "Invalid device ID" 404), logged w (db w) [DeviceFindUnique]))
  /\ (In deviceId (devices (db w)) ->
      day_in_range date ->
      exists rows out,
        Permutation rows
          (filter (fun l => on_device (db w) deviceId l && overlaps_UTC_day date l)
                  (labels (db w)))
        /\ getProgramGuideByDate date deviceId order w
           = (Return out, logged w (db w) [DeviceFindUnique; LabelFindMany])
        /\ Forall2 (guide_entry (db w)) rows out).
Proof.
  intros Hord. split.
  - intros Hno.
    unfold getProgramGuideByDate, try_catch, bind, device_findUnique, prisma.
    destruct (find (String.eqb deviceId) (devices (db w))) as [dev|] eqn:F.
    + exfalso. apply find_some in F as [Hin E]. apply String.eqb_eq in E. now subst.
    + reflexivity.
  - intros Hin Hr.
    exists (sort (fun a b => order_cmp order (LabelRow.start_time a) (LabelRow.start_time b))
                 (filter (label_matches (db w)
                            (programGuide_where (86400 * (date / 86400000))
                               (86400 * (date / 86400000) + 86399) deviceId))
                         (labels (db w)))).
    eexists.
    split; [|split; [exact (getProgramGuideByDate_run date deviceId order w Hin Hr)|]].
    + rewrite sort_perm. unfold intervals_ordered in Hord.
      rewrite forallb_forall in Hord.
      erewrite filter_ext_in; [reflexivity|].
      intros l Hl. apply programGuide_where_overlaps. now apply Z.leb_le, Hord.
    + apply Forall2_map_r. intros l. apply to_ProgramGuideLabel_entry.
Qed.

(** ** Deletion *)

(** C7: deleteLabel on an id no label has fails with the not-found error
    (404, 'Label not found') and leaves the tables; deleteLabelsBulk on any
    id list, be its ids those of labels or not, does not fail and removes
    exactly the labels whose id is in the list, with their join rows. *)
Theorem delete_missing_and_bulk (id : Z) (labelIds : list Z) (w : World) :
  (forall l, In l (labels (db w)) -> LabelRow.id l <> id) ->
  deleteLabel id w
  = (Throw (AppError "Label not found" 404), logged w (db w) [LabelDelete])
  /\ exists w',
       deleteLabelsBulk labelIds w = (Return tt, w')
       /\ (forall l, In l (labels (db w')) <->
                     In l (labels (db w)) /\ ~ In (LabelRow.id l) labelIds)
       /\ (forall le, In le (label_events (db w')) <->
                      In le (label_events (db w))
                      /\ ~ In (LabelEvent.label_id le) labelIds)
       /\ events (db w') = events (db w).
Proof.
  intros Hno. split.
  - unfold deleteLabel, try_catch, label_delete, prisma.
    destruct (find_label (db w) id) as [l|] eqn:F; [|reflexivity].
    exfalso. unfold find_label in F. apply find_some in F as [Hin E].
    apply Z.eqb_eq in E. now apply (Hno l).
  - unfold deleteLabelsBulk, try_catch, bind, label_deleteMany, prisma, ret. simpl.
    eexists. split; [reflexivity|]. simpl. split; [|split; [|reflexivity]].
    + intros l. rewrite filter_In, negb_true_iff, <- not_true_iff_false, mem_In. tauto.
    + intros le. rewrite filter_In, negb_true_iff, <- not_true_iff_false, mem_In. tauto.
Qed.

(** ** Invariants of the tables

    The hypotheses of the properties above, [well_formed] and
    [intervals_ordered], are kept by every method that writes. *)

Lemma Math_min_le_max (ts : list Z) (lo hi : Z) :
  Math_min ts = Num lo -> Math_max ts = Num hi -> lo <= hi.
Proof.
  intros Hlo Hhi.
  assert (Hts : ts <> []) by (intros E; rewrite E in Hlo; discriminate).
  destruct (Math_min_spec ts Hts) as (lo' & Hlo' & Hin & Hmin).
  destruct (Math_max_spec ts Hts) as (hi' & Hhi' & _ & Hmax).
  assert (lo' = lo) by congruence. assert (hi' = hi) by congruence. subst.
  specialize (Hmax lo Hin). lia.
Qed.

Lemma forallb_lt_weaken {A} (f : A -> Z) (n m : Z) (l : list A) :
  n <= m -> forallb (fun x => f x <? n) l = true -> forallb (fun x => f x <? m) l = true.
Proof.
  intros Hnm H. rewrite forallb_forall in *. intros x Hx.
  specialize (H x Hx). apply Z.ltb_lt in H. apply Z.ltb_lt. lia.
Qed.

Lemma well_formed_created (d : Database) (row : LabelRow.t) (ids : list Z) :
  LabelRow.id row = next_label_id d ->
  well_formed d = true ->
  well_formed (created_db d row
                 (label_events d ++ map (LabelEvent.mk (next_label_id d)) ids)) = true.
Proof.
  unfold well_formed. intros Hid H.
  apply andb_prop in H as [H Hsafe]. apply andb_prop in H as [H Hrows].
  apply andb_prop in H as [Hpk Hlabels].
  assert (Hn : next_label_id d <= next_label_id d + 1) by lia.
  simpl. rewrite Hpk, Hsafe, !forallb_app. simpl. rewrite Hid.
  rewrite (forallb_lt_weaken LabelRow.id _ _ _ Hn Hlabels).
  rewrite (forallb_lt_weaken LabelEvent.label_id _ _ _ Hn Hrows).
  replace (next_label_id d <? next_label_id d + 1) with true
    by (symmetry; apply Z.ltb_lt; lia).
  simpl. rewrite andb_true_r.
  induction ids as [|i ids IH]; simpl; [reflexivity|].
  replace (next_label_id d <? next_label_id d + 1) with true
    by (symmetry; apply Z.ltb_lt; lia).
  exact IH.
Qed.

Lemma well_formed_id_drawn (d : Database) :
  well_formed d = true -> well_formed (id_drawn d) = true.
Proof.
  unfold well_formed. intros H.
  apply andb_prop in H as [H Hsafe]. apply andb_prop in H as [H Hrows].
  apply andb_prop in H as [Hpk Hlabels].
  assert (Hn : next_label_id d <= next_label_id d + 1) by lia.
  cbn [id_drawn events labels label_events next_label_id].
  rewrite Hpk, Hsafe.
  rewrite (forallb_lt_weaken LabelRow.id _ _ _ Hn Hlabels).
  now rewrite (forallb_lt_weaken LabelEvent.label_id _ _ _ Hn Hrows).
Qed.

Lemma intervals_ordered_created (d : Database) (row : LabelRow.t)
    (rows' : list LabelEvent.t) :
  LabelRow.start_time row <= LabelRow.end_time row ->
  intervals_ordered d = true ->
  intervals_ordered (created_db d row rows') = true.
Proof.
  unfold intervals_ordered. intros Hrow H. simpl.
  rewrite forallb_app, H. simpl. rewrite andb_true_r. now apply Z.leb_le.
Qed.

Lemma well_formed_updated (d : Database) (id : Z) (u : LabelUpdateInput.t)
    (l : LabelRow.t) (rows' : list LabelEvent.t) :
  find_label d id = Some l ->
  (rows' = label_events d
   \/ exists ids, rows' = (rows_of_others d id ++ map (LabelEvent.mk id) ids)%list) ->
  well_formed d = true ->
  well_formed (updated_db d id u rows') = true.
Proof.
  unfold well_formed. intros Hl Hrows' H.
  apply andb_prop in H as [H Hsafe]. apply andb_prop in H as [H Hrows].
  apply andb_prop in H as [Hpk Hlabels].
  assert (Hid : (id <? next_label_id d) = true).
  { unfold find_label in Hl. apply find_some in Hl as [Hin E].
    apply Z.eqb_eq in E. rewrite forallb_forall in Hlabels. rewrite <- E.
    now apply Hlabels. }
  simpl. rewrite Hpk, Hsafe. simpl. rewrite andb_true_r.
  apply andb_true_intro. split.
  - rewrite forallb_forall in *. intros x Hx.
    apply in_map_iff in Hx as (y & <- & Hy).
    destruct (LabelRow.id y =? id) eqn:E; [|now apply Hlabels].
    simpl. apply Z.eqb_eq in E. now rewrite E.
  - destruct Hrows' as [->|[ids ->]]; [assumption|].
    rewrite forallb_app. apply andb_true_intro. split.
    + rewrite forallb_forall in *. intros x Hx.
      apply filter_In in Hx as [Hx _]. now apply Hrows.
    + rewrite forallb_forall. intros x Hx.
      apply in_map_iff in Hx as (i & <- & _). exact Hid.
Qed.

Lemma intervals_ordered_updated (d : Database) (id : Z) (u : LabelUpdateInput.t)
    (rows' : list LabelEvent.t) :
  intervals_ordered d = true ->
  intervals_ordered (updated_db d id u rows') = true.
Proof.
  unfold intervals_ordered. intros H. simpl.
  rewrite forallb_forall in *. intros x Hx.
  apply in_map_iff in Hx as (y & <- & Hy).
  destruct (LabelRow.id y =? id); [|now apply H].
  simpl. now apply H.
Qed.

Section Invariants.
Variable unique : list LabelEvent.t -> bool.
Variable BigInt : string -> option Z.

(** createLabel leaves the tables, with or without an id drawn from the
    sequence, or inserts a label with ordered bounds and its join rows. *)
Lemma createLabel_db (data : CreateLabel.t) (w : World) :
  let d := db w in
  let d' := db (snd (createLabel unique BigInt data w)) in
  (d' = d \/ d' = id_drawn d)
  \/ exists ids lo hi,
       lo <= hi
       /\ d' = created_db d (created_row data d lo hi)
                 (label_events d ++ map (LabelEvent.mk (next_label_id d)) ids).
Proof.
  cbv zeta. unfold createLabel, try_catch.
  destruct (map_throwing (parse_event_id BigInt) (CreateLabel.event_ids data))
    as [ids|e] eqn:Hparse.
  - rewrite (createLabel_try_parsed unique BigInt data w ids Hparse). cbv zeta.
    destruct (negb _); [now left; left|].
    destruct (Math_min _) as [lo| |] eqn:Hlo; simpl; try (now left; left).
    destruct (Math_max _) as [hi| |] eqn:Hhi; simpl; try (now left; left).
    unfold connect_events.
    destruct (forallb (event_exists (db w)) ids); simpl; [|now left; right].
    destruct (unique _); simpl; [|now left; right].
    right. exists ids, lo, hi. split; [|reflexivity].
    exact (Math_min_le_max _ lo hi Hlo Hhi).
  - left. left. unfold createLabel_try, bind, lift. rewrite Hparse.
    now rewrite createLabel_catch_throws.
Qed.

(** updateLabel leaves the tables, or updates the row of an existing label
    and possibly replaces its join rows. *)
Lemma updateLabel_db (id : Z) (data : UpdateLabel.t) (w : World) :
  let d := db w in
  let d' := db (snd (updateLabel unique BigInt id data w)) in
  d' = d
  \/ exists l u rows',
       find_label d id = Some l
       /\ (rows' = label_events d
           \/ exists ids, rows' = (rows_of_others d id ++ map (LabelEvent.mk id) ids)%list)
       /\ d' = updated_db d id u rows'.
Proof.
  cbv zeta. unfold updateLabel, try_catch, updateLabel_try, bind.
  pose proof (updateLabel_events_db BigInt (UpdateLabel.event_ids data) w) as Hdb.
  destruct (updateLabel_events BigInt (UpdateLabel.event_ids data) w)
    as [[[paths repl]|e] w1]; simpl in Hdb.
  - unfold label_update, prisma. rewrite Hdb.
    destruct (find_label (db w) id) as [l|] eqn:Hl; [|now left].
    destruct repl as [ids|]; simpl.
    + unfold connect_events.
      destruct (forallb (event_exists (db w)) ids); simpl; [|now left].
      fold (rows_of_others (db w) id).
      destruct (unique _); simpl; [|now left].
      right. eexists. eexists. eexists. split; [reflexivity|]. split.
      * right. eexists. reflexivity.
      * now destruct (UpdateLabel.event_ids data).
    + right. eexists. eexists. eexists. split; [reflexivity|]. split.
      * left. reflexivity.
      * now destruct (UpdateLabel.event_ids data).
  - left. destruct (@not_found_or_throws Label.t "Failed to update label" e w1) as [e' ->].
    exact Hdb.
Qed.

(** No updateLabel call writes the bounds of a label. *)
Lemma updateLabel_bounds_untouched (id : Z) (data : UpdateLabel.t) (w : World) :
  map (fun l => (LabelRow.id l, LabelRow.start_time l, LabelRow.end_time l))
      (labels (db (snd (updateLabel unique BigInt id data w))))
  = map (fun l => (LabelRow.id l, LabelRow.start_time l, LabelRow.end_time l))
        (labels (db w)).
Proof.
  destruct (updateLabel_db id data w) as [->|(l & u & rows' & Hl & Hrows & ->)];
    [reflexivity|].
  unfold updated_db. simpl. rewrite map_map. apply map_ext. intros l'.
  destruct (LabelRow.id l' =? id); reflexivity.
Qed.

Lemma createLabel_keeps_invariants (data : CreateLabel.t) (w : World) :
  well_formed (db w) = true -> intervals_ordered (db w) = true ->
  well_formed (db (snd (createLabel unique BigInt data w))) = true
  /\ intervals_ordered (db (snd (createLabel unique BigInt data w))) = true.
Proof.
  intros Hwf Hord.
  destruct (createLabel_db data w) as [[->| ->]|(ids & lo & hi & Hle & ->)];
    [now split|split; [now apply well_formed_id_drawn|exact Hord]|].
  split; [now apply well_formed_created|now apply intervals_ordered_created].
Qed.

Lemma updateLabel_keeps_invariants (id : Z) (data : UpdateLabel.t) (w : World) :
  well_formed (db w) = true -> intervals_ordered (db w) = true ->
  well_formed (db (snd (updateLabel unique BigInt id data w))) = true
  /\ intervals_ordered (db (snd (updateLabel unique BigInt id data w))) = true.
Proof.
  intros Hwf Hord.
  destruct (updateLabel_db id data w) as [->|(l & u & rows' & Hl & Hrows & ->)];
    [now split|].
  split; [now apply (well_formed_updated _ _ _ l)|now apply intervals_ordered_updated].
Qed.
End Invariants.

Lemma forallb_filter {A} (p q : A -> bool) (l : list A) :
  forallb p l = true -> forallb p (filter q l) = true.
Proof.
  rewrite !forallb_forall. intros H x Hx. apply filter_In in Hx as [Hx _]. now apply H.
Qed.

Lemma deleteLabel_keeps_invariants (id : Z) (w : World) :
  well_formed (db w) = true -> intervals_ordered (db w) = true ->
  well_formed (db (snd (deleteLabel id w))) = true
  /\ intervals_ordered (db (snd (deleteLabel id w))) = true.
Proof.
  intros Hwf Hord. unfold deleteLabel, try_catch, label_delete, prisma.
  destruct (find_label (db w) id); simpl; [|now split].
  unfold well_formed, intervals_ordered in *. simpl.
  apply andb_prop in Hwf as [H Hsafe]. apply andb_prop in H as [H Hrows].
  apply andb_prop in H as [Hpk Hlabels].
  rewrite Hpk, Hsafe, !forallb_filter by assumption. now split.
Qed.

Lemma deleteLabelsBulk_keeps_invariants (labelIds : list Z) (w : World) :
  well_formed (db w) = true -> intervals_ordered (db w) = true ->
  well_formed (db (snd (deleteLabelsBulk labelIds w))) = true
  /\ intervals_ordered (db (snd (deleteLabelsBulk labelIds w))) = true.
Proof.
  intros Hwf Hord. unfold deleteLabelsBulk, try_catch, bind, label_deleteMany, prisma.
  simpl. unfold well_formed, intervals_ordered in *. simpl.
  apply andb_prop in Hwf as [H Hsafe]. apply andb_prop in H as [H Hrows].
  apply andb_prop in H as [Hpk Hlabels].
  rewrite Hpk, Hsafe, !forallb_filter by assumption. now split.
Qed.

(** ** The properties on the sample data *)

Lemma sample_refers_to (d : Database) (ids : list Z) (e : Event.t) :
  refers_to d ids e -> events d = sample_events ->
  (e = Event.mk 1 "dev-1" 300 "ad" (Some "c.jpg") /\ In 1 ids)
  \/ (e = Event.mk 2 "dev-1" 100 "ad" (Some "a.jpg") /\ In 2 ids)
  \/ (e = Event.mk 3 "dev-2" 200 "content" None /\ In 3 ids).
Proof.
  intros [He Hid] Hev. rewrite Hev in He.
  destruct He as [<-|[<-|[<-|[]]]]; simpl in Hid; auto.
Qed.

(** C2: the bounds of a label are derived from its events when createLabel
    makes it, but updateLabel replaces the events and leaves start_time
    and end_time as they were.  Label 1 of the sample, made by createLabel
    on event 2 (timestamp 100), satisfies the invariant; after updateLabel
    put it on event 1 (timestamp 300) its bounds still are 100 and 100,
    although the minimum of the timestamps of its events is 300. *)
Theorem updateLabel_leaves_bounds_stale :
  db (snd (createLabel composite_key_unique BigInt_decimal (sample_create ["2"])
             sample_world)) = labelled_db
  /\ (forall l, In l (labels labelled_db) -> bounds_derived labelled_db l)
  /\ exists r w' l',
       updateLabel composite_key_unique BigInt_decimal 1 (sample_replace ["1"])
         labelled_world = (Return r, w')
       /\ labels (db w') = [l']
       /\ associations (db w') (LabelRow.id l') = [1]
       /\ LabelRow.start_time l' = 100 /\ LabelRow.end_time l' = 100
       /\ Label.start_time r = "100" /\ Label.end_time r = "100"
       /\ min_timestamp (db w') (associations (db w') (LabelRow.id l')) 300
       /\ ~ bounds_derived (db w') l'.
Proof.
  split; [reflexivity|]. split.
  - intros l [<-|[]]. unfold bounds_derived. simpl.
    change (associations labelled_db 1) with [2].
    repeat split; try lia.
    + exists (Event.mk 2 "dev-1" 100 "ad" (Some "a.jpg")).
      repeat split; simpl; auto.
    + intros e He.
      destruct (sample_refers_to _ _ _ He eq_refl) as [[-> H]|[[-> H]|[-> H]]];
        simpl in *; try lia; destruct H as [H|[]]; discriminate.
    + exists (Event.mk 2 "dev-1" 100 "ad" (Some "a.jpg")).
      repeat split; simpl; auto.
    + intros e He.
      destruct (sample_refers_to _ _ _ He eq_refl) as [[-> H]|[[-> H]|[-> H]]];
        simpl in *; try lia; destruct H as [H|[]]; discriminate.
  - eexists. eexists. eexists. split; [reflexivity|]. split; [reflexivity|].
    split; [reflexivity|]. split; [reflexivity|]. split; [reflexivity|].
    split; [reflexivity|]. split; [reflexivity|]. split.
    + split.
      * exists (Event.mk 1 "dev-1" 300 "ad" (Some "c.jpg")).
        repeat split; simpl; auto.
      * intros e He.
        destruct (sample_refers_to _ _ _ He eq_refl) as [[-> H]|[[-> H]|[-> H]]];
          simpl in *; try lia; destruct H as [H|[]]; discriminate.
    + intros [[(e & He & Ht) _] _].
      destruct (sample_refers_to _ _ _ He eq_refl) as [[-> H]|[[-> H]|[-> H]]];
        simpl in *; try discriminate; destruct H as [H|[]]; discriminate.
Qed.

(** C1 on the sample: of the ids "1" and "9" the second has no event. *)
Lemma createLabel_missing_event_sample :
  createLabel composite_key_unique BigInt_decimal (sample_create ["1"; "9"]) sample_world
  = (Throw (AppError "Failed to create label" 500),
     logged sample_world sample_db [EventFindMany]).
Proof.
  apply (createLabel_missing_event composite_key_unique BigInt_decimal
           (sample_create ["1"; "9"]) sample_world [1; 9] 9).
  - reflexivity.
  - reflexivity.
  - simpl. auto.
  - reflexivity.
Defined.

(** C10 on the sample. *)
Lemma createLabel_empty_event_ids_sample :
  createLabel composite_key_unique BigInt_decimal (sample_create []) sample_world
  = (Throw (AppError "Failed to create label" 500),
     logged sample_world sample_db [EventFindMany]).
Proof.
  apply (createLabel_empty_event_ids composite_key_unique BigInt_decimal
           (sample_create []) sample_world).
  reflexivity.
Defined.

(** C8 on the sample: event 2 already carries label 1, and the join table
    allows one label per event. *)
Lemma createLabel_conflict_sample :
  createLabel one_label_per_event BigInt_decimal (sample_create ["2"; "3"]) labelled_world
  = (Throw (AppError "Label already exists for one or more events" 400),
     logged labelled_world (id_drawn labelled_db) [EventFindMany; LabelCreate]).
Proof.
  apply (createLabel_conflict one_label_per_event BigInt_decimal
           (sample_create ["2"; "3"]) labelled_world [2; 3]).
  - reflexivity.
  - reflexivity.
  - discriminate.
  - reflexivity.
  - reflexivity.
  - reflexivity.
Defined.

(** C3 on the sample: a label on the three events. *)
Lemma createLabel_bounds_and_order_sample :
  exists r w',
    createLabel composite_key_unique BigInt_decimal (sample_create ["1"; "2"; "3"])
      sample_world = (Return r, w')
    /\ created_as_specified sample_db [1; 2; 3] r (db w').
Proof.
  apply (createLabel_bounds_and_order composite_key_unique BigInt_decimal
           (sample_create ["1"; "2"; "3"]) sample_world [1; 2; 3]).
  - reflexivity.
  - reflexivity.
  - discriminate.
  - reflexivity.
  - reflexivity.
  - reflexivity.
Defined.

(** C3 as stated fails on an id given twice: the list is not empty and its
    ids have their event, but one event is found for two ids, the length
    check fails and no label is returned. *)
Lemma createLabel_duplicate_ids_rejected :
  CreateLabel.event_ids (sample_create ["1"; "1"]) <> []
  /\ map_throwing (parse_event_id BigInt_decimal)
                  (CreateLabel.event_ids (sample_create ["1"; "1"])) = Return [1; 1]
  /\ forallb (event_exists sample_db) [1; 1] = true
  /\ createLabel composite_key_unique BigInt_decimal (sample_create ["1"; "1"])
       sample_world
     = (Throw (AppError "Failed to create label" 500),
        logged sample_world sample_db [EventFindMany]).
Proof.
  split; [discriminate|]. repeat split; reflexivity.
Qed.

(** C4 on the sample: label 1 moves from event 2 to events 1 and 3. *)
Lemma updateLabel_replaces_events_sample :
  exists r w',
    updateLabel composite_key_unique BigInt_decimal 1 (sample_replace ["1"; "3"])
      labelled_world = (Return r, w')
    /\ replaced_as_specified labelled_db 1 [1; 3] r (db w').
Proof.
  apply (updateLabel_replaces_events composite_key_unique BigInt_decimal 1
           (sample_replace ["1"; "3"]) labelled_world
           (LabelRow.mk 1 Song "ann" 1700000000000 100 100 (Some "note")
              (Subs.set Song (Some [("title", "t")]) Subs.empty))
           ["1"; "3"] [1; 3]).
  - reflexivity.
  - reflexivity.
  - reflexivity.
  - reflexivity.
  - reflexivity.
  - reflexivity.
  - reflexivity.
Defined.

(** C4 as stated fails on an id given twice: label 1 exists, event 1
    exists, but the call fails and label 1 stays on event 2, which is not
    among the ids given. *)
Lemma updateLabel_duplicate_ids_rejected :
  (exists l, find_label labelled_db 1 = Some l)
  /\ map_throwing (parse_event_id BigInt_decimal) ["1"; "1"] = Return [1; 1]
  /\ forallb (event_exists labelled_db) [1; 1] = true
  /\ updateLabel composite_key_unique BigInt_decimal 1 (sample_replace ["1"; "1"])
       labelled_world
     = (Throw (AppError "Failed to update label" 500),
        logged labelled_world labelled_db [EventFindMany])
  /\ associations labelled_db 1 = [2].
Proof.
  split; [eexists; reflexivity|]. repeat split; reflexivity.
Qed.

(** C9 on the sample: a song sub-record without label_type changes no
    sub-record. *)
Lemma updateLabel_without_label_type_sample :
  update_upsert (UpdateLabel.label_type sample_song_only)
                (UpdateLabel.subs sample_song_only) = None
  /\ map LabelRow.subs
         (labels (db (snd (updateLabel composite_key_unique BigInt_decimal 1
                             sample_song_only labelled_world))))
     = map LabelRow.subs (labels labelled_db).
Proof.
  destruct (updateLabel_without_label_type composite_key_unique BigInt_decimal 1
              sample_song_only labelled_world) as (Hnone & Hsubs & _).
  - reflexivity.
  - split; [exact Hnone|exact Hsubs].
Defined.

(** C5 on the sample. *)
Lemma pagination_metadata_sample :
  (exists p w',
      getUnlabeledEvents sample_unlabeled_options labelled_world = (Return p, w')
      /\ Page.total p = 1 /\ Page.totalPages p = 1 /\ Page.currentPage p = 1)
  /\ (exists p w',
      getLabels sample_labels_options labelled_world = (Return p, w')
      /\ Page.total p = 1 /\ Page.totalPages p = 1 /\ Page.currentPage p = 2).
Proof.
  destruct (pagination_metadata labelled_world sample_unlabeled_options
              sample_labels_options) as (Hreturns & Hevents & Hlabels).
  - simpl. lia.
  - simpl. lia.
  - simpl. lia.
  - simpl. lia.
  - split.
    + destruct (Hreturns eq_refl) as (p & w' & E).
      destruct (Hevents p w' E) as (Htotal & Hpages & Hpage).
      exists p, w'. split; [exact E|].
      change (Page.total p = 1) in Htotal. rewrite Htotal in Hpages.
      simpl in Hpages, Hpage. repeat split; [assumption|lia|assumption].
    + destruct Hlabels as (p & w' & E & Htotal & Hpages & Hpage).
      exists p, w'. split; [exact E|].
      change (Page.total p = 1) in Htotal. rewrite Htotal in Hpages.
      simpl in Hpages, Hpage. repeat split; [assumption|lia|assumption].
Defined.

(** Where a timestamp is no date, the entry for the log cannot be made and
    getUnlabeledEvents fails after its two reads. *)
Example getUnlabeledEvents_beyond_dates :
  getUnlabeledEvents (GetUnlabeledEventsOptions.mk 1 10 None None None None None)
    beyond_dates_world
  = (Throw (AppError "Failed to fetch unlabeled events" 500),
     logged beyond_dates_world (db beyond_dates_world) [EventFindMany; EventCount]).
Proof. reflexivity. Qed.

(** C6 on the sample: device "dev-9" does not exist; on 1970-01-01 the
    guide of "dev-1" has label 1. *)
Lemma getProgramGuideByDate_overlap_sample :
  getProgramGuideByDate 123 "dev-9" asc labelled_world
  = (Throw (AppError "Invalid device ID" 404),
     logged labelled_world labelled_db [DeviceFindUnique])
  /\ exists rows out,
       Permutation rows (labels labelled_db)
       /\ getProgramGuideByDate 123 "dev-1" asc labelled_world
          = (Return out,
             logged labelled_world labelled_db [DeviceFindUnique; LabelFindMany])
       /\ Forall2 (guide_entry labelled_db) rows out.
Proof.
  split.
  - apply (getProgramGuideByDate_overlap 123 "dev-9" asc labelled_world eq_refl).
    simpl. intros [H|[H|[]]]; discriminate.
  - apply (getProgramGuideByDate_overlap 123 "dev-1" asc labelled_world eq_refl).
    + simpl. auto.
    + unfold day_in_range, max_time_value. lia.
Defined.

(** C6 as stated fails on the last instant of the range of Date,
    +275760-09-13T00:00:00.000Z: device "dev-1" exists, but the end of that
    day is no Date, [BigInt] throws on its NaN and the call fails after
    the lookup of the device, with the generic error. *)
Lemma getProgramGuideByDate_last_instant_fails :
  In "dev-1" (devices labelled_db)
  /\ intervals_ordered labelled_db = true
  /\ getProgramGuideByDate 8640000000000000 "dev-1" asc labelled_world
     = (Throw (AppError "Failed to fetch program guide" 500),
        logged labelled_world labelled_db [DeviceFindUnique]).
Proof.
  split; [simpl; auto|]. split; reflexivity.
Qed.

(** C7 on the sample: no label has id 7; of the ids 1 and 7 only the
    first is the id of a label. *)
Lemma delete_missing_and_bulk_sample :
  deleteLabel 7 labelled_world
  = (Throw (AppError "Label not found" 404),
     logged labelled_world labelled_db [LabelDelete])
  /\ exists w',
       deleteLabelsBulk [1; 7] labelled_world = (Return tt, w')
       /\ (forall l, In l (labels (db w')) <->
                     In l (labels labelled_db) /\ ~ In (LabelRow.id l) [1; 7])
       /\ (forall le, In le (label_events (db w')) <->
                      In le (label_events labelled_db)
                      /\ ~ In (LabelEvent.label_id le) [1; 7])
       /\ events (db w') = events labelled_db.
Proof.
  apply (delete_missing_and_bulk 7 [1; 7] labelled_world).
  intros l [<-|[]]. discriminate.
Defined.

(** * Further properties of the service *)

(** ** createLabel: malformed ids and failures *)

Lemma map_throwing_In {A B} (f : A -> Outcome B) (xs : list A) (x : A) (e : Exn) :
  In x xs -> f x = Throw e ->
  (forall y e', f y = Throw e' -> e' = e) ->
  map_throwing f xs = Throw e.
Proof.
  intros Hin Hx Honly. induction xs as [|y ys IH]; [destruct Hin|].
  simpl. destruct (f y) as [b|e'] eqn:Ey.
  - destruct Hin as [->|Hin]; [congruence|]. now rewrite (IH Hin).
  - f_equal. now apply (Honly y).
Qed.

Section CreateLabelFailures.
Variable unique : list LabelEvent.t -> bool.
Variable BigInt : string -> option Z.

(** The callback of the map throws nothing but the SyntaxError of BigInt:
    its own 400 is out of reach. *)
Lemma parse_event_id_throws (id : string) (e : Exn) :
  parse_event_id BigInt id = Throw e -> e = SyntaxError /\ BigInt id = None.
Proof.
  unfold parse_event_id. destruct (BigInt id) as [z|]; [|now intros [= <-]].
  unfold isNaN. discriminate.
Qed.

Lemma createLabel_try_unparsed (data : CreateLabel.t) (w : World) (e : Exn) :
  map_throwing (parse_event_id BigInt) (CreateLabel.event_ids data) = Throw e ->
  createLabel_try unique BigInt data w = (Throw e, w).
Proof.
  intros Hparse. unfold createLabel_try, bind, lift. now rewrite Hparse.
Qed.

(** A failing [try] block of createLabel has not written; it may have
    drawn an id. *)
Lemma createLabel_try_Throw_db (data : CreateLabel.t) (w w' : World) (e : Exn) :
  createLabel_try unique BigInt data w = (Throw e, w') ->
  db w' = db w \/ db w' = id_drawn (db w).
Proof.
  destruct (map_throwing (parse_event_id BigInt) (CreateLabel.event_ids data))
    as [ids|e0] eqn:Hparse.
  - rewrite (createLabel_try_parsed unique BigInt data w ids Hparse). cbv zeta.
    destruct (negb _); [intros [= _ <-]; now left|].
    destruct (BigInt_of_number (Math_min _)); [|intros [= _ <-]; now left].
    destruct (BigInt_of_number (Math_max _)); [|intros [= _ <-]; now left].
    destruct (connect_events _ _ _ _ _); [discriminate|intros [= _ <-]; now right].
  - rewrite (createLabel_try_unparsed data w e0 Hparse). intros [= _ <-]. now left.
Qed.

Lemma createLabel_Return_parsed (data : CreateLabel.t) (w w' : World) (r : Label.t) :
  createLabel unique BigInt data w = (Return r, w') ->
  exists ids,
    map_throwing (parse_event_id BigInt) (CreateLabel.event_ids data) = Return ids.
Proof.
  intros H. apply createLabel_Return in H.
  destruct (map_throwing (parse_event_id BigInt) (CreateLabel.event_ids data))
    as [ids|e] eqn:Hparse; [now exists ids|].
  rewrite (createLabel_try_unparsed data w e Hparse) in H. discriminate.
Qed.

(** X1: an id that BigInt cannot read makes createLabel fail with the
    generic failure (500) before any query is issued: the world, log
    included, is as before.  The 400 'Invalid event ID' of the callback is
    never the answer. *)
Theorem createLabel_malformed_id (data : CreateLabel.t) (w : World) (id : string) :
  In id (CreateLabel.event_ids data) -> BigInt id = None ->
  createLabel unique BigInt data w
  = (Throw (AppError "Failed to create label" 500), w).
Proof.
  intros Hin Hbad.
  assert (Hparse : map_throwing (parse_event_id BigInt) (CreateLabel.event_ids data)
                   = Throw SyntaxError).
  { apply (map_throwing_In _ _ id); [assumption| |].
    - unfold parse_event_id. now rewrite Hbad.
    - intros y e' Hy. now apply parse_event_id_throws in Hy. }
  unfold createLabel, try_catch.
  now rewrite (createLabel_try_unparsed data w SyntaxError Hparse).
Qed.

(** X2: a createLabel call that fails has written nothing to the four
    tables (the label id sequence is where it was or one further), and
    the error it throws is the conflict (400, 'Label already exists for
    one or more events') or the generic failure (500): never a 404, never
    the 400 of an invalid id. *)
Theorem createLabel_failure (data : CreateLabel.t) (w w' : World) (e : Exn) :
  createLabel unique BigInt data w = (Throw e, w') ->
  same_tables (db w) (db w')
  /\ (next_label_id (db w') = next_label_id (db w)
      \/ next_label_id (db w') = next_label_id (db w) + 1)
  /\ (e = AppError "Label already exists for one or more events" 400
      \/ e = AppError "Failed to create label" 500).
Proof.
  unfold createLabel, try_catch.
  destruct (createLabel_try unique BigInt data w) as [[r|e0] w1] eqn:Htry;
    [discriminate|].
  rewrite createLabel_catch_throws. intros [= <- <-].
  split; [|split].
  - destruct (createLabel_try_Throw_db data w w1 e0 Htry) as [-> | ->];
      repeat split.
  - destruct (createLabel_try_Throw_db data w w1 e0 Htry) as [-> | ->];
      [now left|now right].
  - destruct (match e0 with
              | PrismaClientKnownRequestError code => String.eqb code "P2002"
              | _ => false
              end); [now left|now right].
Qed.
End CreateLabelFailures.

(** ** createLabel: what is returned, and what the other methods see *)

Lemma create_subs_get (t : LabelType) (p : Subs.t) (k : LabelType) :
  Subs.get k (create_subs t p)
  = if LabelType_eqb k t then Subs.get k p else None.
Proof.
  destruct p as [so a e pr mo pm sp].
  destruct t; unfold create_subs; simpl;
    [destruct so|destruct a|destruct e|destruct pr|destruct mo|destruct pm|destruct sp];
    destruct k; reflexivity.
Qed.

Lemma well_formed_labels_fresh (d : Database) (l : LabelRow.t) :
  well_formed d = true -> In l (labels d) -> LabelRow.id l < next_label_id d.
Proof.
  unfold well_formed. intros H Hl.
  apply andb_prop in H as [H _]. apply andb_prop in H as [H _].
  apply andb_prop in H as [_ H]. rewrite forallb_forall in H.
  now apply Z.ltb_lt, H.
Qed.

(** The decimal numeral of an integer determines it. *)
Lemma BigInt_toString_inj (a b : Z) :
  BigInt_toString a = BigInt_toString b -> a = b.
Proof.
  unfold BigInt_toString. intros H.
  assert (Hnonnil : forall z, Z.to_int z <> Decimal.Pos Decimal.Nil
                              /\ Z.to_int z <> Decimal.Neg Decimal.Nil).
  { intros z. destruct z as [|q|q]; simpl; split; try discriminate;
      intros E; injection E as E; now apply (DecimalPos.Unsigned.to_uint_nonnil q). }
  apply DecimalZ.to_int_inj.
  assert (Some (Z.to_int a) = Some (Z.to_int b)) as [= E]; [|exact E].
  rewrite <- (NilZero.isi (Z.to_int a)), <- (NilZero.isi (Z.to_int b));
    try apply Hnonnil.
  now rewrite H.
Qed.

(** ** Pages of a sorted selection *)

Lemma sort_ext {A} (cmp cmp' : A -> A -> Z) (l : list A) :
  (forall a b, cmp a b = cmp' a b) -> sort cmp l = sort cmp' l.
Proof.
  intros Hext. induction l as [|x l IH]; simpl; [reflexivity|].
  rewrite IH. generalize (sort cmp' l) as s.
  induction s as [|y s IHs]; simpl; [reflexivity|].
  now rewrite Hext, IHs.
Qed.

Lemma StronglySorted_weaken {A} (R R' : A -> A -> Prop) (l : list A) :
  (forall a b, R a b -> R' a b) -> StronglySorted R l -> StronglySorted R' l.
Proof.
  intros Himpl Hs. induction Hs as [|a l Hs IH Ha]; constructor; [assumption|].
  eapply Forall_impl; [|exact Ha]. apply Himpl.
Qed.

(** The order of a findMany with [orderBy]. *)
Lemma sort_in_order {A} (o : SortOrder) (key : A -> Z) (l : list A) :
  StronglySorted (in_order o key)
                 (sort (fun a b => order_cmp o (key a) (key b)) l).
Proof.
  destruct o; simpl.
  - exact (sort_sorted key l).
  - rewrite (sort_ext _ (fun a b => (- key a) - (- key b))) by (intros; lia).
    apply (StronglySorted_weaken (fun a b => - key a <= - key b));
      [intros; simpl; lia|].
    exact (sort_sorted (fun a => - key a) l).
Qed.



(** getLabels, run: the selection, sorted by creation, cut to the page. *)
Lemma getLabels_run (o : GetLabelsOptions.t) (w : World) :
  1 <= GetLabelsOptions.page o ->
  1 <= GetLabelsOptions.limit o ->
  let page := GetLabelsOptions.page o in
  let limit := GetLabelsOptions.limit o in
  let selected := filter (label_selected (db w) o) (labels (db w)) in
  let sorted :=
    sort (fun a b => order_cmp (sort_or_desc (GetLabelsOptions.sort o))
                       (LabelRow.created_at a) (LabelRow.created_at b)) selected in
  getLabels o w
  = (Return (Page.mk
               (map (listed (db w))
                    (firstn (Z.to_nat limit) (skipn (Z.to_nat ((page - 1) * limit)) sorted)))
               (Z.of_nat (List.length selected))
               (Math_ceil_div (Z.of_nat (List.length selected)) limit)
               page),
     logged w (db w) [LabelFindMany; LabelCount]).
Proof.
  intros Hp Hl. cbv zeta.
  unfold getLabels, try_catch, bind, Promise_all2, label_findMany,
    label_count, prisma, ret, logged.
  rewrite (page_of_slice _ _ _ Hp Hl). simpl.
  rewrite !(filter_ext _ _ (label_matches_selected (db w) o)).
  now rewrite <- app_assoc, map_map.
Qed.



Lemma included_rows (d : Database) (l : LabelRow.t) (p : LabelEvent.t * Event.t) :
  In p (Included.events (include_events d l)) ->
  In (fst p) (label_events d) /\ LabelEvent.label_id (fst p) = LabelRow.id l.
Proof.
  unfold include_events. simpl. intros H.
  apply in_flat_map in H as (le & Hle & Hp).
  unfold with_event in Hp.
  destruct (find_event d (LabelEvent.event_id le)); [|destruct Hp].
  destruct Hp as [<-|[]]. simpl.
  apply filter_In in Hle as [Hle E]. now apply Z.eqb_eq in E.
Qed.

Lemma own_rows_filtered (lid : Z) (ids : list Z) :
  filter (fun le => negb (LabelEvent.label_id le =? lid)) (map (LabelEvent.mk lid) ids)
  = [].
Proof.
  induction ids as [|i ids IH]; simpl; [reflexivity|]. now rewrite Z.eqb_refl.
Qed.

Section CreateLabelReturns.
Variable unique : list LabelEvent.t -> bool.
Variable BigInt : string -> option Z.

(** X3: the label createLabel returns repeats the label_type, created_by
    and notes of the request and carries the creation time of the store.
    Of the sub-records in the request it has the one of its label_type, if
    that one was sent, and no other: a payload of another type is dropped,
    and without the payload of its type the label has no sub-record. *)
Theorem createLabel_echo_and_sub_record
    (data : CreateLabel.t) (w w' : World) (r : Label.t) :
  createLabel unique BigInt data w = (Return r, w') ->
  Label.label_type r = CreateLabel.label_type data
  /\ Label.created_by r = CreateLabel.created_by data
  /\ Label.notes r = CreateLabel.notes data
  /\ Label.created_at r = now (db w)
  /\ forall k, Subs.get k (Label.subs r)
               = if LabelType_eqb k (CreateLabel.label_type data)
                 then Subs.get k (CreateLabel.subs data)
                 else None.
Proof.
  intros H. destruct (createLabel_Return_parsed unique BigInt data w w' r H) as [ids Hparse].
  destruct (createLabel_returned unique BigInt data w w' ids r Hparse H)
    as (lo & hi & _ & _ & _ & _ & _ & -> & _).
  repeat split. intros k. apply create_subs_get.
Qed.

(** X4: in the label createLabel returns, event_ids and image_paths go
    together: both follow one list of the events of the label in
    ascending order of timestamp, the i-th image path being the one of the
    i-th event id. *)
Theorem createLabel_event_ids_aligned
    (data : CreateLabel.t) (w w' : World) (r : Label.t) :
  well_formed (db w) = true ->
  createLabel unique BigInt data w = (Return r, w') ->
  exists es,
    Forall (fun e => In e (events (db w))) es
    /\ ascending es
    /\ Label.event_ids r = map (fun e => BigInt_toString (Event.id e)) es
    /\ Label.image_paths r = map Event.image_path es.
Proof.
  intros Hwf H.
  destruct (createLabel_Return_parsed unique BigInt data w w' r H) as [ids Hparse].
  destruct (createLabel_returned unique BigInt data w w' ids r Hparse H)
    as (lo & hi & _ & _ & _ & Hall & _ & -> & _).
  pose proof (well_formed_elim (db w) Hwf) as (_ & _ & Hsafe).
  destruct (included_created (db w) (created_row data (db w) lo hi) ids Hwf Hall eq_refl)
    as [Hids Hinc].
  destruct (sorted_events_spec (db w) _ ids Hsafe Hids Hinc) as (Heq & _ & Hin & Hasc).
  eexists. split; [exact Hin|]. split; [exact Hasc|]. split.
  - apply (f_equal (map BigInt_toString)) in Heq. rewrite !map_map in Heq.
    rewrite map_map. exact Heq.
  - simpl. now rewrite map_map.
Qed.

(** X5: createLabel and deleteLabel undo each other: deleting the label
    createLabel returned succeeds and leaves the label table and the join
    table as they were before the creation (the events are never
    written). *)
Theorem createLabel_then_deleteLabel
    (data : CreateLabel.t) (w w' : World) (r : Label.t) :
  well_formed (db w) = true ->
  createLabel unique BigInt data w = (Return r, w') ->
  exists w'',
    deleteLabel (Label.id r) w' = (Return tt, w'')
    /\ labels (db w'') = labels (db w)
    /\ label_events (db w'') = label_events (db w)
    /\ events (db w'') = events (db w).
Proof.
  intros Hwf H.
  destruct (createLabel_Return_parsed unique BigInt data w w' r H) as [ids Hparse].
  destruct (createLabel_returned unique BigInt data w w' ids r Hparse H)
    as (lo & hi & _ & _ & _ & _ & _ & -> & ->).
  pose proof (well_formed_elim (db w) Hwf) as (_ & Hfresh & _).
  set (lid := next_label_id (db w)).
  set (d' := created_db (db w) (created_row data (db w) lo hi)
               (label_events (db w) ++ map (LabelEvent.mk lid) ids)).
  assert (F : exists l, find_label d' lid = Some l).
  { destruct (find_label d' lid) as [l|] eqn:F; [now exists l|].
    exfalso. unfold find_label in F.
    assert (Hrow : In (created_row data (db w) lo hi) (labels d'))
      by (simpl; apply in_or_app; right; now left).
    apply (find_none _ _ F) in Hrow. simpl in Hrow. fold lid in Hrow.
    rewrite Z.eqb_refl in Hrow. discriminate. }
  destruct F as [l F].
  unfold deleteLabel, try_catch, label_delete, prisma, logged.
  change (Label.id (created_label (include_events d' (created_row data (db w) lo hi))))
    with lid.
  cbn [db]. rewrite F.
  eexists. split; [reflexivity|]. cbn [db labels label_events events].
  split; [|split; [|reflexivity]].
  - unfold d', created_db. cbn [labels]. rewrite filter_app. simpl.
    fold lid. rewrite Z.eqb_refl. simpl.
    rewrite app_nil_r. apply forallb_filter_id.
    rewrite forallb_forall. intros l' Hl'.
    pose proof (well_formed_labels_fresh (db w) l' Hwf Hl').
    apply negb_true_iff, Z.eqb_neq. unfold lid. lia.
  - unfold d', created_db. cbn [label_events]. rewrite filter_app.
    replace (filter _ (map (LabelEvent.mk lid) ids)) with (@nil LabelEvent.t).
    + rewrite app_nil_r. apply forallb_filter_id.
      rewrite forallb_forall. intros le Hle.
      pose proof (Hfresh le Hle). apply negb_true_iff, Z.eqb_neq. unfold lid. lia.
    + symmetry. apply own_rows_filtered.
Qed.

(** X6: once createLabel has returned a label, getUnlabeledEvents lists
    none of its events, whatever filters and page are asked for. *)
Theorem createLabel_then_getUnlabeledEvents
    (data : CreateLabel.t) (w w' w'' : World) (r : Label.t)
    (o : GetUnlabeledEventsOptions.t) (p : Page.t EventOut.t) (item : EventOut.t) :
  createLabel unique BigInt data w = (Return r, w') ->
  getUnlabeledEvents o w' = (Return p, w'') ->
  In item (Page.items p) ->
  ~ In (EventOut.id item) (Label.event_ids r).
Proof.
  intros H Hget Hitem Hin.
  destruct (createLabel_Return_parsed unique BigInt data w w' r H) as [ids Hparse].
  destruct (createLabel_returned unique BigInt data w w' ids r Hparse H)
    as (lo & hi & _ & _ & _ & _ & _ & -> & ->).
  destruct (getUnlabeledEvents_items o _ _ p item Hget Hitem) as (e & _ & Hsel & ->).
  set (d' := created_db (db w) (created_row data (db w) lo hi)
               (label_events (db w) ++ map (LabelEvent.mk (next_label_id (db w))) ids))
    in *.
  set (row := created_row data (db w) lo hi) in *.
  unfold created_label, to_Label in Hin. cbn [Label.event_ids EventOut.id to_EventOut] in Hin.
  apply in_map_iff in Hin as (q & Hq & Hqin).
  apply BigInt_toString_inj in Hq.
  eapply Permutation_in in Hqin; [|apply sort_perm].
  apply (included_rows d' row) in Hqin as [Hrow _].
  change (db (logged w d' [EventFindMany; LabelCreate])) with d' in Hsel.
  unfold unlabeled_selected in Hsel.
  repeat (apply andb_prop in Hsel as [Hsel _]).
  rewrite forallb_forall in Hsel. specialize (Hsel (fst q) Hrow).
  apply negb_true_iff, Z.eqb_neq in Hsel. contradiction.
Qed.

(** X7: a label createLabel has returned is listed by getLabels: asked
    without filter for at least as many labels as there are, getLabels
    returns an item with the same id, type, author, times, notes, image
    paths and sub-records, and the same event ids (in the order of the
    join table). *)
Theorem createLabel_then_getLabels
    (data : CreateLabel.t) (w w' : World) (r : Label.t) (limit : Z) :
  createLabel unique BigInt data w = (Return r, w') ->
  Z.of_nat (List.length (labels (db w'))) <= limit ->
  exists p w'' item,
    getLabels (unfiltered limit) w' = (Return p, w'')
    /\ In item (Page.items p)
    /\ Label.id item = Label.id r
    /\ Label.label_type item = Label.label_type r
    /\ Label.created_by item = Label.created_by r
    /\ Label.created_at item = Label.created_at r
    /\ Label.start_time item = Label.start_time r
    /\ Label.end_time item = Label.end_time r
    /\ Label.notes item = Label.notes r
    /\ Label.image_paths item = Label.image_paths r
    /\ Label.subs item = Label.subs r
    /\ Permutation (Label.event_ids item) (Label.event_ids r).
Proof.
  intros H Hlimit.
  destruct (createLabel_Return_parsed unique BigInt data w w' r H) as [ids Hparse].
  destruct (createLabel_returned unique BigInt data w w' ids r Hparse H)
    as (lo & hi & _ & _ & _ & _ & _ & -> & ->).
  set (d' := created_db (db w) (created_row data (db w) lo hi)
               (label_events (db w) ++ map (LabelEvent.mk (next_label_id (db w))) ids))
    in *.
  set (row := created_row data (db w) lo hi) in *.
  assert (Hrow : In row (labels d')) by (simpl; apply in_or_app; right; now left).
  assert (Hpos : 1 <= limit).
  { change (db (logged w d' [EventFindMany; LabelCreate])) with d' in Hlimit.
    destruct (labels d'); [destruct Hrow|]. simpl in Hlimit. lia. }
  eexists. eexists. exists (listed d' row).
  split; [apply (getLabels_run (unfiltered limit)); simpl; lia|].
  cbv zeta. simpl Page.items. split.
  - apply in_map.
    change (db (logged w d' [EventFindMany; LabelCreate])) with d' in *.
    change (Z.to_nat ((GetLabelsOptions.page (unfiltered limit) - 1)
                      * GetLabelsOptions.limit (unfiltered limit))) with 0%nat.
    change (GetLabelsOptions.limit (unfiltered limit)) with limit.
    cbn [skipn]. rewrite firstn_all2.
    + eapply Permutation_in; [symmetry; apply sort_perm|].
      apply filter_In. split; [exact Hrow|reflexivity].
    + rewrite (Permutation_length (sort_perm _ _)).
      pose proof (filter_length_le (label_selected d' (unfiltered limit)) (labels d')).
      change (labels (db w) ++ [row])%list with (labels d'). lia.
  - unfold listed, created_label, to_Label. simpl.
    repeat split. apply Permutation_map. symmetry. apply sort_perm.
Qed.
End CreateLabelReturns.

(** ** updateLabel, beyond the claims *)

Lemma found_nil (d : Database) : found d [] = [].
Proof.
  unfold found. induction (events d) as [|e es IH]; [reflexivity|exact IH].
Qed.

Lemma Subs_get_set (k k' : LabelType) (v : option Fields) (s : Subs.t) :
  Subs.get k' (Subs.set k v s) = if LabelType_eqb k' k then v else Subs.get k' s.
Proof. destruct k, k'; reflexivity. Qed.

Lemma update_upsert_present (k : LabelType) (p : Subs.t) (f : Fields) :
  Subs.get k p = Some f ->
  update_upsert (Some k) p = Some (k, (upsert_payload k f, upsert_payload k f)).
Proof.
  destruct p as [so a e pr mo pm sp]. destruct k; simpl; intros ->; reflexivity.
Qed.

Lemma field_app (name : string) (a b : Fields) :
  field name (a ++ b)%list
  = match field name a with
    | Some v => Some v
    | None => field name b
    end.
Proof.
  unfold field. induction a as [|kv a IH]; simpl; [reflexivity|].
  destruct (String.eqb (fst kv) name); [reflexivity|exact IH].
Qed.

Lemma field_absent (name : string) (a : Fields) (kv : string * string) :
  field name a = None -> In kv a -> String.eqb (fst kv) name = false.
Proof.
  unfold field. intros Hnone Hin.
  destruct (find _ a) as [x|] eqn:F; [discriminate|].
  exact (find_none _ _ F kv Hin).
Qed.

(** The stored columns that survive an update are those not sent. *)
Lemma field_kept (name : string) (sent stored : Fields) :
  field name sent = None ->
  field name (filter (fun kv => negb (existsb (fun kv' => String.eqb (fst kv') (fst kv)) sent))
                     stored)
  = field name stored.
Proof.
  intros Hnone. induction stored as [|kv stored IH]; [reflexivity|].
  assert (Hcons : forall l, field name (kv :: l)
                            = if String.eqb (fst kv) name then Some (snd kv)
                              else field name l).
  { intros l. unfold field. simpl. now destruct (String.eqb (fst kv) name). }
  cbn [filter].
  destruct (existsb (fun kv' => String.eqb (fst kv') (fst kv)) sent) eqn:X; cbn [negb].
  - apply existsb_exists in X as (kv' & Hin & Hkey).
    apply String.eqb_eq in Hkey.
    pose proof (field_absent name sent kv' Hnone Hin) as Hneq.
    rewrite Hkey in Hneq. now rewrite Hcons, Hneq.
  - rewrite !Hcons. now destruct (String.eqb (fst kv) name).
Qed.

Lemma field_upsert (name : string) (sent : Fields) (old : option Fields) :
  field name (upsert_fields sent sent old)
  = match field name sent with
    | Some v => Some v
    | None => match old with
              | Some stored => field name stored
              | None => None
              end
    end.
Proof.
  destruct old as [stored|]; simpl.
  - rewrite field_app. destruct (field name sent) eqn:F; [reflexivity|].
    now apply field_kept.
  - now destruct (field name sent).
Qed.

Lemma field_pick (name : string) (keys : list string) (f : Fields) :
  field name (pick keys f)
  = if existsb (String.eqb name) keys then field name f else None.
Proof.
  unfold pick. induction keys as [|k keys IH]; [reflexivity|].
  cbn [flat_map existsb]. rewrite field_app, IH.
  destruct (String.eqb name k) eqn:E.
  - apply String.eqb_eq in E. subst k. cbn [orb].
    assert (Hf : field name f
                 = option_map snd (find (fun kv => String.eqb (fst kv) name) f))
      by reflexivity.
    destruct (find (fun kv => String.eqb (fst kv) name) f) as [kv|].
    + rewrite Hf. unfold field. simpl. now rewrite String.eqb_refl.
    + rewrite Hf. simpl. now destruct (existsb (String.eqb name) keys).
  - cbn [orb].
    destruct (find (fun kv => String.eqb (fst kv) k) f) as [kv|]; [|reflexivity].
    unfold field at 1. simpl. now rewrite String.eqb_sym, E.
Qed.

Lemma field_payload (k : LabelType) (name : string) (f : Fields) :
  field name (upsert_payload k f) = if handed_on k name then field name f else None.
Proof.
  destruct k; try reflexivity.
  unfold upsert_payload, handed_on. rewrite field_pick. simpl.
  now rewrite orb_false_r, !orb_assoc.
Qed.

Lemma rows_of_label_other (d : Database) (id lid : Z) (ids : list Z) :
  lid <> id ->
  filter (fun le => LabelEvent.label_id le =? lid)
         (rows_of_others d id ++ map (LabelEvent.mk id) ids)
  = rows_of_label d lid.
Proof.
  intros Hne. unfold rows_of_others, rows_of_label. rewrite filter_app.
  replace (filter _ (map (LabelEvent.mk id) ids)) with (@nil LabelEvent.t).
  - rewrite app_nil_r. induction (label_events d) as [|le rows IH]; simpl; [reflexivity|].
    destruct (LabelEvent.label_id le =? id) eqn:E; simpl.
    + apply Z.eqb_eq in E.
      replace (LabelEvent.label_id le =? lid) with false
        by (symmetry; apply Z.eqb_neq; lia).
      exact IH.
    + destruct (LabelEvent.label_id le =? lid); [now f_equal|exact IH].
  - symmetry. induction ids as [|i ids IH]; simpl; [reflexivity|].
    replace (id =? lid) with false by (symmetry; apply Z.eqb_neq; lia).
    exact IH.
Qed.

Lemma find_label_updated_other (d : Database) (id lid : Z) (u : LabelUpdateInput.t)
    (rows' : list LabelEvent.t) :
  lid <> id ->
  find_label (updated_db d id u rows') lid = find_label d lid.
Proof.
  intros Hne. unfold find_label, updated_db. simpl.
  induction (labels d) as [|l ls IH]; simpl; [reflexivity|].
  destruct (LabelRow.id l =? id) eqn:E.
  - apply Z.eqb_eq in E. simpl.
    replace (LabelRow.id l =? lid) with false by (symmetry; apply Z.eqb_neq; lia).
    exact IH.
  - destruct (LabelRow.id l =? lid); [reflexivity|exact IH].
Qed.

Section UpdateLabelMore.
Variable unique : list LabelEvent.t -> bool.
Variable BigInt : string -> option Z.

(** The [try] block of updateLabel on a request without event_ids. *)
Lemma updateLabel_try_keeping (id : Z) (data : UpdateLabel.t) (w : World) :
  UpdateLabel.event_ids data = None ->
  updateLabel_try unique BigInt id data w =
  let d := db w in
  match find_label d id with
  | None => (Throw (PrismaClientKnownRequestError "P2025"), logged w d [LabelUpdate])
  | Some l =>
      let u := keeping data in
      let d' := updated_db d id u (label_events d) in
      let label := include_events d' (update_row u l) in
      let sorted := sort by_event_timestamp (Included.events label) in
      (Return (to_Label label sorted (map (fun e => Event.image_path (snd e)) sorted)),
       logged w d' [LabelUpdate])
  end.
Proof.
  intros Hnone.
  unfold updateLabel_try, updateLabel_events, bind, ret, label_update, prisma, logged.
  rewrite Hnone. cbv zeta. simpl.
  destruct (find_label (db w) id) as [l|]; reflexivity.
Qed.

(** What an updateLabel call that returns has done. *)
Lemma updateLabel_returned (id : Z) (data : UpdateLabel.t) (w w' : World) (r : Label.t) :
  updateLabel unique BigInt id data w = (Return r, w') ->
  exists l repl rows' evs paths,
    find_label (db w) id = Some l
    /\ let u := LabelUpdateInput.mk (UpdateLabel.label_type data)
                  (UpdateLabel.notes data) repl
                  (update_upsert (UpdateLabel.label_type data) (UpdateLabel.subs data)) in
       db w' = updated_db (db w) id u rows'
       /\ r = to_Label (include_events (db w') (update_row u l)) evs paths.
Proof.
  intros H. apply updateLabel_Return in H.
  unfold updateLabel_try, bind in H.
  pose proof (updateLabel_events_db BigInt (UpdateLabel.event_ids data) w) as Hdb.
  destruct (updateLabel_events BigInt (UpdateLabel.event_ids data) w)
    as [[[paths repl]|e] w1]; simpl in Hdb; [|discriminate].
  unfold label_update, prisma in H. rewrite Hdb in H.
  destruct (find_label (db w) id) as [l|] eqn:Hl; [|discriminate].
  destruct (match repl with
            | Some ids => _
            | None => _
            end) as [rows'|e]; [|discriminate].
  exists l, repl, rows'.
  destruct (UpdateLabel.event_ids data); unfold ret in H; injection H as <- <-;
    eexists; eexists; (split; [reflexivity|]); cbv zeta; split; reflexivity.
Qed.

(** A failing [try] block of updateLabel has not written. *)
Lemma updateLabel_try_Throw_db (id : Z) (data : UpdateLabel.t) (w w' : World) (e : Exn) :
  updateLabel_try unique BigInt id data w = (Throw e, w') -> db w' = db w.
Proof.
  unfold updateLabel_try, bind.
  pose proof (updateLabel_events_db BigInt (UpdateLabel.event_ids data) w) as Hdb.
  destruct (updateLabel_events BigInt (UpdateLabel.event_ids data) w)
    as [[[paths repl]|e0] w1]; simpl in Hdb; [|now intros [= _ <-]].
  unfold label_update, prisma.
  destruct (find_label (db w1) id) as [l|]; [|now intros [= _ <-]].
  destruct (match repl with
            | Some ids => _
            | None => _
            end) as [rows'|e0]; [|now intros [= _ <-]].
  destruct (UpdateLabel.event_ids data); discriminate.
Qed.

Lemma find_label_missing (d : Database) (id : Z) :
  (forall l, In l (labels d) -> LabelRow.id l <> id) -> find_label d id = None.
Proof.
  intros Hno. destruct (find_label d id) as [l|] eqn:F; [|reflexivity].
  exfalso. unfold find_label in F. apply find_some in F as [Hin E].
  apply Z.eqb_eq in E. now apply (Hno l).
Qed.

(** X10: updateLabel on an id no label has fails with the not-found error
    (404, 'Label not found') and writes nothing, be it called without
    event_ids or with event_ids that are distinct and all have their
    event. *)
Theorem updateLabel_missing_label
    (id : Z) (data : UpdateLabel.t) (w : World) :
  well_formed (db w) = true ->
  (forall l, In l (labels (db w)) -> LabelRow.id l <> id) ->
  (UpdateLabel.event_ids data = None ->
   updateLabel unique BigInt id data w
   = (Throw (AppError "Label not found" 404), logged w (db w) [LabelUpdate]))
  /\ (forall strs ids,
        UpdateLabel.event_ids data = Some strs ->
        map_throwing (parse_event_id BigInt) strs = Return ids ->
        distinct ids = true ->
        forallb (event_exists (db w)) ids = true ->
        updateLabel unique BigInt id data w
        = (Throw (AppError "Label not found" 404),
           logged w (db w) [EventFindMany; LabelUpdate])).
Proof.
  intros Hwf Hno. pose proof (find_label_missing (db w) id Hno) as Hnone. split.
  - intros Hids. unfold updateLabel, try_catch.
    rewrite (updateLabel_try_keeping id data w Hids). cbv zeta. now rewrite Hnone.
  - intros strs ids Hids Hparse Hdist Hall.
    unfold updateLabel, try_catch.
    rewrite (updateLabel_try_replacing unique BigInt id data w strs ids Hids Hparse).
    cbv zeta.
    rewrite (found_length_eq (db w) ids Hwf Hdist Hall), Nat.eqb_refl. simpl.
    now rewrite Hnone.
Qed.

(** X11: updateLabel, given event_ids with an id that has no event, fails
    with the generic failure (500, 'Failed to update label') and writes
    nothing, whether the label exists or not: as in createLabel, the 404
    'One or more events not found' thrown in the try block does not leave
    it. *)
Theorem updateLabel_missing_event
    (id : Z) (data : UpdateLabel.t) (w : World) (strs : list string)
    (ids : list Z) (i : Z) :
  well_formed (db w) = true ->
  UpdateLabel.event_ids data = Some strs ->
  map_throwing (parse_event_id BigInt) strs = Return ids ->
  In i ids -> event_exists (db w) i = false ->
  updateLabel unique BigInt id data w
  = (Throw (AppError "Failed to update label" 500), logged w (db w) [EventFindMany]).
Proof.
  intros Hwf Hids Hparse Hin Hmiss.
  apply well_formed_elim in Hwf as (Hpk & _ & _).
  pose proof (found_length_missing (db w) ids i Hpk Hin Hmiss) as Hlt.
  unfold updateLabel, try_catch.
  rewrite (updateLabel_try_replacing unique BigInt id data w strs ids Hids Hparse).
  cbv zeta.
  replace (Nat.eqb (List.length (found (db w) ids)) (List.length ids)) with false
    by (symmetry; apply Nat.eqb_neq; lia).
  reflexivity.
Qed.

(** X12: an updateLabel call that fails has written nothing, and the
    error it throws is the not-found error of the label (404, 'Label not
    found') or the generic failure (500). *)
Theorem updateLabel_failure
    (id : Z) (data : UpdateLabel.t) (w w' : World) (e : Exn) :
  updateLabel unique BigInt id data w = (Throw e, w') ->
  db w' = db w
  /\ (e = AppError "Label not found" 404
      \/ e = AppError "Failed to update label" 500).
Proof.
  unfold updateLabel, try_catch.
  destruct (updateLabel_try unique BigInt id data w) as [[r|e0] w1] eqn:Htry;
    [discriminate|].
  pose proof (updateLabel_try_Throw_db id data w w1 e0 Htry) as Hdb.
  unfold not_found_or.
  destruct e0 as [m c|code| | |]; try (intros [= <- <-]; split; [exact Hdb|now right]).
  destruct (String.eqb code "P2025"); intros [= <- <-];
    (split; [exact Hdb|]); [now left|now right].
Qed.

(** X13: updateLabel with an empty event_ids list on an existing label
    succeeds, when the join table accepts the rows of the other labels,
    and leaves the label without any event: the length check passes for
    no id, every join row of the label is deleted and none is created. *)
Theorem updateLabel_empty_event_ids
    (id : Z) (data : UpdateLabel.t) (w : World) (l : LabelRow.t) :
  find_label (db w) id = Some l ->
  UpdateLabel.event_ids data = Some [] ->
  unique (rows_of_others (db w) id) = true ->
  exists r w',
    updateLabel unique BigInt id data w = (Return r, w')
    /\ associations (db w') id = []
    /\ Label.event_ids r = []
    /\ Label.image_paths r = [].
Proof.
  intros Hl Hids Hu.
  unfold updateLabel, try_catch.
  rewrite (updateLabel_try_replacing unique BigInt id data w [] [] Hids eq_refl).
  cbv zeta. rewrite found_nil. simpl. rewrite Hl.
  unfold connect_events. simpl. rewrite app_nil_r, Hu.
  eexists. eexists. split; [reflexivity|].
  pose proof (rows_of_label_replaced (db w) id (replacing data []) []) as Hrows.
  simpl in Hrows. rewrite app_nil_r in Hrows.
  split; [|split].
  - unfold associations. simpl db. now rewrite Hrows.
  - unfold to_Label, include_events. simpl Label.event_ids.
    rewrite (find_label_id (db w) id l Hl), Hrows. reflexivity.
  - reflexivity.
Qed.

(** X14: updateLabel is a partial update of the label row: the returned
    label has the id, author, creation time, start_time and end_time of
    the stored label; its label_type and its notes are those of the
    request when the request has them (notes may be set to null), the
    stored ones otherwise. *)
Theorem updateLabel_partial_update
    (id : Z) (data : UpdateLabel.t) (w w' : World) (r : Label.t) :
  updateLabel unique BigInt id data w = (Return r, w') ->
  exists l,
    find_label (db w) id = Some l
    /\ Label.id r = id
    /\ Label.created_by r = LabelRow.created_by l
    /\ Label.created_at r = LabelRow.created_at l
    /\ Label.start_time r = BigInt_toString (LabelRow.start_time l)
    /\ Label.end_time r = BigInt_toString (LabelRow.end_time l)
    /\ Label.label_type r
       = match UpdateLabel.label_type data with
         | Some t => t
         | None => LabelRow.label_type l
         end
    /\ Label.notes r
       = match UpdateLabel.notes data with
         | Some n => n
         | None => LabelRow.notes l
         end.
Proof.
  intros H.
  destruct (updateLabel_returned id data w w' r H)
    as (l & repl & rows' & evs & paths & Hl & _ & ->).
  exists l. split; [exact Hl|]. simpl.
  split; [exact (find_label_id (db w) id l Hl)|]. repeat split.
Qed.

(** X15: updateLabel with a label_type and the sub-record of that type
    upserts that sub-record and touches no other.  Column by column: a
    column sent (and, for sports, among the four handed on) has the value
    sent; every other column has the value stored, and none when the
    label had no sub-record of the type.  The sub-records of all other
    types stay, the one of the former type of the label included. *)
Theorem updateLabel_upsert
    (id : Z) (data : UpdateLabel.t) (w w' : World) (r : Label.t)
    (k : LabelType) (f : Fields) :
  UpdateLabel.label_type data = Some k ->
  Subs.get k (UpdateLabel.subs data) = Some f ->
  updateLabel unique BigInt id data w = (Return r, w') ->
  exists l f',
    find_label (db w) id = Some l
    /\ Label.label_type r = k
    /\ Subs.get k (Label.subs r) = Some f'
    /\ (forall name,
          field name f'
          = match (if handed_on k name then field name f else None) with
            | Some v => Some v
            | None => match Subs.get k (LabelRow.subs l) with
                      | Some stored => field name stored
                      | None => None
                      end
            end)
    /\ forall k', LabelType_eqb k' k = false ->
                  Subs.get k' (Label.subs r) = Subs.get k' (LabelRow.subs l).
Proof.
  intros Ht Hf H.
  destruct (updateLabel_returned id data w w' r H)
    as (l & repl & rows' & evs & paths & Hl & _ & ->).
  exists l. eexists. split; [exact Hl|]. simpl.
  rewrite Ht, (update_upsert_present k _ f Hf).
  split; [reflexivity|]. split; [|split].
  - rewrite Subs_get_set. destruct k; reflexivity.
  - intros name. now rewrite field_upsert, field_payload.
  - intros k' Hk'. now rewrite Subs_get_set, Hk'.
Qed.

(** X16: whatever an updateLabel call on label [id] does, it leaves the
    other labels: for every other id, the stored label and its
    associations are as before; and it never writes the event table. *)
Theorem updateLabel_frame
    (id : Z) (data : UpdateLabel.t) (w : World) (lid : Z) :
  lid <> id ->
  let w' := snd (updateLabel unique BigInt id data w) in
  find_label (db w') lid = find_label (db w) lid
  /\ associations (db w') lid = associations (db w) lid
  /\ events (db w') = events (db w).
Proof.
  intros Hne w'. unfold w'.
  destruct (updateLabel_db unique BigInt id data w)
    as [->|(l & u & rows' & Hl & Hrows & ->)]; [repeat split|].
  split; [now apply find_label_updated_other|]. split; [|reflexivity].
  unfold associations, rows_of_label. simpl. f_equal.
  destruct Hrows as [->|[ids ->]]; [reflexivity|].
  now apply rows_of_label_other.
Qed.

(** X17: when updateLabel replaces the events, the image_paths it returns
    are those of the new events in ascending order of timestamp. *)
Theorem updateLabel_image_paths
    (id : Z) (data : UpdateLabel.t) (w w' : World) (r : Label.t)
    (strs : list string) (ids : list Z) :
  well_formed (db w) = true ->
  UpdateLabel.event_ids data = Some strs ->
  map_throwing (parse_event_id BigInt) strs = Return ids ->
  updateLabel unique BigInt id data w = (Return r, w') ->
  exists es,
    Permutation (map Event.id es) ids
    /\ Forall (fun e => In e (events (db w))) es
    /\ ascending es
    /\ Label.image_paths r = map Event.image_path es.
Proof.
  intros Hwf Hids Hparse H. apply updateLabel_Return in H.
  rewrite (updateLabel_try_replacing unique BigInt id data w strs ids Hids Hparse) in H.
  cbv zeta in H.
  destruct (Nat.eqb (List.length (found (db w) ids)) (List.length ids)) eqn:Hlen;
    simpl in H; [|discriminate].
  apply Nat.eqb_eq in Hlen.
  destruct (find_label (db w) id) as [l|]; [|discriminate].
  unfold connect_events in H.
  destruct (forallb (event_exists (db w)) ids) eqn:Hall; simpl in H; [|discriminate].
  destruct (unique _); [|discriminate].
  injection H as <- _.
  pose proof (well_formed_elim (db w) Hwf) as (Hpk & _ & Hsafe).
  exists (sort by_timestamp (found (db w) ids)).
  assert (Hperm : Permutation (sort by_timestamp (found (db w) ids)) (found (db w) ids))
    by apply sort_perm.
  split; [|split; [|split; [|reflexivity]]].
  - rewrite Hperm. apply found_ids_perm; [assumption| |].
    + now apply (found_length_distinct (db w)).
    + intros i Hi. rewrite forallb_forall in Hall. now apply Hall.
  - rewrite Forall_forall. intros e He. eapply Permutation_in in He; [|exact Hperm].
    now apply found_refers_to in He as [He _].
  - unfold ascending.
    rewrite <- (map_id (sort by_timestamp (found (db w) ids))).
    apply StronglySorted_map_In
      with (R := fun a b => Number_of_BigInt (Event.timestamp a)
                            <= Number_of_BigInt (Event.timestamp b)).
    + intros a b Ha Hb.
      assert (Hev : forall x, In x (sort by_timestamp (found (db w) ids)) ->
                              In x (events (db w))).
      { intros x Hx. eapply Permutation_in in Hx; [|exact Hperm].
        now apply found_refers_to in Hx as [Hx _]. }
      rewrite !Number_of_BigInt_safe; [trivial| |]; apply Hsafe; now apply Hev.
    + exact (sort_sorted (fun e => Number_of_BigInt (Event.timestamp e))
                         (found (db w) ids)).
Qed.
End UpdateLabelMore.

(** ** Deleting labels *)

Lemma rows_of_others_own (d : Database) (id : Z) :
  filter (fun le => LabelEvent.label_id le =? id) (rows_of_others d id) = [].
Proof.
  unfold rows_of_others.
  induction (label_events d) as [|le rows IH]; simpl; [reflexivity|].
  destruct (LabelEvent.label_id le =? id) eqn:E; simpl; [exact IH|].
  now rewrite E.
Qed.

Lemma filter_twice {A} (p q : A -> bool) (l : list A) :
  filter q (filter p l) = filter (fun x => p x && q x) l.
Proof.
  induction l as [|x l IH]; simpl; [reflexivity|].
  destruct (p x); simpl; [|exact IH]. destruct (q x); [now f_equal|exact IH].
Qed.

Lemma mem_app (x : Z) (a b : list Z) : mem x (a ++ b) = mem x a || mem x b.
Proof. unfold mem. apply existsb_app. Qed.

(** X18: deleteLabel on the id of a label returns, removes the label and
    its join rows, and leaves every other label with its associations, and
    the events; deleting the same id once more fails with the not-found
    error (404). *)
Theorem deleteLabel_existing (id : Z) (w : World) (l : LabelRow.t) :
  find_label (db w) id = Some l ->
  exists w',
    deleteLabel id w = (Return tt, w')
    /\ (forall l', In l' (labels (db w')) <->
                   In l' (labels (db w)) /\ LabelRow.id l' <> id)
    /\ associations (db w') id = []
    /\ (forall lid, lid <> id -> associations (db w') lid = associations (db w) lid)
    /\ events (db w') = events (db w)
    /\ deleteLabel id w'
       = (Throw (AppError "Label not found" 404), logged w' (db w') [LabelDelete]).
Proof.
  intros Hl. unfold deleteLabel at 1. unfold try_catch, label_delete, prisma.
  rewrite Hl. eexists. split; [reflexivity|]. cbn [db labels label_events events].
  assert (Hlabels : forall l', In l' (filter (fun l0 => negb (LabelRow.id l0 =? id))
                                             (labels (db w)))
                               <-> In l' (labels (db w)) /\ LabelRow.id l' <> id).
  { intros l'. rewrite filter_In, negb_true_iff, Z.eqb_neq. tauto. }
  split; [exact Hlabels|]. split; [|split; [|split; [reflexivity|]]].
  - unfold associations, rows_of_label. cbn [label_events].
    fold (rows_of_others (db w) id). now rewrite rows_of_others_own.
  - intros lid Hne. unfold associations, rows_of_label. cbn [label_events].
    f_equal. fold (rows_of_others (db w) id).
    pose proof (rows_of_label_other (db w) id lid [] Hne) as H.
    simpl in H. now rewrite app_nil_r in H.
  - unfold deleteLabel, try_catch, label_delete, prisma. cbn [db].
    rewrite find_label_missing; [reflexivity|].
    intros l' Hl'. cbn [labels] in Hl'. now apply Hlabels in Hl'.
Qed.

(** X19: deleteLabelsBulk composes: deleting the ids of two lists at once
    leaves the tables that deleting the first list and then the second
    leaves; deleting a list twice leaves what deleting it once leaves; and
    no call fails. *)
Theorem deleteLabelsBulk_compose (a b : list Z) (w : World) :
  db (snd (deleteLabelsBulk (a ++ b) w))
  = db (snd (deleteLabelsBulk b (snd (deleteLabelsBulk a w))))
  /\ db (snd (deleteLabelsBulk a (snd (deleteLabelsBulk a w))))
     = db (snd (deleteLabelsBulk a w))
  /\ fst (deleteLabelsBulk a w) = Return tt.
Proof.
  unfold deleteLabelsBulk, try_catch, bind, label_deleteMany, prisma, ret.
  cbn [fst snd db devices events labels label_events next_label_id now].
  split; [|split; [|reflexivity]].
  - f_equal.
    + rewrite filter_twice. apply filter_ext. intros l.
      now rewrite mem_app, negb_orb.
    + rewrite filter_twice. apply filter_ext. intros le.
      now rewrite mem_app, negb_orb.
  - f_equal.
    + rewrite filter_twice. apply filter_ext. intros l. apply andb_diag.
    + rewrite filter_twice. apply filter_ext. intros le. apply andb_diag.
Qed.

(** X20: on the id of a label, deleteLabelsBulk of that one id and
    deleteLabel leave the same tables. *)
Theorem deleteLabelsBulk_single (id : Z) (w : World) (l : LabelRow.t) :
  find_label (db w) id = Some l ->
  db (snd (deleteLabelsBulk [id] w)) = db (snd (deleteLabel id w)).
Proof.
  intros Hl.
  unfold deleteLabelsBulk, deleteLabel, try_catch, bind, label_deleteMany,
    label_delete, prisma, ret.
  rewrite Hl. cbn [fst snd db].
  f_equal; apply filter_ext; intros x; unfold mem; simpl;
    rewrite orb_false_r; f_equal; apply Z.eqb_sym.
Qed.

(** ** The program guide, beyond the claims *)

(** X21: the program guide depends on the day of the date only: two dates
    of the same UTC day give the same answer, for every device, existing
    or not. *)
Theorem getProgramGuideByDate_same_day
    (date date' : Date) (deviceId : string) (order : SortOrder) (w : World) :
  date / 86400000 = date' / 86400000 ->
  getProgramGuideByDate date deviceId order w
  = getProgramGuideByDate date' deviceId order w.
Proof.
  intros Hday.
  unfold getProgramGuideByDate, setUTCHours_0_0_0_0, setUTCHours_23_59_59_999.
  now rewrite (start_of_day date), (start_of_day date'), Hday.
Qed.

(** X22: for an existing device and a date whose UTC day lies within the
    range of Date, the program guide is read without a write and has one
    guide entry for each of the labels it lists; these labels have an
    event on the device and come ordered by start_time, in the direction
    asked for. *)
Theorem getProgramGuideByDate_ordered
    (date : Date) (deviceId : string) (order : SortOrder) (w : World) :
  In deviceId (devices (db w)) ->
  day_in_range date ->
  exists rows out,
    getProgramGuideByDate date deviceId order w
    = (Return out, logged w (db w) [DeviceFindUnique; LabelFindMany])
    /\ Forall2 (guide_entry (db w)) rows out
    /\ StronglySorted (in_order order LabelRow.start_time) rows
    /\ Forall (fun l => In l (labels (db w)) /\ on_device (db w) deviceId l = true) rows.
Proof.
  intros Hin Hr. eexists. eexists.
  split; [exact (getProgramGuideByDate_run date deviceId order w Hin Hr)|].
  split; [apply Forall2_map_r; intros l; apply to_ProgramGuideLabel_entry|].
  split; [apply sort_in_order|].
  rewrite Forall_forall. intros l Hl.
  eapply Permutation_in in Hl; [|apply sort_perm].
  apply filter_In in Hl as [Hl Hmatch]. split; [exact Hl|].
  unfold label_matches in Hmatch.
  apply andb_prop in Hmatch as [Hmatch _].
  apply andb_prop in Hmatch as [_ Hmatch].
  cbn [programGuide_where LabelWhere.events_some_device_id holds] in Hmatch.
  now rewrite <- has_event_on_device.
Qed.

(** X23: a label with ordered bounds and an event on an existing device
    has its guide entry in the program guide of that device for every
    date, with its UTC day within the range of Date, from the day of its
    start_time to the day of its end_time. *)
Theorem getProgramGuideByDate_every_day
    (date : Date) (deviceId : string) (order : SortOrder) (w : World)
    (l : LabelRow.t) :
  In deviceId (devices (db w)) ->
  day_in_range date ->
  In l (labels (db w)) ->
  on_device (db w) deviceId l = true ->
  LabelRow.start_time l <= LabelRow.end_time l ->
  (LabelRow.start_time l * 1000) / 86400000 <= date / 86400000 ->
  date / 86400000 <= (LabelRow.end_time l * 1000) / 86400000 ->
  exists out w' g,
    getProgramGuideByDate date deviceId order w = (Return out, w')
    /\ In g out
    /\ guide_entry (db w) l g.
Proof.
  intros Hin Hr Hl Hdev Hord Hfrom Hto.
  eexists. eexists. exists (to_ProgramGuideLabel (include_events (db w) l)).
  split; [exact (getProgramGuideByDate_run date deviceId order w Hin Hr)|].
  split; [|apply to_ProgramGuideLabel_entry].
  apply in_map_iff. exists l. split; [reflexivity|].
  eapply Permutation_in; [symmetry; apply sort_perm|].
  apply filter_In. split; [exact Hl|].
  rewrite (programGuide_where_overlaps (db w) date deviceId l Hord), Hdev.
  unfold overlaps_UTC_day. cbv zeta. simpl.
  set (day := date / 86400000) in *.
  pose proof (Z.div_mod (LabelRow.start_time l * 1000) 86400000 ltac:(lia)) as Hs.
  pose proof (Z.mod_pos_bound (LabelRow.start_time l * 1000) 86400000 ltac:(lia)) as Hsb.
  pose proof (Z.div_mod (LabelRow.end_time l * 1000) 86400000 ltac:(lia)) as He.
  pose proof (Z.mod_pos_bound (LabelRow.end_time l * 1000) 86400000 ltac:(lia)) as Heb.
  apply andb_true_intro. split; apply Z.leb_le; lia.
Qed.

(** ** The validation middleware *)

Lemma or_validation_failed_nonempty (m : option string) :
  or_validation_failed m <> "".
Proof.
  unfold or_validation_failed, if_truthy_string.
  destruct m as [[|c t]|]; simpl; discriminate.
Qed.

(** X24: the validation middleware returns only when the schema accepts
    the body and the rest of the chain returns; whatever is thrown inside
    it, by the schema or by the chain, leaves it as an AppError of status
    400 with a non-empty message, and the chain is not run on a body that
    the schema refuses. *)
Theorem validate_outcome {Body Req : Type}
    (schema_parse : Body -> option Caught) (next : Req -> option Caught * Req)
    (body : Body) (s s' : Req) (r : Outcome unit) :
  validate schema_parse next body s = (r, s') ->
  match r with
  | Return _ => schema_parse body = None /\ next s = (None, s')
  | Throw e =>
      (exists message, e = AppError message 400 /\ message <> "")
      /\ (schema_parse body <> None -> s' = s)
      /\ (schema_parse body = None -> s' = snd (next s))
  end.
Proof.
  unfold validate. intros H.
  destruct (schema_parse body) as [error|] eqn:P.
  - destruct error as [issues|m]; inversion H; subst; clear H;
      (split; [eexists; split; [reflexivity|apply or_validation_failed_nonempty]|]);
      split; [reflexivity|discriminate|reflexivity|discriminate].
  - destruct (next s) as [[error|] s1] eqn:N.
    + destruct error as [issues|m]; inversion H; subst; clear H;
        (split; [eexists; split; [reflexivity|apply or_validation_failed_nonempty]|]);
        split; [congruence|reflexivity|congruence|reflexivity].
    + inversion H; subst. now split.
Qed.

(** ** The further properties on the sample data *)

(** X1 on the sample: "x" is no numeral. *)
Lemma createLabel_malformed_id_sample :
  createLabel composite_key_unique BigInt_decimal (sample_create ["1"; "x"]) sample_world
  = (Throw (AppError "Failed to create label" 500), sample_world).
Proof.
  apply (createLabel_malformed_id composite_key_unique BigInt_decimal
           (sample_create ["1"; "x"]) sample_world "x").
  - simpl. auto.
  - reflexivity.
Defined.

(** X2 on the sample: the conflict on event 2 leaves the tables as they
    were; the id 2 is spent. *)
Lemma createLabel_failure_sample :
  same_tables (db labelled_world)
    (db (logged labelled_world (id_drawn labelled_db) [EventFindMany; LabelCreate]))
  /\ (next_label_id (db (logged labelled_world (id_drawn labelled_db)
                           [EventFindMany; LabelCreate]))
      = next_label_id (db labelled_world)
      \/ next_label_id (db (logged labelled_world (id_drawn labelled_db)
                              [EventFindMany; LabelCreate]))
         = next_label_id (db labelled_world) + 1)
  /\ (AppError "Label already exists for one or more events" 400
      = AppError "Label already exists for one or more events" 400
      \/ AppError "Label already exists for one or more events" 400
         = AppError "Failed to create label" 500).
Proof.
  apply (createLabel_failure one_label_per_event BigInt_decimal
           (sample_create ["2"; "3"]) labelled_world).
  reflexivity.
Defined.

(** X3 on the sample: a song label on the events 1 and 3. *)
Lemma createLabel_echo_and_sub_record_sample :
  exists r w',
    createLabel composite_key_unique BigInt_decimal (sample_create ["1"; "3"]) sample_world
    = (Return r, w')
    /\ Label.label_type r = Song
    /\ Label.created_by r = "ann"
    /\ Label.notes r = Some "note"
    /\ Label.created_at r = 1700000000000
    /\ forall k, Subs.get k (Label.subs r)
                 = if LabelType_eqb k Song
                   then Subs.get k (CreateLabel.subs (sample_create ["1"; "3"]))
                   else None.
Proof.
  eexists. eexists. split; [reflexivity|].
  eapply (createLabel_echo_and_sub_record composite_key_unique BigInt_decimal
            (sample_create ["1"; "3"]) sample_world).
  reflexivity.
Defined.

(** X4 on the sample: event 3 is older than event 1. *)
Lemma createLabel_event_ids_aligned_sample :
  exists r w',
    createLabel composite_key_unique BigInt_decimal (sample_create ["1"; "3"]) sample_world
    = (Return r, w')
    /\ exists es,
         Forall (fun e => In e (events (db sample_world))) es
         /\ ascending es
         /\ Label.event_ids r = map (fun e => BigInt_toString (Event.id e)) es
         /\ Label.image_paths r = map Event.image_path es.
Proof.
  eexists. eexists. split; [reflexivity|].
  eapply (createLabel_event_ids_aligned composite_key_unique BigInt_decimal
            (sample_create ["1"; "3"]) sample_world).
  - reflexivity.
  - reflexivity.
Defined.

(** X5 on the sample. *)
Lemma createLabel_then_deleteLabel_sample :
  exists r w',
    createLabel composite_key_unique BigInt_decimal (sample_create ["1"; "3"]) sample_world
    = (Return r, w')
    /\ exists w'',
         deleteLabel (Label.id r) w' = (Return tt, w'')
         /\ labels (db w'') = labels (db sample_world)
         /\ label_events (db w'') = label_events (db sample_world)
         /\ events (db w'') = events (db sample_world).
Proof.
  eexists. eexists. split; [reflexivity|].
  eapply (createLabel_then_deleteLabel composite_key_unique BigInt_decimal
            (sample_create ["1"; "3"]) sample_world).
  - reflexivity.
  - reflexivity.
Defined.

(** X6 on the sample: with the events 1 and 3 labelled, event 2 is the
    one left on the page. *)
Lemma createLabel_then_getUnlabeledEvents_sample :
  exists r w' p w'',
    createLabel composite_key_unique BigInt_decimal (sample_create ["1"; "3"]) sample_world
    = (Return r, w')
    /\ getUnlabeledEvents sample_unlabeled_options w' = (Return p, w'')
    /\ In (to_EventOut (Event.mk 2 "dev-1" 100 "ad" (Some "a.jpg"))) (Page.items p)
    /\ ~ In (EventOut.id (to_EventOut (Event.mk 2 "dev-1" 100 "ad" (Some "a.jpg"))))
            (Label.event_ids r).
Proof.
  eexists. eexists. eexists. eexists.
  split; [reflexivity|]. split; [reflexivity|]. split; [simpl; auto|].
  eapply (createLabel_then_getUnlabeledEvents composite_key_unique BigInt_decimal
            (sample_create ["1"; "3"]) sample_world _ _ _ sample_unlabeled_options).
  - reflexivity.
  - reflexivity.
  - simpl. auto.
Defined.

(** X7 on the sample. *)
Lemma createLabel_then_getLabels_sample :
  exists r w',
    createLabel composite_key_unique BigInt_decimal (sample_create ["1"; "3"]) sample_world
    = (Return r, w')
    /\ exists p w'' item,
         getLabels (unfiltered 5) w' = (Return p, w'')
         /\ In item (Page.items p)
         /\ Label.id item = Label.id r
         /\ Label.label_type item = Label.label_type r
         /\ Label.created_by item = Label.created_by r
         /\ Label.created_at item = Label.created_at r
         /\ Label.start_time item = Label.start_time r
         /\ Label.end_time item = Label.end_time r
         /\ Label.notes item = Label.notes r
         /\ Label.image_paths item = Label.image_paths r
         /\ Label.subs item = Label.subs r
         /\ Permutation (Label.event_ids item) (Label.event_ids r).
Proof.
  eexists. eexists. split; [reflexivity|].
  eapply (createLabel_then_getLabels composite_key_unique BigInt_decimal
            (sample_create ["1"; "3"]) sample_world).
  - reflexivity.
  - simpl. lia.
Defined.



(** X10 on the sample: no label has id 7. *)
Lemma updateLabel_missing_label_sample :
  updateLabel composite_key_unique BigInt_decimal 7 sample_song_only labelled_world
  = (Throw (AppError "Label not found" 404),
     logged labelled_world (db labelled_world) [LabelUpdate])
  /\ updateLabel composite_key_unique BigInt_decimal 7 (sample_replace ["1"; "3"])
       labelled_world
     = (Throw (AppError "Label not found" 404),
        logged labelled_world (db labelled_world) [EventFindMany; LabelUpdate]).
Proof.
  split.
  - destruct (updateLabel_missing_label composite_key_unique BigInt_decimal 7
                sample_song_only labelled_world) as [Hnone _].
    + reflexivity.
    + intros l [<-|[]]. discriminate.
    + apply Hnone. reflexivity.
  - destruct (updateLabel_missing_label composite_key_unique BigInt_decimal 7
                (sample_replace ["1"; "3"]) labelled_world) as [_ Hsome].
    + reflexivity.
    + intros l [<-|[]]. discriminate.
    + apply (Hsome ["1"; "3"] [1; 3]); reflexivity.
Defined.

(** X11 on the sample: no event has id 9. *)
Lemma updateLabel_missing_event_sample :
  updateLabel composite_key_unique BigInt_decimal 1 (sample_replace ["1"; "9"]) labelled_world
  = (Throw (AppError "Failed to update label" 500),
     logged labelled_world (db labelled_world) [EventFindMany]).
Proof.
  apply (updateLabel_missing_event composite_key_unique BigInt_decimal 1
           (sample_replace ["1"; "9"]) labelled_world ["1"; "9"] [1; 9] 9).
  - reflexivity.
  - reflexivity.
  - reflexivity.
  - simpl. auto.
  - reflexivity.
Defined.

(** X12 on the sample: the update of label 7 fails and writes nothing. *)
Lemma updateLabel_failure_sample :
  db (logged labelled_world labelled_db [LabelUpdate]) = db labelled_world
  /\ (AppError "Label not found" 404 = AppError "Label not found" 404
      \/ AppError "Label not found" 404 = AppError "Failed to update label" 500).
Proof.
  apply (updateLabel_failure composite_key_unique BigInt_decimal 7 sample_song_only
           labelled_world).
  reflexivity.
Defined.

(** X13 on the sample: label 1 is taken off event 2. *)
Lemma updateLabel_empty_event_ids_sample :
  exists r w',
    updateLabel composite_key_unique BigInt_decimal 1 (sample_replace []) labelled_world
    = (Return r, w')
    /\ associations (db w') 1 = []
    /\ Label.event_ids r = []
    /\ Label.image_paths r = [].
Proof.
  apply (updateLabel_empty_event_ids composite_key_unique BigInt_decimal 1
           (sample_replace []) labelled_world sample_label_row).
  - reflexivity.
  - reflexivity.
  - reflexivity.
Defined.

(** X14 on the sample: label 1 becomes an ad without notes; its author
    and times stay. *)
Lemma updateLabel_partial_update_sample :
  exists r w',
    updateLabel composite_key_unique BigInt_decimal 1 sample_retype labelled_world
    = (Return r, w')
    /\ exists l,
         find_label (db labelled_world) 1 = Some l
         /\ Label.id r = 1
         /\ Label.created_by r = LabelRow.created_by l
         /\ Label.created_at r = LabelRow.created_at l
         /\ Label.start_time r = BigInt_toString (LabelRow.start_time l)
         /\ Label.end_time r = BigInt_toString (LabelRow.end_time l)
         /\ Label.label_type r = Ad
         /\ Label.notes r = None.
Proof.
  eexists. eexists. split; [reflexivity|].
  eapply (updateLabel_partial_update composite_key_unique BigInt_decimal 1
            sample_retype labelled_world).
  reflexivity.
Defined.

(** X15 on the sample: the artist is added to the song sub-record of
    label 1, whose title stays. *)
Lemma updateLabel_upsert_sample :
  exists r w',
    updateLabel composite_key_unique BigInt_decimal 1 sample_song_upsert labelled_world
    = (Return r, w')
    /\ exists l f',
         find_label (db labelled_world) 1 = Some l
         /\ Label.label_type r = Song
         /\ Subs.get Song (Label.subs r) = Some f'
         /\ (forall name,
               field name f'
               = match (if handed_on Song name then field name [("artist", "a")]
                        else None) with
                 | Some v => Some v
                 | None => match Subs.get Song (LabelRow.subs l) with
                           | Some stored => field name stored
                           | None => None
                           end
                 end)
         /\ forall k', LabelType_eqb k' Song = false ->
                       Subs.get k' (Label.subs r) = Subs.get k' (LabelRow.subs l).
Proof.
  eexists. eexists. split; [reflexivity|].
  eapply (updateLabel_upsert composite_key_unique BigInt_decimal 1
            sample_song_upsert labelled_world).
  - reflexivity.
  - reflexivity.
  - reflexivity.
Defined.

(** X16 on the sample: moving label 2 to event 3 alone leaves label 1 as
    it was. *)
Lemma updateLabel_frame_sample :
  let w' := snd (updateLabel composite_key_unique BigInt_decimal 2 (sample_replace ["3"])
                   two_labels_world) in
  find_label (db w') 1 = find_label (db two_labels_world) 1
  /\ associations (db w') 1 = associations (db two_labels_world) 1
  /\ events (db w') = events (db two_labels_world).
Proof.
  apply (updateLabel_frame composite_key_unique BigInt_decimal 2 (sample_replace ["3"])
           two_labels_world 1).
  discriminate.
Defined.

(** X17 on the sample: the image paths of the events 3 and 1, in this
    order. *)
Lemma updateLabel_image_paths_sample :
  exists r w',
    updateLabel composite_key_unique BigInt_decimal 1 (sample_replace ["1"; "3"])
      labelled_world = (Return r, w')
    /\ exists es,
         Permutation (map Event.id es) [1; 3]
         /\ Forall (fun e => In e (events (db labelled_world))) es
         /\ ascending es
         /\ Label.image_paths r = map Event.image_path es.
Proof.
  eexists. eexists. split; [reflexivity|].
  eapply (updateLabel_image_paths composite_key_unique BigInt_decimal 1
            (sample_replace ["1"; "3"]) labelled_world _ _ ["1"; "3"] [1; 3]).
  - reflexivity.
  - reflexivity.
  - reflexivity.
  - reflexivity.
Defined.

(** X18 on the sample: label 1 of the two labels is deleted. *)
Lemma deleteLabel_existing_sample :
  exists w',
    deleteLabel 1 two_labels_world = (Return tt, w')
    /\ (forall l', In l' (labels (db w')) <->
                   In l' (labels (db two_labels_world)) /\ LabelRow.id l' <> 1)
    /\ associations (db w') 1 = []
    /\ (forall lid, lid <> 1 ->
                    associations (db w') lid = associations (db two_labels_world) lid)
    /\ events (db w') = events (db two_labels_world)
    /\ deleteLabel 1 w'
       = (Throw (AppError "Label not found" 404), logged w' (db w') [LabelDelete]).
Proof.
  apply (deleteLabel_existing 1 two_labels_world sample_label_row).
  reflexivity.
Defined.

(** X20 on the sample. *)
Lemma deleteLabelsBulk_single_sample :
  db (snd (deleteLabelsBulk [1] two_labels_world))
  = db (snd (deleteLabel 1 two_labels_world)).
Proof.
  apply (deleteLabelsBulk_single 1 two_labels_world sample_label_row).
  reflexivity.
Defined.

(** X21 on the sample: the first and the last millisecond of
    1970-01-01. *)
Lemma getProgramGuideByDate_same_day_sample :
  getProgramGuideByDate 0 "dev-1" asc labelled_world
  = getProgramGuideByDate 86399999 "dev-1" asc labelled_world.
Proof.
  apply (getProgramGuideByDate_same_day 0 86399999 "dev-1" asc labelled_world).
  reflexivity.
Defined.

(** X22 on the sample: the guide of "dev-1", latest first. *)
Lemma getProgramGuideByDate_ordered_sample :
  exists rows out,
    getProgramGuideByDate 123 "dev-1" desc two_labels_world
    = (Return out,
       logged two_labels_world (db two_labels_world) [DeviceFindUnique; LabelFindMany])
    /\ Forall2 (guide_entry (db two_labels_world)) rows out
    /\ StronglySorted (in_order desc LabelRow.start_time) rows
    /\ Forall (fun l => In l (labels (db two_labels_world))
                        /\ on_device (db two_labels_world) "dev-1" l = true) rows.
Proof.
  apply (getProgramGuideByDate_ordered 123 "dev-1" desc two_labels_world).
  - simpl. auto.
  - unfold day_in_range, max_time_value. lia.
Defined.

(** X23 on the sample: label 1 starts and ends on 1970-01-01. *)
Lemma getProgramGuideByDate_every_day_sample :
  exists out w' g,
    getProgramGuideByDate 123 "dev-1" asc labelled_world = (Return out, w')
    /\ In g out
    /\ guide_entry (db labelled_world) sample_label_row g.
Proof.
  apply (getProgramGuideByDate_every_day 123 "dev-1" asc labelled_world sample_label_row).
  - simpl. auto.
  - unfold day_in_range, max_time_value. lia.
  - simpl. auto.
  - reflexivity.
  - simpl. lia.
  - reflexivity.
  - reflexivity.
Defined.

(** X24 on the sample: the empty body is refused with the message of the
    first issue, and the chain does not run. *)
Lemma validate_outcome_sample :
  (exists message, AppError "Required" 400 = AppError message 400 /\ message <> "")
  /\ (sample_schema "" <> None -> 0%nat = 0%nat)
  /\ (sample_schema "" = None -> 0%nat = snd (sample_next 0%nat)).
Proof.
  apply (validate_outcome sample_schema sample_next "" 0%nat 0%nat
           (Throw (AppError "Required" 400))).
  reflexivity.
Defined.
